(** * VerilogSee: the pseudo-C to Verilog translators

    A shallow embedding of the two front ends of the repository:
    - [AdHocRegex] : the token pipeline of [src/adHocRegex.py]
      (class [Parser]: [tokenize], [build_ast], [generate_verilog]);
    - [Main] : the rule pipeline of [src/main.py]
      (the [ConversionRule] classes and [PseudoCToVerilog]).

    Python [str] values are modelled as [string]; the source is ASCII, and
    a character above 127 is classified as neither space, letter nor digit.
    Python [int] is [Z].  A [dict] is an association list in insertion
    order, as the generators iterate over [.items()]. *)

From Stdlib Require Import String Ascii List ZArith Bool Lia Arith.
From Stdlib Require Import DecimalString Decimal DecimalPos DecimalN.
Import ListNotations.
Local Open Scope string_scope.
Local Open Scope list_scope.
Local Open Scope nat_scope.

(** ** Python built-ins used by the source *)

Module Py.

Definition code (c : ascii) : nat := nat_of_ascii c.

Definition between (lo hi : nat) (c : ascii) : bool :=
  (lo <=? code c)%nat && (code c <=? hi)%nat.

(** [str.isspace] on one character: TAB..CR, FS..US and the blank. *)
Definition isspace (c : ascii) : bool :=
  between 9 13 c || between 28 32 c.

Definition isdigit (c : ascii) : bool := between 48 57 c.

Definition isalpha (c : ascii) : bool :=
  between 65 90 c || between 97 122 c.

Definition isalnum (c : ascii) : bool := isalpha c || isdigit c.

(** [c in chars] for a one-character [c]. *)
Fixpoint char_in (c : ascii) (chars : string) : bool :=
  match chars with
  | EmptyString => false
  | String d r => Ascii.eqb c d || char_in c r
  end.

Fixpoint startswith (s p : string) : bool :=
  match p, s with
  | EmptyString, _ => true
  | String a p', String b s' => Ascii.eqb a b && startswith s' p'
  | String _ _, EmptyString => false
  end.

(** [sub in s] for strings. *)
Fixpoint contains (sub s : string) : bool :=
  startswith s sub ||
  match s with
  | EmptyString => false
  | String _ r => contains sub r
  end.

(** [s.count(c)] for a one-character [c]. *)
Fixpoint count (c : ascii) (s : string) : nat :=
  match s with
  | EmptyString => 0
  | String d r => (if Ascii.eqb c d then 1 else 0) + count c r
  end.

Fixpoint take (n : nat) (s : string) : string :=
  match n, s with
  | S k, String c r => String c (take k r)
  | _, _ => EmptyString
  end.

Fixpoint drop (n : nat) (s : string) : string :=
  match n, s with
  | S k, String _ r => drop k r
  | _, _ => s
  end.

Fixpoint rev_onto (s acc : string) : string :=
  match s with
  | EmptyString => acc
  | String c r => rev_onto r (String c acc)
  end.

Definition rev (s : string) : string := rev_onto s EmptyString.

Fixpoint lstrip_by (p : ascii -> bool) (s : string) : string :=
  match s with
  | String c r => if p c then lstrip_by p r else s
  | EmptyString => EmptyString
  end.

Definition rstrip_by (p : ascii -> bool) (s : string) : string :=
  rev (lstrip_by p (rev s)).

(** [s.strip()] *)
Definition strip (s : string) : string :=
  rstrip_by isspace (lstrip_by isspace s).

(** [s.rstrip(chars)] *)
Definition rstrip (chars : string) (s : string) : string :=
  rstrip_by (fun c => char_in c chars) s.

(** [s.split(sep)] for a one-character separator: never the empty list. *)
Fixpoint split (sep : ascii) (s : string) : list string :=
  match s with
  | EmptyString => [EmptyString]
  | String c r =>
      if Ascii.eqb c sep then EmptyString :: split sep r
      else match split sep r with
           | h :: t => String c h :: t
           | [] => [String c EmptyString]
           end
  end.

(** [s.split(sep)] for a two-character separator [a b], scanned left to
    right without overlap. *)
Fixpoint split2 (a b : ascii) (s : string) : list string :=
  match s with
  | EmptyString => [EmptyString]
  | String c r =>
      let keep :=
        match split2 a b r with
        | h :: t => String c h :: t
        | [] => [String c EmptyString]
        end in
      match r with
      | String d r' =>
          if Ascii.eqb c a && Ascii.eqb d b then EmptyString :: split2 a b r'
          else keep
      | EmptyString => keep
      end
  end.

(** [s.split()] : maximal runs of non-space characters. *)
Fixpoint split_ws_from (s : string) (cur : string) : list string :=
  let flush := match cur with EmptyString => [] | _ => [rev cur] end in
  match s with
  | EmptyString => flush
  | String c r =>
      if isspace c then flush ++ split_ws_from r EmptyString
      else split_ws_from r (String c cur)
  end.

Definition split_ws (s : string) : list string := split_ws_from s EmptyString.

(** [sep.join(parts)] *)
Fixpoint join (sep : string) (parts : list string) : string :=
  match parts with
  | [] => EmptyString
  | [p] => p
  | p :: rest => p ++ sep ++ join sep rest
  end.

(** The decimal text of an [int]: its digits, after a minus sign when
    it is negative. *)
Definition str_of_N (n : N) : string :=
  NilZero.string_of_uint (N.to_uint n).

Definition str_of_Z (z : Z) : string :=
  if (z <? 0)%Z then String "-" (str_of_N (Z.abs_N z))
  else str_of_N (Z.abs_N z).

Definition digit_val (c : ascii) : Z := Z.of_nat (code c - 48).

(** The digit part of an [int] literal: digits, single underscores
    allowed between two digits.  [prev] tells whether the character
    before was a digit. *)
Fixpoint int_digits (s : string) (acc : Z) (prev : bool) : option Z :=
  match s with
  | EmptyString => if prev then Some acc else None
  | String c r =>
      if isdigit c then int_digits r (acc * 10 + digit_val c)%Z true
      else if Ascii.eqb c "_" then
        if prev then int_digits r acc false else None
      else None
  end.

(** The characters that [int] skips around a literal: TAB..CR and the
    blank.  The separators FS..US, which [str.isspace] holds for space,
    are not among them. *)
Definition int_space (c : ascii) : bool :=
  between 9 13 c || Ascii.eqb c " ".

(** [sys.get_int_max_str_digits()] as the interpreter starts: the longest
    decimal text that [int] reads and that [str] writes. *)
Definition int_max_str_digits : nat := 4300.

(** The run of digits and underscores at the head of [s], and what
    follows it. *)
Fixpoint digit_run (s : string) : string * string :=
  match s with
  | String c r =>
      if isdigit c || Ascii.eqb c "_"
      then let '(run, rest) := digit_run r in (String c run, rest)
      else (EmptyString, s)
  | EmptyString => (EmptyString, EmptyString)
  end.

Fixpoint count_digits (s : string) : nat :=
  match s with
  | String c r => (if isdigit c then 1 else 0) + count_digits r
  | EmptyString => 0
  end.

(** The two [ValueError]s of [int]. *)
Inductive int_error :=
| invalid_literal
| exceeds_digit_limit (digits : nat).

(** The literal after its sign: the run of digits is scanned first and
    its underscores are checked, then its digits are counted against the
    limit, and only then is the text after the run looked at. *)
Definition int_unsigned (s : string) : Z + int_error :=
  let '(run, rest) := digit_run s in
  match int_digits run 0%Z false with
  | None => inr invalid_literal
  | Some n =>
      if int_max_str_digits <? count_digits run
      then inr (exceeds_digit_limit (count_digits run))
      else match lstrip_by int_space rest with
           | EmptyString => inl n
           | _ => inr invalid_literal
           end
  end.

(** [int(s)] in base 10: space before the literal is skipped, one sign
    is accepted, space after the literal is skipped. *)
Definition int (s : string) : Z + int_error :=
  match lstrip_by int_space s with
  | String "-" r =>
      match int_unsigned r with
      | inl n => inl (- n)%Z
      | inr e => inr e
      end
  | String "+" r => int_unsigned r
  | t => int_unsigned t
  end.

(** [str(n)], and [n] formatted in an f-string: a [ValueError], here
    [None], when [n] has more digits than the limit. *)
Definition str (z : Z) : option string :=
  if String.length (str_of_N (Z.abs_N z)) <=? int_max_str_digits
  then Some (str_of_Z z)
  else None.

(** An insertion-ordered [dict] with [str] keys. *)
Definition dict (V : Type) : Type := list (string * V).

Fixpoint dict_get {V} (d : dict V) (k : string) : option V :=
  match d with
  | [] => None
  | (k', v) :: r => if String.eqb k k' then Some v else dict_get r k
  end.

(** [d[k] = v] : an existing key keeps its place. *)
Fixpoint dict_set {V} (d : dict V) (k : string) (v : V) : dict V :=
  match d with
  | [] => [(k, v)]
  | (k', v') :: r =>
      if String.eqb k k' then (k', v) :: r else (k', v') :: dict_set r k v
  end.

End Py.

(** ** The data classes shared by both source files *)

Inductive SyncMode := CONCURRENT | SEQUENTIAL.

Definition SyncMode_eqb (a b : SyncMode) : bool :=
  match a, b with
  | CONCURRENT, CONCURRENT | SEQUENTIAL, SEQUENTIAL => true
  | _, _ => false
  end.

(** The enum's values. *)
Definition SyncMode_value (m : SyncMode) : string :=
  match m with
  | CONCURRENT => "concurrent"
  | SEQUENTIAL => "sequential"
  end.

(** The exceptions the pipelines raise; all are [ValueError] in Python. *)
Inductive ValueError :=
| NotAValidSyncMode (literal : string)
| InvalidIntLiteral (literal : string)
| IntExceedsDigitLimit (digits : nat)
| StrExceedsDigitLimit
| TooManyValuesToUnpack
| NotEnoughValuesToUnpack
| ExpectedFunctionName.

(** [SyncMode(s)] : lookup by value. *)
Definition SyncMode_of (s : string) : SyncMode + ValueError :=
  if String.eqb s "concurrent" then inl CONCURRENT
  else if String.eqb s "sequential" then inl SEQUENTIAL
  else inr (NotAValidSyncMode s).

Record TypeInfo := mkTypeInfo {
  base_type : string;
  width : Z;
  sync_mode : option SyncMode
}.

(** [TypeInfo.parse], the same text in both source files.  Unpacking
    [type_part.split(".")] into two names raises when there are more than
    two pieces. *)
Definition TypeInfo_parse (type_str : string) : TypeInfo + ValueError :=
  let parts := Py.split2 ":" ":" type_str in
  let type_part := hd EmptyString parts in
  let sync :=
    match parts with
    | _ :: p1 :: _ =>
        match SyncMode_of p1 with
        | inl m => inl (Some m)
        | inr e => inr e
        end
    | _ => inl None
    end in
  match sync with
  | inr e => inr e
  | inl sync_mode =>
      if Py.char_in "." type_part then
        match Py.split "." type_part with
        | [base; w] =>
            match Py.int w with
            | inl n => inl (mkTypeInfo base n sync_mode)
            | inr Py.invalid_literal => inr (InvalidIntLiteral w)
            | inr (Py.exceeds_digit_limit digits) =>
                inr (IntExceedsDigitLimit digits)
            end
        | _ :: _ :: _ :: _ => inr TooManyValuesToUnpack
        | _ => inr NotEnoughValuesToUnpack
        end
      else inl (mkTypeInfo type_part 32 sync_mode)
  end.

Record Variable_ := mkVariable {
  var_name : string;
  type_info : TypeInfo
}.

Definition Variable_eqb (a b : Variable_) : bool :=
  String.eqb (var_name a) (var_name b)
  && String.eqb (base_type (type_info a)) (base_type (type_info b))
  && Z.eqb (width (type_info a)) (width (type_info b))
  && match sync_mode (type_info a), sync_mode (type_info b) with
     | None, None => true
     | Some x, Some y => SyncMode_eqb x y
     | _, _ => false
     end.

(** A computation that may raise; [Timeout] is returned only when the
    fuel given to a [while] loop runs out. *)
Inductive outcome (A : Type) :=
| Ret (a : A)
| Raise (e : ValueError)
| Timeout.
Arguments Ret {A} a.
Arguments Raise {A} e.
Arguments Timeout {A}.

Definition bind {A B : Type} (m : outcome A) (k : A -> outcome B) : outcome B :=
  match m with
  | Ret a => k a
  | Raise e => Raise e
  | Timeout => Timeout
  end.

Notation "' p <- m ;; k" := (bind m (fun p => k))
  (at level 61, p pattern, m at next level, right associativity).

Definition nl : string := String (ascii_of_nat 10) EmptyString.

(** The text of [signed ] or nothing, as both generators compute it. *)
Definition signed_prefix (t : TypeInfo) : string :=
  if String.eqb (base_type t) "signed" then "signed " else EmptyString.

(** [f"[{t.width-1}:0]"] : formatting the number raises when it has
    more digits than [str] writes. *)
Definition range_text (t : TypeInfo) : string + ValueError :=
  match Py.str (width t - 1) with
  | Some number => inl ("[" ++ number ++ ":0]")%string
  | None => inr StrExceedsDigitLimit
  end.

(** [_generate_variable_declaration], the same text in both files. *)
Definition _generate_variable_declaration (var : Variable_)
  : string + ValueError :=
  match range_text (type_info var) with
  | inl range =>
      inl ("    reg " ++ signed_prefix (type_info var) ++ range
           ++ " " ++ var_name var ++ ";")%string
  | inr e => inr e
  end.

(** [f"{direction} {type_str}[{t.width-1}:0] {port}"], a port of a
    function module, the same text in both files. *)
Definition port_text (direction : string) (t : TypeInfo) (port : string)
  : string + ValueError :=
  match range_text t with
  | inl range =>
      inl (direction ++ " " ++ signed_prefix t ++ range ++ " " ++ port)%string
  | inr e => inr e
  end.

(** A loop that appends [f x] for each [x] of [l]: the first error ends
    it. *)
Fixpoint for_each {A B : Type} (f : A -> B + ValueError) (l : list A)
  : list B + ValueError :=
  match l with
  | [] => inl []
  | x :: rest =>
      match f x with
      | inl y =>
          match for_each f rest with
          | inl ys => inl (y :: ys)
          | inr e => inr e
          end
      | inr e => inr e
      end
  end.

(** The list [ports] of [_generate_function_module], the same loop in
    both files: clock and reset, one input for each parameter, and the
    output when there is a return type. *)
Definition module_ports (parameters : list Variable_)
    (return_type : option TypeInfo) : list string + ValueError :=
  match for_each (fun param => port_text "input" (type_info param) (var_name param))
                 parameters with
  | inl inputs =>
      match return_type with
      | Some t =>
          match port_text "output reg" t "result" with
          | inl output => inl (["input clk"; "input rst"] ++ inputs ++ [output])
          | inr e => inr e
          end
      | None => inl (["input clk"; "input rst"] ++ inputs)
      end
  | inr e => inr e
  end.

(** The declarations of the registers of [main], the same loop in both
    files. *)
Definition declarations (variables : Py.dict Variable_)
  : list string + ValueError :=
  for_each (fun '(_, var) => _generate_variable_declaration var) variables.

(** [lines[-1] = lines[-1].rstrip(',')] *)
Fixpoint rstrip_last (lines : list string) : list string :=
  match lines with
  | [] => []
  | [l] => [Py.rstrip "," l]
  | l :: r => l :: rstrip_last r
  end.

(** The body of [_generate_sequential_instance], the same text in both
    files; it reads [func.name], [func.parameters] and whether
    [func.return_type] is set. *)
Definition sequential_instance_lines (func_name : string)
    (params : list Variable_) (has_result : bool)
    (instance_name args : string) : list string :=
  let arg_list := match args with EmptyString => [] | _ => Py.split "," args end in
  let connect :=
    map (fun '(i, param) =>
           let arg_val :=
             match nth_error arg_list i with
             | Some a => Py.strip a
             | None => "0"
             end in
           "        ." ++ var_name param ++ "(" ++ arg_val ++ "),")%string
        (combine (seq 0 (List.length params)) params) in
  rstrip_last
    ([("    // Sequential function instance: " ++ instance_name)%string;
      ("    " ++ func_name ++ " " ++ instance_name ++ " (")%string;
      "        .clk(clk),";
      "        .rst(rst),"]
     ++ connect
     ++ (if has_result
         then [("        .result(" ++ instance_name ++ "_result)")%string]
         else []))
  ++ ["    );"; EmptyString].

(** ** The token pipeline: [src/adHocRegex.py] *)

Module AdHocRegex.

Inductive Statement := assignment (target expr : string).

Record Function := mkFunction {
  name : string;
  parameters : list Variable_;
  return_type : option TypeInfo;
  statements : list Statement;
  default_sync_mode : SyncMode
}.

Inductive TokenType := TYPE | IDENTIFIER | OPERATOR | DELIMITER | KEYWORD | NUMBER.

Definition TokenType_eqb (a b : TokenType) : bool :=
  match a, b with
  | TYPE, TYPE | IDENTIFIER, IDENTIFIER | OPERATOR, OPERATOR
  | DELIMITER, DELIMITER | KEYWORD, KEYWORD | NUMBER, NUMBER => true
  | _, _ => false
  end.

Record Token := mkToken {
  type : TokenType;
  value : string;
  line : nat;
  column : nat
}.

(** [self.context] of a [Parser]. *)
Record Context := mkContext {
  variables : Py.dict Variable_;
  functions : Py.dict Function;
  sequential_calls : list (Function * string * string);
  call_counter : Z;
  in_always_block : bool
}.

(** [Parser.__init__] *)
Definition init : Context := mkContext [] [] [] 0 false.

Definition set_variables (c : Context) (v : Py.dict Variable_) : Context :=
  mkContext v (functions c) (sequential_calls c) (call_counter c) (in_always_block c).

Definition set_functions (c : Context) (f : Py.dict Function) : Context :=
  mkContext (variables c) f (sequential_calls c) (call_counter c) (in_always_block c).

Definition set_in_always_block (c : Context) (b : bool) : Context :=
  mkContext (variables c) (functions c) (sequential_calls c) (call_counter c) b.

(** *** Lexer

    The source addresses the line as [(line, col_idx)] and only ever looks
    forward from [col_idx]; the helpers below take the suffix
    [line[col_idx:]]. *)

(** The test after a type prefix or a keyword: end of line, a space, or
    one of [stops]. *)
Definition boundary (stops : string) (rest : string) : bool :=
  match rest with
  | EmptyString => true
  | String c _ => Py.isspace c || Py.char_in c stops
  end.

Definition _check_type_declaration (s : string) : bool :=
  existsb (fun prefix =>
             Py.startswith s prefix
             && boundary ".::" (Py.drop (String.length prefix) s))
          ["int"; "signed"; "unsigned"].

Fixpoint span (p : ascii -> bool) (s : string) : string :=
  match s with
  | String c r => if p c then String c (span p r) else EmptyString
  | EmptyString => EmptyString
  end.

Definition _extract_type (s : string) : string :=
  span (fun c => negb (Py.isspace c) && negb (Py.char_in c ";,(){}")) s.

Definition _check_keyword (s : string) : option string :=
  find (fun keyword =>
          Py.startswith s keyword
          && boundary "({;:" (Py.drop (String.length keyword) s))
       ["function"; "if"; "else"; "for"; "while"; "return"].

Definition _extract_identifier (s : string) : string :=
  span (fun c => Py.isalnum c || Ascii.eqb c "_") s.

Definition _extract_number (s : string) : string :=
  span Py.isdigit s.

(** One line of [tokenize].  [s] is [line[col_idx:]]; after a token of
    [n] characters the cursor is moved by [n], here by skipping the [n-1]
    characters that follow the current one. *)
Fixpoint tokenize_line (line_idx : nat) (s : string) (col_idx skip : nat)
  : list Token :=
  match s with
  | EmptyString => []
  | String c rest =>
      match skip with
      | S k => tokenize_line line_idx rest (S col_idx) k
      | O =>
          let emit ty text :=
            mkToken ty text line_idx col_idx
            :: tokenize_line line_idx rest (S col_idx) (String.length text - 1) in
          if Py.isspace c then tokenize_line line_idx rest (S col_idx) 0
          else if _check_type_declaration s then emit TYPE (_extract_type s)
          else match _check_keyword s with
          | Some keyword => emit KEYWORD keyword
          | None =>
          if Py.isalpha c || Ascii.eqb c "_" then
            emit IDENTIFIER (_extract_identifier s)
          else if Py.char_in c "=+-*/&|^<>" then
            if (2 <=? String.length s)%nat
               && existsb (String.eqb (Py.take 2 s)) ["<="; ">="; "=="; "!="]
            then emit OPERATOR (Py.take 2 s)
            else emit OPERATOR (String c EmptyString)
          else if Py.char_in c "{}();," then
            emit DELIMITER (String c EmptyString)
          else if Py.isdigit c then emit NUMBER (_extract_number s)
          else tokenize_line line_idx rest (S col_idx) 0
          end
      end
  end.

Fixpoint tokenize_from (line_idx : nat) (lines : list string) : list Token :=
  match lines with
  | [] => []
  | l :: rest =>
      (match Py.strip l with
       | EmptyString => []
       | _ => tokenize_line line_idx l 0 0
       end) ++ tokenize_from (S line_idx) rest
  end.

Definition tokenize (lines : list string) : list Token :=
  tokenize_from 0 lines.

(** *** AST builder *)

Record AST := mkAST {
  ast_variables : Py.dict Variable_;
  ast_functions : Py.dict Function;
  ast_statements : list Statement
}.

Definition type_at (tokens : list Token) (i : nat) (ty : TokenType) : bool :=
  match nth_error tokens i with
  | Some t => TokenType_eqb (type t) ty
  | None => false
  end.

(** [i < len(tokens) and tokens[i].type == ty and tokens[i].value == v] *)
Definition is_at (tokens : list Token) (i : nat) (ty : TokenType) (v : string)
  : bool :=
  match nth_error tokens i with
  | Some t => TokenType_eqb (type t) ty && String.eqb (value t) v
  | None => false
  end.

Definition value_at (tokens : list Token) (i : nat) : string :=
  match nth_error tokens i with
  | Some t => value t
  | None => EmptyString
  end.

Fixpoint take_while (p : Token -> bool) (l : list Token) : list Token :=
  match l with
  | t :: r => if p t then t :: take_while p r else []
  | [] => []
  end.

(** [while i < len(tokens) and p(tokens[i]): out.append(tokens[i]); i += 1] *)
Definition collect_while (p : Token -> bool) (tokens : list Token) (i : nat)
  : list Token * nat :=
  let run := take_while p (skipn i tokens) in (run, i + List.length run).

Definition _tokens_to_expression (tokens : list Token) : string :=
  Py.join " "
    (flat_map (fun t =>
       match type t with
       | IDENTIFIER | OPERATOR | NUMBER => [value t]
       | DELIMITER => if Py.contains (value t) "()" then [value t] else []
       | _ => []
       end) tokens).

(** The parameter loop of [_parse_function]. *)
Fixpoint parse_parameters (fuel : nat) (tokens : list Token) (i : nat)
    (parameters : list Variable_) : outcome (nat * list Variable_) :=
  if (i <? List.length tokens) && negb (is_at tokens i DELIMITER ")") then
    match fuel with
    | O => Timeout
    | S fuel' =>
        if type_at tokens i TYPE then
          match TypeInfo_parse (value_at tokens i) with
          | inr e => Raise e
          | inl param_type =>
              let i1 := i + 1 in
              let '(parameters1, i2) :=
                if type_at tokens i1 IDENTIFIER
                then (parameters ++ [mkVariable (value_at tokens i1) param_type],
                      i1 + 1)
                else (parameters, i1) in
              let i3 := if is_at tokens i2 DELIMITER "," then i2 + 1 else i2 in
              parse_parameters fuel' tokens i3 parameters1
          end
        else parse_parameters fuel' tokens (i + 1) parameters
    end
  else Ret (i, parameters).

(** The body loop of [_parse_function]. *)
Fixpoint parse_body (fuel : nat) (tokens : list Token) (i : nat)
    (stmts : list Statement) : outcome (nat * list Statement) :=
  if (i <? List.length tokens) && negb (is_at tokens i DELIMITER "}") then
    match fuel with
    | O => Timeout
    | S fuel' =>
        if type_at tokens i IDENTIFIER && is_at tokens (i + 1) OPERATOR "=" then
          let '(expr_tokens, j) :=
            collect_while
              (fun t => negb (TokenType_eqb (type t) DELIMITER
                              && String.eqb (value t) ";"))
              tokens (i + 2) in
          parse_body fuel' tokens (j + 1)
            (stmts ++ [assignment (value_at tokens i)
                                  (_tokens_to_expression expr_tokens)])
        else parse_body fuel' tokens (i + 1) stmts
    end
  else Ret (i, stmts).

(** The stages of [_parse_function]; each takes the cursor and returns
    what it read with the new cursor. *)

(** [# Check for sync mode] *)
Definition parse_sync_mode (tokens : list Token) (i : nat)
  : outcome (SyncMode * nat) :=
  if is_at tokens (i + 1) DELIMITER "::" && type_at tokens (i + 2) IDENTIFIER
  then match SyncMode_of (value_at tokens (i + 2)) with
       | inl m => Ret (m, i + 3)
       | inr e => Raise e
       end
  else Ret (CONCURRENT, i + 1).

(** [# Parse return type if present] *)
Definition parse_return_type (tokens : list Token) (i : nat)
  : outcome (option TypeInfo * nat) :=
  if type_at tokens i TYPE
  then match TypeInfo_parse (value_at tokens i) with
       | inl t => Ret (Some t, i + 1)
       | inr e => Raise e
       end
  else Ret (None, i).

(** [# Function name] *)
Definition parse_name (tokens : list Token) (i : nat) : outcome (string * nat) :=
  if type_at tokens i IDENTIFIER then Ret (value_at tokens i, i + 1)
  else Raise ExpectedFunctionName.

(** [# Parameter list] *)
Definition parse_parameter_list (tokens : list Token) (i : nat)
  : outcome (list Variable_ * nat) :=
  if is_at tokens i DELIMITER "("
  then '(j, parameters) <- parse_parameters (List.length tokens) tokens (i + 1) [] ;;
       Ret (parameters, j + 1)
  else Ret ([], i).

(** [# Function body] *)
Definition parse_function_body (tokens : list Token) (i : nat)
  : outcome (list Statement * nat) :=
  if is_at tokens i DELIMITER "{"
  then '(j, stmts) <- parse_body (List.length tokens) tokens (i + 1) [] ;;
       Ret (stmts, j + 1)
  else Ret ([], i).

Definition _parse_function (tokens : list Token) (start_idx : nat)
  : outcome (nat * Function) :=
  '(sync_mode, i) <- parse_sync_mode tokens start_idx ;;
  '(return_type, i) <- parse_return_type tokens i ;;
  '(func_name, i) <- parse_name tokens i ;;
  '(parameters, i) <- parse_parameter_list tokens i ;;
  '(stmts, i) <- parse_function_body tokens i ;;
  Ret (i, mkFunction func_name parameters return_type stmts sync_mode).

(** One iteration of the [while] loop of [build_ast], entered with
    [i < len(tokens)]. *)
Definition build_step (tokens : list Token) (i : nat) (ast : AST) (ctx : Context)
  : outcome (nat * AST) * Context :=
  if type_at tokens i TYPE && type_at tokens (i + 1) IDENTIFIER then
    match TypeInfo_parse (value_at tokens i) with
    | inr e => (Raise e, ctx)
    | inl ti =>
        let var_name := value_at tokens (i + 1) in
        let var := mkVariable var_name ti in
        (Ret (i + 3,
              mkAST (Py.dict_set (ast_variables ast) var_name var)
                    (ast_functions ast) (ast_statements ast)),
         set_variables ctx (Py.dict_set (variables ctx) var_name var))
    end
  else if is_at tokens i KEYWORD "function" then
    match _parse_function tokens i with
    | Ret (j, function) =>
        (Ret (j,
              mkAST (ast_variables ast)
                    (Py.dict_set (ast_functions ast) (name function) function)
                    (ast_statements ast)),
         set_functions ctx (Py.dict_set (functions ctx) (name function) function))
    | Raise e => (Raise e, ctx)
    | Timeout => (Timeout, ctx)
    end
  else if type_at tokens i IDENTIFIER && is_at tokens (i + 1) OPERATOR "=" then
    let '(expr_tokens, j) :=
      collect_while (fun t => negb (TokenType_eqb (type t) DELIMITER))
                    tokens (i + 2) in
    (Ret (j + 1,
          mkAST (ast_variables ast) (ast_functions ast)
                (ast_statements ast
                 ++ [assignment (value_at tokens i)
                                (_tokens_to_expression expr_tokens)])),
     ctx)
  else (Ret (i + 1, ast), ctx).

Fixpoint build_loop (fuel : nat) (tokens : list Token) (i : nat) (ast : AST)
    (ctx : Context) : outcome AST * Context :=
  if i <? List.length tokens then
    match fuel with
    | O => (Timeout, ctx)
    | S fuel' =>
        match build_step tokens i ast ctx with
        | (Ret (j, ast'), ctx') => build_loop fuel' tokens j ast' ctx'
        | (Raise e, ctx') => (Raise e, ctx')
        | (Timeout, ctx') => (Timeout, ctx')
        end
    end
  else (Ret ast, ctx).

Definition build_ast (tokens : list Token) (ctx : Context)
  : outcome AST * Context :=
  build_loop (List.length tokens) tokens 0 (mkAST [] [] []) ctx.

(** *** Code generator *)

Definition _convert_expression (expr : string) : string := expr.

(** [f"            {var_name} <= {converted_expr};"] for each statement. *)
Definition statement_lines (stmts : list Statement) : list string :=
  map (fun '(assignment var_name expr) =>
         "            " ++ var_name ++ " <= " ++ _convert_expression expr ++ ";")%string
      stmts.

Definition _generate_function_module (func : Function)
  : list string + ValueError :=
  match module_ports (parameters func) (return_type func) with
  | inr e => inr e
  | inl ports =>
      inl ([("module " ++ name func ++ "(")%string;
            ("    " ++ Py.join ("," ++ nl ++ "    ") ports)%string;
            ");";
            EmptyString;
            "    always @(posedge clk or posedge rst) begin";
            "        if (rst) begin"]
           ++ match return_type func with
              | Some _ => ["            result <= 0;"]
              | None => []
              end
           ++ ["        end else begin"]
           ++ statement_lines (statements func)
           ++ ["        end"; "    end"; EmptyString; "endmodule"; EmptyString])
  end.

(** [_generate_sequential_instance] *)
Definition _generate_sequential_instance (func : Function)
    (instance_name args : string) : list string :=
  sequential_instance_lines (name func) (parameters func)
    (match return_type func with Some _ => true | None => false end)
    instance_name args.

(** The first part of [generate_verilog]: the header of [main], its
    registers and its clocked block. *)
Definition main_module_lines (ast : AST) : list string + ValueError :=
  match declarations (ast_variables ast) with
  | inr e => inr e
  | inl registers =>
      inl (["module main("; "    input clk,"; "    input rst"; ");"; EmptyString]
           ++ registers
           ++ [EmptyString; "    always @(posedge clk or posedge rst) begin";
               "        if (rst) begin"]
           ++ map (fun '(var_name, _) =>
                     ("            " ++ var_name ++ " <= 0;")%string)
                  (ast_variables ast)
           ++ ["        end else begin"]
           ++ statement_lines (ast_statements ast)
           ++ ["        end"; "    end"; EmptyString])
  end.

(** The loop over [ast['functions']] of [generate_verilog]. *)
Definition function_modules (functions : Py.dict Function)
  : list string + ValueError :=
  match for_each (fun '(_, func) => _generate_function_module func) functions with
  | inl modules => inl (concat modules)
  | inr e => inr e
  end.

(** [generate_verilog]: the registers are written before the flag is
    raised for the statements, the function modules after it is lowered
    again. *)
Definition generate_verilog (ast : AST) (ctx : Context)
  : (string + ValueError) * Context :=
  match main_module_lines ast with
  | inr e => (inr e, ctx)
  | inl main =>
      let ctx1 := set_in_always_block ctx true in
      let ctx2 := set_in_always_block ctx1 false in
      match function_modules (ast_functions ast) with
      | inr e => (inr e, ctx2)
      | inl modules =>
          (inl (Py.join nl
                  (main ++ modules
                   ++ flat_map (fun '(func, instance_name, args) =>
                                  _generate_sequential_instance func
                                    instance_name args)
                               (sequential_calls ctx2)
                   ++ ["endmodule"])),
           ctx2)
      end
  end.

(** [Parser.parse_code] on the parser object whose context is [ctx]. *)
Definition parse_code (code : string) (ctx : Context)
  : outcome string * Context :=
  let lines := Py.split (ascii_of_nat 10) (Py.strip code) in
  let tokens := tokenize lines in
  match build_ast tokens ctx with
  | (Ret ast, ctx') =>
      match generate_verilog ast ctx' with
      | (inl verilog, ctx'') => (Ret verilog, ctx'')
      | (inr e, ctx'') => (Raise e, ctx'')
      end
  | (Raise e, ctx') => (Raise e, ctx')
  | (Timeout, ctx') => (Timeout, ctx')
  end.

End AdHocRegex.

(** ** Regular expressions

    The fragment of Python's [re] the rule pipeline uses, with its
    backtracking order: a greedy repetition tries the longest run first,
    a lazy one the shortest, an optional group is tried before it is
    skipped.  Every repetition in the source's patterns is over a
    character class. *)

Module Re.

Inductive regex :=
| Chr (c : ascii)
| Class (p : ascii -> bool)
| Str (s : string)
| Cat (a b : regex)
| Opt (a : regex)
| Star (p : ascii -> bool)
| Plus (p : ascii -> bool)
| LazyStar (p : ascii -> bool)
| Group (n : nat) (a : regex).

(** [\w], [\d], [\s] and [.] on ASCII text. *)
Definition word (c : ascii) : bool := Py.isalnum c || Ascii.eqb c "_".
Definition digit (c : ascii) : bool := Py.isdigit c.
Definition space (c : ascii) : bool := Py.isspace c.
Definition dot (c : ascii) : bool := negb (Ascii.eqb c (ascii_of_nat 10)).

Definition groups := nat -> option string.
Definition no_groups : groups := fun _ => None.
Definition set_group (g : groups) (n : nat) (s : string) : groups :=
  fun m => if Nat.eqb m n then Some s else g m.

Section Matcher.
Context {R : Type}.

Fixpoint star_greedy (p : ascii -> bool) (s : string)
    (k : string -> option R) : option R :=
  match s with
  | String c r =>
      if p c then
        match star_greedy p r k with
        | Some x => Some x
        | None => k s
        end
      else k s
  | EmptyString => k s
  end.

Fixpoint star_lazy (p : ascii -> bool) (s : string)
    (k : string -> option R) : option R :=
  match k s with
  | Some x => Some x
  | None =>
      match s with
      | String c r => if p c then star_lazy p r k else None
      | EmptyString => None
      end
  end.

(** [run r s g k] : match [r] at the head of [s] and hand the rest of the
    text and the groups to [k]; when [k] fails, backtrack. *)
Fixpoint run (r : regex) (s : string) (g : groups)
    (k : string -> groups -> option R) : option R :=
  match r with
  | Chr c =>
      match s with
      | String d s' => if Ascii.eqb c d then k s' g else None
      | EmptyString => None
      end
  | Class p =>
      match s with
      | String d s' => if p d then k s' g else None
      | EmptyString => None
      end
  | Str lit =>
      if Py.startswith s lit then k (Py.drop (String.length lit) s) g else None
  | Cat a b => run a s g (fun s' g' => run b s' g' k)
  | Opt a =>
      match run a s g k with
      | Some x => Some x
      | None => k s g
      end
  | Star p => star_greedy p s (fun s' => k s' g)
  | Plus p =>
      match s with
      | String d s' => if p d then star_greedy p s' (fun s'' => k s'' g) else None
      | EmptyString => None
      end
  | LazyStar p => star_lazy p s (fun s' => k s' g)
  | Group n a =>
      run a s g (fun s' g' =>
        k s' (set_group g' n (Py.take (String.length s - String.length s') s)))
  end.

End Matcher.

(** [re.match(pattern, s)] : the groups and the length of the matched
    prefix. *)
Definition re_match (r : regex) (s : string) : option (groups * nat) :=
  run r s no_groups (fun s' g => Some (g, String.length s - String.length s')).

End Re.

(** ** The rule pipeline: [src/main.py] *)

Module Main.

Import Re.

Record Function := mkFunction {
  name : string;
  parameters : list Variable_;
  return_type : option TypeInfo;
  statements : list string;
  default_sync_mode : SyncMode
}.

(** The rule classes of the source. *)
Inductive ConversionRule :=
| VariableDeclarationRule
| FunctionDeclarationRule
| AssignmentRule
| BitwiseOperatorRule.

Definition type_pattern : regex :=
  Cat (Plus word)
      (Cat (Opt (Cat (Chr ".") (Plus digit)))
           (Opt (Cat (Str "::") (Plus word)))).

(** [rule.pattern()] *)
Definition pattern (rule : ConversionRule) : regex :=
  match rule with
  | VariableDeclarationRule =>
      (* (\w+(?:\.\d+)?(?:::\w+)?)\s+(\w+); *)
      Cat (Group 1 type_pattern)
          (Cat (Plus space) (Cat (Group 2 (Plus word)) (Chr ";")))
  | FunctionDeclarationRule =>
      (* function(?:::(\w+))?\s*(?:(\w+(?:\.\d+)?(?:::\w+)?))?\s*(\w+)\((.*?)\)\s*\{ *)
      Cat (Str "function")
     (Cat (Opt (Cat (Str "::") (Group 1 (Plus word))))
     (Cat (Star space)
     (Cat (Opt (Group 2 type_pattern))
     (Cat (Star space)
     (Cat (Group 3 (Plus word))
     (Cat (Chr "(")
     (Cat (Group 4 (LazyStar dot))
     (Cat (Chr ")")
     (Cat (Star space) (Chr "{"))))))))))
  | AssignmentRule =>
      (* (\w+)\s*=\s*([^;]+); *)
      Cat (Group 1 (Plus word))
     (Cat (Star space)
     (Cat (Chr "=")
     (Cat (Star space)
     (Cat (Group 2 (Plus (fun c => negb (Ascii.eqb c ";")))) (Chr ";")))))
  | BitwiseOperatorRule =>
      (* (\w+)\s*([&|^])\s*(\w+) *)
      Cat (Group 1 (Plus word))
     (Cat (Star space)
     (Cat (Group 2 (Class (fun c => Py.char_in c "&|^")))
     (Cat (Star space) (Group 3 (Plus word)))))
  end.

(** (\w+)\((.*?)\) *)
Definition func_call_pattern : regex :=
  Cat (Group 1 (Plus word))
 (Cat (Chr "(") (Cat (Group 2 (LazyStar dot)) (Chr ")"))).

(** A [Function] object is referred to by its address in [heap]: the
    context's [functions] and [current_function] entries and the records
    of [sequential_calls] share the objects they name. *)
Definition ref := nat.

(** A [PseudoCToVerilog] object: its [rules], the entries of its
    [context] dictionary ([current_function] is absent until a function
    is declared), and the [Function] objects allocated so far. *)
Record PseudoCToVerilog := mkSelf {
  rules : list ConversionRule;
  variables : Py.dict Variable_;
  functions : Py.dict ref;
  sequential_calls : list (ref * string * string);
  call_counter : Z;
  in_always_block : bool;
  current_function : option ref;
  heap : list Function
}.

(** [PseudoCToVerilog.__init__] *)
Definition init : PseudoCToVerilog :=
  mkSelf [VariableDeclarationRule; FunctionDeclarationRule; AssignmentRule]
         [] [] [] 0 false None [].

Definition register_rule (rule : ConversionRule) (self : PseudoCToVerilog)
  : PseudoCToVerilog :=
  mkSelf (rules self ++ [rule]) (variables self) (functions self)
         (sequential_calls self) (call_counter self) (in_always_block self)
         (current_function self) (heap self).

Definition set_variables (self : PseudoCToVerilog) (v : Py.dict Variable_) :=
  mkSelf (rules self) v (functions self) (sequential_calls self)
         (call_counter self) (in_always_block self) (current_function self)
         (heap self).

Definition set_sequential_calls (self : PseudoCToVerilog)
    (l : list (ref * string * string)) :=
  mkSelf (rules self) (variables self) (functions self) l
         (call_counter self) (in_always_block self) (current_function self)
         (heap self).

Definition set_in_always_block (self : PseudoCToVerilog) (b : bool) :=
  mkSelf (rules self) (variables self) (functions self) (sequential_calls self)
         (call_counter self) b (current_function self) (heap self).

Definition dummy : Function := mkFunction EmptyString [] None [] CONCURRENT.

Definition deref (self : PseudoCToVerilog) (r : ref) : Function :=
  nth r (heap self) dummy.

(** [Function(...)] followed by the two context writes of
    [FunctionDeclarationRule.convert]. *)
Definition declare_function (self : PseudoCToVerilog) (f : Function) :=
  let r := List.length (heap self) in
  mkSelf (rules self) (variables self) (Py.dict_set (functions self) (name f) r)
         (sequential_calls self) (call_counter self) (in_always_block self)
         (Some r) (heap self ++ [f]).

Fixpoint list_update {A} (l : list A) (i : nat) (f : A -> A) : list A :=
  match l, i with
  | [], _ => []
  | x :: r, O => f x :: r
  | x :: r, S j => x :: list_update r j f
  end.

(** [func.statements = body] on the object at [r]. *)
Definition set_statements (self : PseudoCToVerilog) (r : ref)
    (body : list string) :=
  mkSelf (rules self) (variables self) (functions self) (sequential_calls self)
         (call_counter self) (in_always_block self) (current_function self)
         (list_update (heap self) r
            (fun f => mkFunction (name f) (parameters f) (return_type f) body
                                 (default_sync_mode f))).

(** [xs.index(x)] with the data class's equality. *)
Fixpoint index (x : Variable_) (xs : list Variable_) : nat :=
  match xs with
  | [] => 0
  | y :: r => if Variable_eqb y x then 0 else S (index x r)
  end.

Definition is_sequential (param : Variable_) : bool :=
  match sync_mode (type_info param) with
  | Some SEQUENTIAL => true
  | _ => false
  end.

(** [AssignmentRule._generate_function_call].  The counter written into
    the instance name is the one [__init__] sets to 0; no statement of
    the source assigns to it again. *)
Definition _generate_function_call (func : ref) (args : string)
    (self : PseudoCToVerilog) : string * PseudoCToVerilog :=
  let f := deref self func in
  let arg_parts := match args with EmptyString => [] | _ => Py.split "," args end in
  let has_sequential :=
    existsb is_sequential
      (filter (fun param => index param (parameters f) <? List.length arg_parts)
              (parameters f)) in
  let effective_sync_mode :=
    if has_sequential then SEQUENTIAL else default_sync_mode f in
  match effective_sync_mode with
  | CONCURRENT => ((name f ++ "(" ++ args ++ ")")%string, self)
  | SEQUENTIAL =>
      let instance_name :=
        (name f ++ "_inst_" ++ Py.str_of_Z (call_counter self))%string in
      ((instance_name ++ "_result")%string,
       set_sequential_calls self
         (sequential_calls self ++ [(func, instance_name, args)]))
  end.

Definition group (g : groups) (n : nat) : string :=
  match g n with Some s => s | None => EmptyString end.

(** [replace_func_call], the closure of [_convert_expression]; [whole] is
    [match.group(0)]. *)
Definition replace_func_call (g : groups) (whole : string)
    (self : PseudoCToVerilog) : string * PseudoCToVerilog :=
  match Py.dict_get (functions self) (group g 1) with
  | Some func => _generate_function_call func (group g 2) self
  | None => (whole, self)
  end.

(** [re.sub(func_call_pattern, replace_func_call, expr)] : the leftmost
    match is replaced and the scan resumes after it; [skip] counts the
    characters of a match still to be passed over. *)
Fixpoint sub_calls (s : string) (skip : nat) (self : PseudoCToVerilog)
  : string * PseudoCToVerilog :=
  match s with
  | EmptyString => (EmptyString, self)
  | String c rest =>
      match skip with
      | S k => sub_calls rest k self
      | O =>
          match re_match func_call_pattern s with
          | Some (g, n) =>
              let '(repl, self1) := replace_func_call g (Py.take n s) self in
              let '(out, self2) := sub_calls rest (n - 1) self1 in
              ((repl ++ out)%string, self2)
          | None =>
              let '(out, self1) := sub_calls rest 0 self in
              (String c out, self1)
          end
      end
  end.

(** [AssignmentRule._convert_expression] *)
Definition _convert_expression (expr : string) (self : PseudoCToVerilog)
  : string * PseudoCToVerilog :=
  sub_calls expr 0 self.

(** [AssignmentRule.convert] *)
Definition convert_assignment (g : groups) (self : PseudoCToVerilog)
  : string * PseudoCToVerilog :=
  let var_name := group g 1 in
  let '(converted_expr, self1) := _convert_expression (group g 2) self in
  if in_always_block self1
  then ((var_name ++ " <= " ++ converted_expr ++ ";")%string, self1)
  else (("assign " ++ var_name ++ " = " ++ converted_expr ++ ";")%string, self1).

(** The parameter loop of [FunctionDeclarationRule.convert]. *)
Fixpoint convert_parameters (pieces : list string) (parameters : list Variable_)
  : list Variable_ + ValueError :=
  match pieces with
  | [] => inl parameters
  | piece :: rest =>
      match Py.split_ws (Py.strip piece) with
      | ty :: n1 :: more =>
          match TypeInfo_parse ty with
          | inl type_info =>
              convert_parameters rest
                (parameters ++ [mkVariable (Py.join " " (n1 :: more)) type_info])
          | inr e => inr e
          end
      | _ => convert_parameters rest parameters
      end
  end.

(** [rule.convert(match, context)] : the returned text, or [None]. *)
Definition convert (rule : ConversionRule) (g : groups) (self : PseudoCToVerilog)
  : outcome (option string) * PseudoCToVerilog :=
  match rule with
  | VariableDeclarationRule =>
      match TypeInfo_parse (group g 1) with
      | inl type_info =>
          let var_name := group g 2 in
          (Ret None,
           set_variables self
             (Py.dict_set (variables self) var_name
                          (mkVariable var_name type_info)))
      | inr e => (Raise e, self)
      end
  | FunctionDeclarationRule =>
      let default_sync :=
        match g 1 with
        | Some (String _ _ as sync_mode_str) => SyncMode_of sync_mode_str
        | _ => inl CONCURRENT
        end in
      match default_sync with
      | inr e => (Raise e, self)
      | inl default_sync =>
      let return_type :=
        match g 2 with
        | Some (String _ _ as return_type_str) =>
            match TypeInfo_parse return_type_str with
            | inl t => inl (Some t)
            | inr e => inr e
            end
        | _ => inl None
        end in
      match return_type with
      | inr e => (Raise e, self)
      | inl return_type =>
      let params_str := group g 4 in
      let parameters :=
        match Py.strip params_str with
        | EmptyString => inl []
        | _ => convert_parameters (Py.split "," params_str) []
        end in
      match parameters with
      | inr e => (Raise e, self)
      | inl parameters =>
          (Ret None,
           declare_function self
             (mkFunction (group g 3) parameters return_type [] default_sync))
      end end end
  | AssignmentRule =>
      let '(text, self1) := convert_assignment g self in (Ret (Some text), self1)
  | BitwiseOperatorRule =>
      (Ret (Some (group g 1 ++ " " ++ group g 2 ++ " " ++ group g 3)%string), self)
  end.

(** [_parse_block] : the loop over [lines[start_idx+1:]]. *)
Fixpoint parse_block_loop (rest : list string) (i : nat) (brace_count : Z)
    (block_lines : list string) : list string * nat :=
  match rest with
  | [] => (block_lines, i)
  | l :: rest' =>
      if (0 <? brace_count)%Z then
        let line := Py.strip l in
        let brace_count :=
          (brace_count + Z.of_nat (Py.count "{" line)
           - Z.of_nat (Py.count "}" line))%Z in
        parse_block_loop rest' (S i) brace_count
          (if (0 <? brace_count)%Z then block_lines ++ [line] else block_lines)
      else (block_lines, i)
  end.

Definition _parse_block (lines : list string) (start_idx : nat)
  : list string * nat :=
  let '(block_lines, i) :=
    parse_block_loop (skipn (start_idx + 1) lines) (start_idx + 1) 1 [] in
  (block_lines, i - 1).

(** The [for rule in self.rules] loop of [parse_and_convert]: the first
    rule whose pattern matches converts the line.  [None] when no rule
    matched. *)
Fixpoint first_rule (rs : list ConversionRule) (line : string)
    (self : PseudoCToVerilog)
  : outcome (option (option string)) * PseudoCToVerilog :=
  match rs with
  | [] => (Ret None, self)
  | rule :: rest =>
      match re_match (pattern rule) line with
      | Some (g, _) =>
          match convert rule g self with
          | (Ret result, self1) => (Ret (Some result), self1)
          | (Raise e, self1) => (Raise e, self1)
          | (Timeout, self1) => (Timeout, self1)
          end
      | None => first_rule rest line self
      end
  end.

Definition nonempty (s : string) : bool :=
  match s with EmptyString => false | _ => true end.

(** The [while] loop of [parse_and_convert]. *)
Fixpoint convert_lines (fuel : nat) (lines : list string) (i : nat)
    (processed_lines : list string) (self : PseudoCToVerilog)
  : outcome (list string) * PseudoCToVerilog :=
  if i <? List.length lines then
    match fuel with
    | O => (Timeout, self)
    | S fuel' =>
        let line := Py.strip (nth i lines EmptyString) in
        if Py.contains "{" line && (0 <? i)
           && Py.contains "function" (Py.strip (nth (i - 1) lines EmptyString))
        then
          let '(body_lines, j) := _parse_block lines i in
          convert_lines fuel' lines j processed_lines
            (match current_function self with
             | Some r => set_statements self r body_lines
             | None => self
             end)
        else
          match first_rule (rules self) line self with
          | (Ret (Some (Some result)), self1) =>
              convert_lines fuel' lines (i + 1)
                (if nonempty result then processed_lines ++ [result]
                 else processed_lines) self1
          | (Ret (Some None), self1) =>
              convert_lines fuel' lines (i + 1) processed_lines self1
          | (Ret None, self1) =>
              convert_lines fuel' lines (i + 1) (processed_lines ++ [line]) self1
          | (Raise e, self1) => (Raise e, self1)
          | (Timeout, self1) => (Timeout, self1)
          end
    end
  else (Ret processed_lines, self).

(** The [for rule in self.rules ... else] of the main logic: the first
    [AssignmentRule] that matches with a non-empty result; [None] when the
    loop ends without [break]. *)
Fixpoint main_logic_rules (rs : list ConversionRule) (line : string)
    (self : PseudoCToVerilog) : option string * PseudoCToVerilog :=
  match rs with
  | [] => (None, self)
  | AssignmentRule :: rest =>
      match re_match (pattern AssignmentRule) line with
      | Some (g, _) =>
          let '(converted, self1) := convert_assignment g self in
          if nonempty converted then (Some converted, self1)
          else main_logic_rules rest line self1
      | None => main_logic_rules rest line self
      end
  | _ :: rest => main_logic_rules rest line self
  end.

Fixpoint main_logic (processed_lines : list string) (self : PseudoCToVerilog)
  : list string * PseudoCToVerilog :=
  match processed_lines with
  | [] => ([], self)
  | line :: rest =>
      if nonempty line
         && negb (existsb (Py.startswith line) ["int"; "signed"; "function"])
      then
        let '(converted, self1) := main_logic_rules (rules self) line self in
        let '(out, self2) := main_logic rest self1 in
        ((("            " ++
           match converted with Some t => t | None => line end)%string) :: out,
         self2)
      else main_logic rest self
  end.

(** The rule loop over one body statement in [_generate_function_module]. *)
Fixpoint body_rules (rs : list ConversionRule) (stmt : string)
    (self : PseudoCToVerilog) : string * PseudoCToVerilog :=
  match rs with
  | [] => (stmt, self)
  | AssignmentRule :: rest =>
      match re_match (pattern AssignmentRule) stmt with
      | Some (g, _) =>
          let '(converted, self1) :=
            convert_assignment g (set_in_always_block self true) in
          (converted, set_in_always_block self1 false)
      | None => body_rules rest stmt self
      end
  | _ :: rest => body_rules rest stmt self
  end.

Fixpoint body_lines (stmts : list string) (self : PseudoCToVerilog)
  : list string * PseudoCToVerilog :=
  match stmts with
  | [] => ([], self)
  | stmt :: rest =>
      let '(converted, self1) := body_rules (rules self) stmt self in
      let '(out, self2) := body_lines rest self1 in
      (if nonempty converted
       then ("            " ++ converted)%string :: out else out, self2)
  end.

(** [_generate_function_module]: the ports are written first, the body
    statements are converted after them. *)
Definition _generate_function_module (func : ref) (self : PseudoCToVerilog)
  : (list string + ValueError) * PseudoCToVerilog :=
  let f := deref self func in
  match module_ports (parameters f) (return_type f) with
  | inr e => (inr e, self)
  | inl ports =>
      let '(body, self1) := body_lines (statements f) self in
      (inl ([("module " ++ name f ++ "(")%string;
             ("    " ++ Py.join ("," ++ nl ++ "    ") ports)%string;
             ");";
             EmptyString;
             "    always @(posedge clk or posedge rst) begin";
             "        if (rst) begin"]
            ++ match return_type f with
               | Some _ => ["            result <= 0;"]
               | None => []
               end
            ++ ["        end else begin"]
            ++ body
            ++ ["        end"; "    end"; EmptyString; "endmodule"; EmptyString]),
       self1)
  end.

(** The loop over [context['functions']] of [_generate_verilog]. *)
Fixpoint function_modules (fs : list (string * ref)) (self : PseudoCToVerilog)
  : (list string + ValueError) * PseudoCToVerilog :=
  match fs with
  | [] => (inl [], self)
  | (_, func) :: rest =>
      match _generate_function_module func self with
      | (inr e, self1) => (inr e, self1)
      | (inl m, self1) =>
          match function_modules rest self1 with
          | (inr e, self2) => (inr e, self2)
          | (inl out, self2) => (inl (m ++ out), self2)
          end
      end
  end.

(** [_generate_sequential_instance] *)
Definition _generate_sequential_instance (func : Function)
    (instance_name args : string) : list string :=
  sequential_instance_lines (name func) (parameters func)
    (match return_type func with Some _ => true | None => false end)
    instance_name args.

(** [_generate_verilog]: the registers are written before the flag is
    raised for the main logic, the function modules after it is lowered
    again. *)
Definition _generate_verilog (processed_lines : list string)
    (self : PseudoCToVerilog) : (string + ValueError) * PseudoCToVerilog :=
  match declarations (variables self) with
  | inr e => (inr e, self)
  | inl registers =>
      let head :=
        ["module main("; "    input clk,"; "    input rst"; ");"; EmptyString]
        ++ registers
        ++ [EmptyString; "    always @(posedge clk or posedge rst) begin";
            "        if (rst) begin"]
        ++ map (fun '(var_name, _) =>
                  ("            " ++ var_name ++ " <= 0;")%string)
               (variables self)
        ++ ["        end else begin"] in
      let '(logic, self1) :=
        main_logic processed_lines (set_in_always_block self true) in
      let self2 := set_in_always_block self1 false in
      match function_modules (functions self2) self2 with
      | (inr e, self3) => (inr e, self3)
      | (inl modules, self3) =>
          (inl (Py.join nl
                  (head ++ logic ++ ["        end"; "    end"; EmptyString]
                   ++ modules
                   ++ flat_map (fun '(func, instance_name, args) =>
                                  _generate_sequential_instance
                                    (deref self3 func) instance_name args)
                               (sequential_calls self3)
                   ++ ["endmodule"])),
           self3)
      end
  end.

(** [parse_and_convert]; [fuel] bounds the iterations of its [while]
    loop. *)
Definition parse_and_convert (fuel : nat) (code : string)
    (self : PseudoCToVerilog) : outcome string * PseudoCToVerilog :=
  let lines := Py.split (ascii_of_nat 10) (Py.strip code) in
  match convert_lines fuel lines 0 [] self with
  | (Ret processed_lines, self1) =>
      match _generate_verilog processed_lines self1 with
      | (inl verilog, self2) => (Ret verilog, self2)
      | (inr e, self2) => (Raise e, self2)
      end
  | (Raise e, self1) => (Raise e, self1)
  | (Timeout, self1) => (Timeout, self1)
  end.

End Main.

(** ** Vocabulary of the statements *)

(** Every character of [s] satisfies [p]. *)
Fixpoint all_chars (p : ascii -> bool) (s : string) : bool :=
  match s with
  | EmptyString => true
  | String c r => p c && all_chars p r
  end.

(** [c] does not occur in [s]. *)
Definition lacks (c : ascii) (s : string) : bool :=
  all_chars (fun d => negb (Ascii.eqb d c)) s.

(** The number of actual arguments, [len(arg_parts)]. *)
Definition arg_count (args : string) : nat :=
  match args with
  | EmptyString => 0
  | _ => List.length (Py.split "," args)
  end.

(** The two-line source of the [inc] example. *)
Definition inc_example : string :=
  "function::sequential int.8 inc(int.8 x){ result = x + 1; }"
  ++ nl ++ "y = inc(y);".


(** [r] is not a timeout, and a cursor it returns is at or (when [strict])
    after [i]. *)
Definition advances {A} (strict : bool) (i : nat) (r : outcome (A * nat)) : Prop :=
  r <> Timeout
  /\ forall a j, r = Ret (a, j) -> if strict then i < j else i <= j.

(** The connections of an instance, in the order of the ports: clock,
    reset, every parameter port with the actual argument at its position
    (stripped), or [0] when there is none, and the result port when the
    function has a return type. *)
Definition connections (params : list Variable_) (has_result : bool)
    (instance_name args : string) : list (string * string) :=
  let arg_list := match args with EmptyString => [] | _ => Py.split "," args end in
  [("clk", "clk"); ("rst", "rst")]
  ++ map (fun '(i, param) =>
            (var_name param,
             match nth_error arg_list i with
             | Some a => Py.strip a
             | None => "0"
             end))
         (combine (seq 0 (List.length params)) params)
  ++ (if has_result then [("result", (instance_name ++ "_result")%string)] else []).

Definition connection_text (c : string * string) : string :=
  "        ." ++ fst c ++ "(" ++ snd c ++ ")".

(** A comma after every line but the last. *)
Fixpoint comma_separated (l : list string) : list string :=
  match l with
  | [] => []
  | [x] => [x]
  | x :: r => (x ++ ",")%string :: comma_separated r
  end.

(** The instantiation block as the specification describes it. *)
Definition instance_block (func_name : string) (params : list Variable_)
    (has_result : bool) (instance_name args : string) : list string :=
  [("    // Sequential function instance: " ++ instance_name)%string;
   ("    " ++ func_name ++ " " ++ instance_name ++ " (")%string]
  ++ comma_separated
       (map connection_text (connections params has_result instance_name args))
  ++ ["    );"; EmptyString].

(** *** The text of the generators *)

(** The block of a pending record of the rule pipeline; the function of
    the record is looked up among the objects of [self]. *)
Definition rule_block (self : Main.PseudoCToVerilog)
    (record : Main.ref * string * string) : list string :=
  let '(func, instance_name, args) := record in
  let f := Main.deref self func in
  instance_block (Main.name f) (Main.parameters f)
    (match Main.return_type f with Some _ => true | None => false end)
    instance_name args.

(** The block of a pending record of the token pipeline. *)
Definition token_block
    (record : AdHocRegex.Function * string * string) : list string :=
  let '(f, instance_name, args) := record in
  instance_block (AdHocRegex.name f) (AdHocRegex.parameters f)
    (match AdHocRegex.return_type f with Some _ => true | None => false end)
    instance_name args.

(** The module [main] of the rule pipeline, given the lines of its
    registers and of its main logic. *)
Definition rule_main_lines (registers : list string)
    (variables : Py.dict Variable_) (logic : list string) : list string :=
  ["module main("; "    input clk,"; "    input rst"; ");"; EmptyString]
  ++ registers
  ++ [EmptyString; "    always @(posedge clk or posedge rst) begin";
      "        if (rst) begin"]
  ++ map (fun '(var_name, _) => ("            " ++ var_name ++ " <= 0;")%string)
         variables
  ++ ["        end else begin"]
  ++ logic ++ ["        end"; "    end"; EmptyString].

(** *** The grammar of a function header, as token shapes *)

Module Header.

Import AdHocRegex.

(** A shape is a token without its position: its type and its value. *)





(** A written parameter is its type and, unless it is missing, its
    name. *)









End Header.

(** *** Type strings that do not parse *)

(** The text before the first [::] and the text after it, up to the next
    [::]. *)
Definition type_part (type_str : string) : string :=
  hd EmptyString (Py.split2 ":" ":" type_str).

Definition sync_token (type_str : string) : option string :=
  nth_error (Py.split2 ":" ":" type_str) 1.

(** The [::] suffix is there and is not one of the two literals. *)
Definition bad_sync_mode (type_str : string) : Prop :=
  exists literal,
    sync_token type_str = Some literal
    /\ literal <> "concurrent" /\ literal <> "sequential".

(** There is a [.] and what follows it is not one text that [int]
    accepts. *)
Definition bad_width (type_str : string) : Prop :=
  Py.char_in "." (type_part type_str) = true
  /\ forall base w,
       Py.split "." (type_part type_str) = [base; w] ->
       exists e, Py.int w = inr e.

(** Some [TYPE] token of [tokens] does not parse, with error [e]. *)
Definition type_error (tokens : list AdHocRegex.Token) (e : ValueError) : Prop :=
  exists t,
    In t tokens /\ AdHocRegex.type t = AdHocRegex.TYPE
    /\ TypeInfo_parse (AdHocRegex.value t) = inr e.

(** *** What makes the token pipeline raise *)

(** The error of [TypeInfo.parse] on the text of [t], when [t] is a
    [TYPE] token that it refuses. *)
Definition refusal (t : AdHocRegex.Token) : option ValueError :=
  if AdHocRegex.TokenType_eqb (AdHocRegex.type t) AdHocRegex.TYPE
  then match TypeInfo_parse (AdHocRegex.value t) with
       | inl _ => None
       | inr e => Some e
       end
  else None.

Definition refusal_at (tokens : list AdHocRegex.Token) (i : nat)
  : option ValueError :=
  match nth_error tokens i with
  | Some t => refusal t
  | None => None
  end.

(** The error of the first token of [l] that is refused. *)
Fixpoint first_refusal (l : list AdHocRegex.Token) : option ValueError :=
  match l with
  | [] => None
  | t :: rest =>
      match refusal t with
      | Some e => Some e
      | None => first_refusal rest
      end
  end.

(** The place of the name in the header whose keyword is at [i]: after
    the keyword and the return type, when there is one. *)
Definition name_position (tokens : list AdHocRegex.Token) (i : nat) : nat :=
  if AdHocRegex.type_at tokens (i + 1) AdHocRegex.TYPE then i + 2 else i + 1.

(** The tokens of a parameter list from [start] on: up to the first
    closing parenthesis. *)
Definition parameter_span (tokens : list AdHocRegex.Token) (start : nat)
  : list AdHocRegex.Token :=
  AdHocRegex.take_while
    (fun t => negb (AdHocRegex.TokenType_eqb (AdHocRegex.type t)
                                             AdHocRegex.DELIMITER
                    && String.eqb (AdHocRegex.value t) ")"))
    (skipn start tokens).

(** What is wrong with the header whose keyword is at [i]: a return type
    that is refused, else no identifier where the name should be, else
    the first type of the parameter list that is refused. *)
Definition header_error (tokens : list AdHocRegex.Token) (i : nat)
  : option ValueError :=
  match refusal_at tokens (i + 1) with
  | Some e => Some e
  | None =>
      if AdHocRegex.type_at tokens (name_position tokens i)
                            AdHocRegex.IDENTIFIER
      then if AdHocRegex.is_at tokens (name_position tokens i + 1)
                               AdHocRegex.DELIMITER "("
           then first_refusal
                  (parameter_span tokens (name_position tokens i + 2))
           else None
      else Some ExpectedFunctionName
  end.

(** What is wrong with what the builder reads at [i]: a declaration
    [TYPE IDENTIFIER] whose type is refused, or the keyword [function]
    of a header with an error. *)
Definition step_error (tokens : list AdHocRegex.Token) (i : nat)
  : option ValueError :=
  if AdHocRegex.type_at tokens i AdHocRegex.TYPE
     && AdHocRegex.type_at tokens (i + 1) AdHocRegex.IDENTIFIER
  then refusal_at tokens i
  else if AdHocRegex.is_at tokens i AdHocRegex.KEYWORD "function"
       then header_error tokens i
       else None.

(** The cursor of the builder: [reaches tokens i k] when the [while]
    loop of [build_ast], at [i], comes to [k] by iterations that
    return. *)
Inductive reaches (tokens : list AdHocRegex.Token) : nat -> nat -> Prop :=
| reaches_here i : reaches tokens i i
| reaches_next i j k ast ctx ast' ctx' :
    i < List.length tokens ->
    AdHocRegex.build_step tokens i ast ctx = (Ret (j, ast'), ctx') ->
    reaches tokens j k ->
    reaches tokens i k.

(** The positions at which an iteration of the loop starts. *)
Definition visited (tokens : list AdHocRegex.Token) (k : nat) : Prop :=
  reaches tokens 0 k.

(** The width of [t] less one has more digits than [str] writes. *)
Definition unformattable (t : TypeInfo) : bool :=
  match Py.str (width t - 1) with
  | Some _ => false
  | None => true
  end.

(** Some register of [main] or some port of a function module has such a
    type. *)
Definition unformattable_ast (ast : AdHocRegex.AST) : bool :=
  existsb (fun '(_, var) => unformattable (type_info var))
          (AdHocRegex.ast_variables ast)
  || existsb (fun '(_, func) =>
                existsb (fun param => unformattable (type_info param))
                        (AdHocRegex.parameters func)
                || match AdHocRegex.return_type func with
                   | Some t => unformattable t
                   | None => false
                   end)
             (AdHocRegex.ast_functions ast).

(** [n] times the character [c]. *)
Fixpoint times (n : nat) (c : ascii) : string :=
  match n with
  | O => EmptyString
  | S m => String c (times m c)
  end.

(** *** Tokens *)

(** What the text of a token of each type looks like. *)
Definition well_classified (t : AdHocRegex.Token) : Prop :=
  let v := AdHocRegex.value t in
  match AdHocRegex.type t with
  | AdHocRegex.TYPE =>
      all_chars (fun c => negb (Py.isspace c) && negb (Py.char_in c ";,(){}")) v
      = true
      /\ exists prefix,
           In prefix ["int"; "signed"; "unsigned"]
           /\ Py.startswith v prefix = true
  | AdHocRegex.KEYWORD =>
      In v ["function"; "if"; "else"; "for"; "while"; "return"]
  | AdHocRegex.IDENTIFIER =>
      all_chars (fun c => Py.isalnum c || Ascii.eqb c "_") v = true
      /\ exists c r, v = String c r /\ Py.isdigit c = false
  | AdHocRegex.OPERATOR =>
      (exists c, v = String c EmptyString /\ Py.char_in c "=+-*/&|^<>" = true)
      \/ In v ["<="; ">="; "=="]
  | AdHocRegex.DELIMITER =>
      exists c, v = String c EmptyString /\ Py.char_in c "{}();," = true
  | AdHocRegex.NUMBER =>
      all_chars Py.isdigit v = true /\ v <> EmptyString
  end.

(** The token lies in line [l], numbered [idx], at its column. *)
Definition sits_in (l : string) (idx : nat) (t : AdHocRegex.Token) : Prop :=
  AdHocRegex.line t = idx
  /\ Py.take (String.length (AdHocRegex.value t))
             (Py.drop (AdHocRegex.column t) l)
     = AdHocRegex.value t
  /\ AdHocRegex.value t <> EmptyString.

(** The token texts that [_tokens_to_expression] keeps, in order. *)
Definition expression_parts (tokens : list AdHocRegex.Token) : list string :=
  flat_map (fun t =>
     match AdHocRegex.type t with
     | AdHocRegex.IDENTIFIER | AdHocRegex.OPERATOR | AdHocRegex.NUMBER =>
         [AdHocRegex.value t]
     | AdHocRegex.DELIMITER =>
         if Py.contains (AdHocRegex.value t) "()" then [AdHocRegex.value t]
         else []
     | _ => []
     end) tokens.

(** *** The state of a converter *)

(** [b] has the rules and the call counter of [a], and the pending
    records of [a] followed by more. *)
Definition grows (a b : Main.PseudoCToVerilog) : Prop :=
  Main.rules b = Main.rules a
  /\ Main.call_counter b = Main.call_counter a
  /\ exists added,
       Main.sequential_calls b = Main.sequential_calls a ++ added.

(** The test of [parse_and_convert] for the start of a function body at
    line [i]: the line holds a brace, is not the first, and the line
    before holds the word [function]. *)
Definition opens_block (lines : list string) (i : nat) : bool :=
  Py.contains "{" (Py.strip (nth i lines EmptyString)) && (0 <? i)
  && Py.contains "function" (Py.strip (nth (i - 1) lines EmptyString)).

(** Every declared function is filed under its own name, is concurrent by
    default and has no sequential parameter. *)
Definition all_concurrent (self : Main.PseudoCToVerilog) : Prop :=
  forall fname func,
    Py.dict_get (Main.functions self) fname = Some func ->
    Main.name (Main.deref self func) = fname
    /\ Main.default_sync_mode (Main.deref self func) = CONCURRENT
    /\ forall p, In p (Main.parameters (Main.deref self func)) ->
                 sync_mode (type_info p) <> Some SEQUENTIAL.

(** The test of the main logic of [_generate_verilog] on a processed
    line: not empty, and not starting with [int], [signed] or
    [function]. *)
Definition kept_in_main (line : string) : bool :=
  Main.nonempty line
  && negb (existsb (Py.startswith line) ["int"; "signed"; "function"]).

(** The indentation of the main logic. *)
Definition indented (line : string) : string :=
  ("            " ++ line)%string.

(** The groups of a match, none when there is no match. *)
Definition matched_groups (m : option (Re.groups * nat)) : Re.groups :=
  match m with Some (g, _) => g | None => Re.no_groups end.

(** [line] is out of the reach of the assignment rule of [rs]. *)
Definition inert (rs : list Main.ConversionRule) (line : string) : Prop :=
  In Main.AssignmentRule rs ->
  Re.re_match (Main.pattern Main.AssignmentRule) line = None.

(** [(\w+)\((.*?)\)\s*\{], the end of the pattern of function headers. *)
Definition header_name_onwards : Re.regex :=
  Re.Cat (Re.Group 3 (Re.Plus Re.word))
 (Re.Cat (Re.Chr "(")
 (Re.Cat (Re.Group 4 (Re.LazyStar Re.dot))
 (Re.Cat (Re.Chr ")")
 (Re.Cat (Re.Star Re.space) (Re.Chr "{"))))).

(** A character of a parameter text: no line break, no closing
    parenthesis. *)
Definition parameter_char (d : ascii) : bool :=
  Re.dot d && negb (Ascii.eqb d ")").

(** What [FunctionDeclarationRule.convert] makes of the text between
    the parentheses of a header. *)
Definition header_parameters (params_str : string)
  : list Variable_ + ValueError :=
  match Py.strip params_str with
  | EmptyString => inl []
  | _ => Main.convert_parameters (Py.split "," params_str) []
  end.

(** [b] holds the [Function] objects of [a], unchanged, followed by
    objects without statements. *)
Definition adds_bodiless (a b : Main.PseudoCToVerilog) : Prop :=
  exists added,
    Main.heap b = (Main.heap a ++ added)%list
    /\ Forall (fun f => Main.statements f = []) added.

(** A type text without mode: a base, and a width after a dot when
    [digits] is not empty. *)
Definition type_text (base digits : string) : string :=
  match digits with
  | EmptyString => base
  | _ => (base ++ "." ++ digits)%string
  end.

(** * Properties *)

(** ** Strings *)

Section StringFacts.

Lemma all_chars_app p a b :
  all_chars p (a ++ b) = all_chars p a && all_chars p b.
Proof.
  induction a as [|c a IH]; simpl; [reflexivity|].
  now rewrite IH, andb_assoc.
Qed.

Lemma all_chars_weaken (p q : ascii -> bool) s :
  (forall c, p c = true -> q c = true) ->
  all_chars p s = true -> all_chars q s = true.
Proof.
  intros Hpq; induction s as [|c s IH]; simpl; [reflexivity|].
  intros H; apply andb_true_iff in H as [H1 H2].
  now rewrite (Hpq _ H1), IH.
Qed.

Lemma append_assoc (a b c : string) : ((a ++ b) ++ c = a ++ (b ++ c))%string.
Proof. induction a; simpl; congruence. Qed.

Lemma rev_onto_app s acc : Py.rev_onto s acc = (Py.rev s ++ acc)%string.
Proof.
  unfold Py.rev; revert acc.
  induction s as [|c s IH]; intros acc; simpl; [reflexivity|].
  rewrite IH, (IH (String c EmptyString)).
  now rewrite append_assoc.
Qed.

Lemma rev_cons c s : Py.rev (String c s) = (Py.rev s ++ String c EmptyString)%string.
Proof. unfold Py.rev at 1; simpl; apply rev_onto_app. Qed.

Lemma append_empty_r s : (s ++ EmptyString)%string = s.
Proof. induction s; simpl; congruence. Qed.

Lemma rev_app a b : Py.rev (a ++ b) = (Py.rev b ++ Py.rev a)%string.
Proof.
  induction a as [|c a IH]; simpl.
  - now rewrite append_empty_r.
  - now rewrite !rev_cons, IH, append_assoc.
Qed.

Lemma rev_involutive s : Py.rev (Py.rev s) = s.
Proof.
  induction s as [|c s IH]; [reflexivity|].
  now rewrite rev_cons, rev_app, IH.
Qed.

Lemma all_chars_rev p s : all_chars p (Py.rev s) = all_chars p s.
Proof.
  induction s as [|c s IH]; [reflexivity|].
  rewrite rev_cons, all_chars_app, IH; simpl.
  now rewrite andb_true_r, andb_comm.
Qed.

Lemma lstrip_by_none p s :
  all_chars (fun c => negb (p c)) s = true -> Py.lstrip_by p s = s.
Proof.
  destruct s as [|c s]; simpl; [reflexivity|].
  intros H; apply andb_true_iff in H as [H _].
  now destruct (p c).
Qed.

(** A text without space characters is left alone by [strip]. *)
Lemma strip_none s :
  all_chars (fun c => negb (Py.isspace c)) s = true -> Py.strip s = s.
Proof.
  intros H; unfold Py.strip, Py.rstrip_by.
  rewrite (lstrip_by_none _ s H), lstrip_by_none, rev_involutive; [reflexivity|].
  now rewrite all_chars_rev.
Qed.

Lemma char_in_lacks c s : Py.char_in c s = negb (lacks c s).
Proof.
  unfold lacks; induction s as [|d s IH]; simpl; [reflexivity|].
  rewrite IH, (Ascii.eqb_sym c d).
  now destruct (Ascii.eqb d c), (all_chars _ s).
Qed.

Lemma split_lacks sep s : lacks sep s = true -> Py.split sep s = [s].
Proof.
  unfold lacks; induction s as [|c s IH]; simpl; [reflexivity|].
  intros H; apply andb_true_iff in H as [H1 H2].
  apply negb_true_iff in H1; rewrite H1, (IH H2); reflexivity.
Qed.

Lemma split_app sep a b :
  lacks sep a = true ->
  Py.split sep (a ++ String sep b) = a :: Py.split sep b.
Proof.
  unfold lacks; induction a as [|c a IH]; simpl.
  - now rewrite Ascii.eqb_refl.
  - intros H; apply andb_true_iff in H as [H1 H2].
    apply negb_true_iff in H1; rewrite H1, (IH H2); reflexivity.
Qed.

Lemma split2_lacks a b s : lacks a s = true -> Py.split2 a b s = [s].
Proof.
  unfold lacks; induction s as [|c s IH]; [reflexivity|].
  intros H; simpl in H; apply andb_true_iff in H as [H1 H2].
  apply negb_true_iff in H1.
  cbn [Py.split2]; rewrite (IH H2), H1; simpl.
  now destruct s.
Qed.

Lemma split2_app a b x y :
  lacks a x = true ->
  Py.split2 a b (x ++ String a (String b y)) = x :: Py.split2 a b y.
Proof.
  unfold lacks; induction x as [|c x IH]; intros H.
  - cbn [String.append Py.split2]. now rewrite !Ascii.eqb_refl.
  - simpl in H; apply andb_true_iff in H as [H1 H2].
    apply negb_true_iff in H1.
    cbn [String.append Py.split2]; rewrite (IH H2), H1; simpl.
    now destruct (x ++ String a (String b y))%string.
Qed.

Lemma digits_onto d :
  forall acc,
    Py.int_digits (NilEmpty.string_of_uint d) (Z.pos acc) true
    = Some (Z.pos (Pos.of_uint_acc d acc)).
Proof.
  induction d as [|d IH|d IH|d IH|d IH|d IH|d IH|d IH|d IH|d IH|d IH];
    intros acc; [reflexivity|..];
    cbn [NilEmpty.string_of_uint Py.int_digits Pos.of_uint_acc];
    match goal with
    | |- context [Py.isdigit ?c] =>
        change (Py.isdigit c) with true; cbv iota;
        rewrite <- IH; f_equal; unfold Py.digit_val, Py.code
    end;
    match goal with
    | |- context [nat_of_ascii ?c - 48] =>
        let v := eval vm_compute in (nat_of_ascii c - 48) in
        change (nat_of_ascii c - 48) with v; lia
    end.
Qed.

Lemma digits_of_uint d prev :
  d <> Nil \/ prev = true ->
  Py.int_digits (NilEmpty.string_of_uint d) 0 prev
  = Some (Z.of_N (Pos.of_uint d)).
Proof.
  revert prev.
  induction d as [|d IH|d IH|d IH|d IH|d IH|d IH|d IH|d IH|d IH|d IH];
    intros prev H;
    [ destruct H as [H|H]; [congruence | subst; reflexivity]
    | cbn [NilEmpty.string_of_uint Py.int_digits Pos.of_uint];
      change (Py.isdigit "0") with true; cbv iota;
      change (0 * 10 + Py.digit_val "0")%Z with 0%Z;
      apply IH; now right
    | cbn [NilEmpty.string_of_uint Py.int_digits Pos.of_uint];
      match goal with
      | |- context [Py.isdigit ?c] =>
          change (Py.isdigit c) with true; cbv iota;
          let v := eval vm_compute in (0 * 10 + Py.digit_val c)%Z in
          change (0 * 10 + Py.digit_val c)%Z with v
      end;
      apply digits_onto .. ].
Qed.

Lemma uint_digits d : all_chars Py.isdigit (NilEmpty.string_of_uint d) = true.
Proof. induction d; simpl; auto. Qed.

Lemma to_uint_not_nil n : N.to_uint n <> Nil.
Proof.
  destruct n as [|p]; [discriminate|].
  apply DecimalPos.Unsigned.to_uint_nonnil.
Qed.

Lemma str_of_N_unfold n :
  Py.str_of_N n = NilEmpty.string_of_uint (N.to_uint n).
Proof.
  unfold Py.str_of_N, NilZero.string_of_uint.
  pose proof (to_uint_not_nil n).
  now destruct (N.to_uint n).
Qed.

Lemma str_of_N_digits n : all_chars Py.isdigit (Py.str_of_N n) = true.
Proof. rewrite str_of_N_unfold; apply uint_digits. Qed.

Lemma int_digits_str_of_N n :
  Py.int_digits (Py.str_of_N n) 0 false = Some (Z.of_N n).
Proof.
  rewrite str_of_N_unfold.
  rewrite (digits_of_uint _ false) by (left; apply to_uint_not_nil).
  do 2 f_equal; apply DecimalN.Unsigned.of_to.
Qed.

Lemma digit_not_space c : Py.isdigit c = true -> negb (Py.isspace c) = true.
Proof.
  destruct c as [[] [] [] [] [] [] [] []]; intros H; vm_compute in H |- *;
    congruence.
Qed.

Lemma digit_run_digits ds :
  all_chars Py.isdigit ds = true -> Py.digit_run ds = (ds, EmptyString).
Proof.
  induction ds as [|c ds IH]; cbn [all_chars Py.digit_run]; [reflexivity|].
  intros H; apply andb_true_iff in H as [Hc Hds].
  now rewrite Hc, (IH Hds).
Qed.

Lemma count_digits_all ds :
  all_chars Py.isdigit ds = true -> Py.count_digits ds = String.length ds.
Proof.
  induction ds as [|c ds IH]; cbn [all_chars Py.count_digits String.length];
    [reflexivity|].
  intros H; apply andb_true_iff in H as [Hc Hds].
  now rewrite Hc, (IH Hds).
Qed.

(** A text made of digits is read by [int] when it is within the limit,
    and refused with its length when it is not. *)
Lemma int_unsigned_digits ds n :
  all_chars Py.isdigit ds = true ->
  Py.int_digits ds 0 false = Some n ->
  Py.int_unsigned ds
  = if Py.int_max_str_digits <? String.length ds
    then inr (Py.exceeds_digit_limit (String.length ds))
    else inl n.
Proof.
  intros Hds Hn; unfold Py.int_unsigned.
  rewrite (digit_run_digits _ Hds), Hn, (count_digits_all _ Hds).
  now destruct (_ <? _).
Qed.

Lemma int_digits_head ds :
  all_chars Py.isdigit ds = true ->
  Py.lstrip_by Py.int_space ds = ds
  /\ match ds with
     | String "-" _ | String "+" _ => False
     | _ => True
     end.
Proof.
  destruct ds as [|c ds]; [now split|].
  cbn [all_chars]; intros H; apply andb_true_iff in H as [Hc _].
  destruct c as [[] [] [] [] [] [] [] []]; vm_compute in Hc;
    try discriminate Hc; now split.
Qed.

Lemma int_digits_text ds :
  all_chars Py.isdigit ds = true -> Py.int ds = Py.int_unsigned ds.
Proof.
  intros Hds; unfold Py.int.
  destruct (int_digits_head _ Hds) as [-> H].
  destruct ds as [|c ds]; [reflexivity|].
  destruct c as [[] [] [] [] [] [] [] []]; try reflexivity; contradiction.
Qed.

(** [int(str(z)) == z] for the [z] that [str] writes. *)
Lemma int_str_of_Z z written : Py.str z = Some written -> Py.int written = inl z.
Proof.
  unfold Py.str; destruct (_ <=? _) eqn:Hlen; [|discriminate].
  intros [= <-]; apply Nat.leb_le in Hlen; unfold Py.str_of_Z.
  destruct (z <? 0)%Z eqn:Hz.
  - apply Z.ltb_lt in Hz.
    unfold Py.int; cbn [Py.lstrip_by].
    change (Py.int_space "-") with false; cbv iota.
    rewrite (int_unsigned_digits _ _ (str_of_N_digits _)
               (int_digits_str_of_N _)).
    apply Nat.ltb_ge in Hlen; rewrite Hlen. f_equal; lia.
  - apply Z.ltb_ge in Hz.
    rewrite (int_digits_text _ (str_of_N_digits _)).
    rewrite (int_unsigned_digits _ _ (str_of_N_digits _)
               (int_digits_str_of_N _)).
    apply Nat.ltb_ge in Hlen; rewrite Hlen. f_equal; lia.
Qed.

Lemma str_is_str_of_Z z written : Py.str z = Some written -> written = Py.str_of_Z z.
Proof. unfold Py.str; destruct (_ <=? _); congruence. Qed.

(** A text of digits is read by [int] as the decimal number it writes,
    unless it has more digits than the limit. *)
Lemma int_reads_decimals w d :
  NilEmpty.uint_of_string w = Some d -> d <> Nil ->
  Py.int w
  = if Py.int_max_str_digits <? String.length w
    then inr (Py.exceeds_digit_limit (String.length w))
    else inl (Z.of_N (N.of_uint d)).
Proof.
  intros Hw Hd. apply NilEmpty.sus in Hw. subst w.
  rewrite (int_digits_text _ (uint_digits d)).
  apply int_unsigned_digits; [apply uint_digits|].
  apply digits_of_uint; now left.
Qed.

Lemma times_length n c : String.length (times n c) = n.
Proof. induction n; cbn [times String.length]; congruence. Qed.

Lemma times_lacks n c d : c <> d -> lacks d (times n c) = true.
Proof.
  intros H; unfold lacks; induction n as [|n IH]; cbn [times all_chars];
    [reflexivity|].
  rewrite IH, andb_true_r. apply negb_true_iff, Ascii.eqb_neq; congruence.
Qed.

Lemma uint_of_times n c :
  Py.isdigit c = true ->
  exists d, NilEmpty.uint_of_string (times n c) = Some d /\ (0 < n -> d <> Nil).
Proof.
  intros Hc; induction n as [|n (d & Hd & _)]; cbn [times].
  - exists Nil; split; [reflexivity|lia].
  - cbn [NilEmpty.uint_of_string]; rewrite Hd.
    destruct c as [[] [] [] [] [] [] [] []]; vm_compute in Hc;
      try discriminate Hc; cbn; eexists; (split; [reflexivity|discriminate]).
Qed.

(** More digits than the limit are refused, with their number. *)
Lemma int_refuses_long_texts n c :
  Py.isdigit c = true -> Py.int_max_str_digits < n ->
  Py.int (times n c) = inr (Py.exceeds_digit_limit n).
Proof.
  intros Hc Hn.
  destruct (uint_of_times n c Hc) as (d & Hd & Hnil).
  rewrite (int_reads_decimals _ d Hd)
    by (apply Hnil; unfold Py.int_max_str_digits in Hn; lia).
  rewrite times_length.
  apply Nat.ltb_lt in Hn; now rewrite Hn.
Qed.

Lemma str_of_Z_lacks c z :
  Py.isdigit c = false -> c <> "-"%char -> lacks c (Py.str_of_Z z) = true.
Proof.
  intros Hc Hm; unfold Py.str_of_Z.
  assert (forall n, lacks c (Py.str_of_N n) = true) as Hn.
  { intros n; eapply all_chars_weaken; [|apply str_of_N_digits].
    intros d Hd; apply negb_true_iff, Ascii.eqb_neq; congruence. }
  destruct (z <? 0)%Z; [|apply Hn].
  unfold lacks in *; cbn [all_chars]; rewrite (Hn _), andb_true_r.
  apply negb_true_iff, Ascii.eqb_neq; congruence.
Qed.

End StringFacts.

(** ** Type descriptors *)

Section TypeDescriptor.

Lemma lacks_app c a b : lacks c (a ++ b) = lacks c a && lacks c b.
Proof. apply all_chars_app. Qed.

Lemma SyncMode_of_value m : SyncMode_of (SyncMode_value m) = inl m.
Proof. now destruct m. Qed.

Lemma parse_unsuffixed (type_part : string) :
  lacks ":" type_part = true ->
  TypeInfo_parse type_part
  = if Py.char_in "." type_part then
      match Py.split "." type_part with
      | [base; w] =>
          match Py.int w with
          | inl n => inl (mkTypeInfo base n None)
          | inr Py.invalid_literal => inr (InvalidIntLiteral w)
          | inr (Py.exceeds_digit_limit digits) =>
              inr (IntExceedsDigitLimit digits)
          end
      | _ :: _ :: _ :: _ => inr TooManyValuesToUnpack
      | _ => inr NotEnoughValuesToUnpack
      end
    else inl (mkTypeInfo type_part 32 None).
Proof.
  intros H; unfold TypeInfo_parse; now rewrite (split2_lacks _ _ _ H).
Qed.

Lemma parse_suffixed (type_part : string) (m : SyncMode) :
  lacks ":" type_part = true ->
  TypeInfo_parse (type_part ++ "::" ++ SyncMode_value m)
  = if Py.char_in "." type_part then
      match Py.split "." type_part with
      | [base; w] =>
          match Py.int w with
          | inl n => inl (mkTypeInfo base n (Some m))
          | inr Py.invalid_literal => inr (InvalidIntLiteral w)
          | inr (Py.exceeds_digit_limit digits) =>
              inr (IntExceedsDigitLimit digits)
          end
      | _ :: _ :: _ :: _ => inr TooManyValuesToUnpack
      | _ => inr NotEnoughValuesToUnpack
      end
    else inl (mkTypeInfo type_part 32 (Some m)).
Proof.
  intros H; unfold TypeInfo_parse.
  change ("::" ++ SyncMode_value m)%string
    with (String ":" (String ":" (SyncMode_value m))).
  rewrite (split2_app _ _ _ _ H).
  assert (Py.split2 ":" ":" (SyncMode_value m) = [SyncMode_value m]) as ->
    by now destruct m.
  cbn [hd]; now rewrite SyncMode_of_value.
Qed.

(** With one dot and no mode, the text after the dot is given to [int]. *)
Lemma one_dot_parse (base w : string) :
  lacks "." base = true -> lacks ":" base = true ->
  lacks "." w = true -> lacks ":" w = true ->
  TypeInfo_parse (base ++ "." ++ w)
  = match Py.int w with
    | inl n => inl (mkTypeInfo base n None)
    | inr Py.invalid_literal => inr (InvalidIntLiteral w)
    | inr (Py.exceeds_digit_limit digits) => inr (IntExceedsDigitLimit digits)
    end.
Proof.
  intros Hbd Hbc Hwd Hwc.
  change ("." ++ w)%string with (String "." w).
  rewrite parse_unsuffixed.
  - assert (Py.char_in "." (base ++ String "." w) = true) as ->.
    { rewrite char_in_lacks, lacks_app; unfold lacks at 2; cbn [all_chars].
      now rewrite Ascii.eqb_refl, andb_false_r. }
    now rewrite (split_app _ _ _ Hbd), (split_lacks _ _ Hwd).
  - rewrite lacks_app, Hbc; unfold lacks; cbn [all_chars].
    fold (lacks ":" w); now rewrite Hwc.
Qed.

Lemma with_width_split base w :
  lacks "." base = true ->
  Py.char_in "." (base ++ "." ++ Py.str_of_Z w) = true
  /\ Py.split "." (base ++ "." ++ Py.str_of_Z w) = [base; Py.str_of_Z w].
Proof.
  intros Hb; split.
  - rewrite char_in_lacks, lacks_app; simpl.
    now rewrite andb_false_r.
  - change ("." ++ Py.str_of_Z w)%string with (String "." (Py.str_of_Z w)).
    rewrite (split_app _ _ _ Hb), split_lacks; [reflexivity|].
    now apply str_of_Z_lacks.
Qed.

Lemma with_width_lacks_colon base w :
  lacks ":" base = true -> lacks ":" (base ++ "." ++ Py.str_of_Z w) = true.
Proof.
  intros Hb; rewrite lacks_app, Hb; simpl.
  change ("." ++ Py.str_of_Z w)%string with (String "." (Py.str_of_Z w)).
  unfold lacks; cbn [all_chars]; fold (lacks ":" (Py.str_of_Z w)).
  now rewrite str_of_Z_lacks.
Qed.

(** C6. A type string written with a base free of [.] and [:], a width
    [w] as [str] writes it (a decimal text within the digit limit of the
    interpreter) and a mode literal parses back to exactly that width and
    that mode; without the width the parsed width is 32 and without the
    mode the parsed mode is [None]. *)
Theorem TypeInfo_parse_roundtrip
    (base : string) (w : Z) (written : string) (m : SyncMode) :
  lacks "." base = true ->
  lacks ":" base = true ->
  Py.str w = Some written ->
  TypeInfo_parse (base ++ "." ++ written ++ "::" ++ SyncMode_value m)
    = inl (mkTypeInfo base w (Some m))
  /\ TypeInfo_parse (base ++ "." ++ written)
    = inl (mkTypeInfo base w None)
  /\ TypeInfo_parse (base ++ "::" ++ SyncMode_value m)
    = inl (mkTypeInfo base 32 (Some m))
  /\ TypeInfo_parse base = inl (mkTypeInfo base 32 None).
Proof.
  intros Hdot Hcolon Hw.
  pose proof (int_str_of_Z _ _ Hw) as Hint.
  apply str_is_str_of_Z in Hw; subst written.
  destruct (with_width_split base w Hdot) as [Hin Hsplit].
  pose proof (with_width_lacks_colon base w Hcolon) as Hc.
  repeat split.
  - replace (base ++ "." ++ Py.str_of_Z w ++ "::" ++ SyncMode_value m)%string
      with ((base ++ "." ++ Py.str_of_Z w) ++ "::" ++ SyncMode_value m)%string
      by (now rewrite !append_assoc).
    now rewrite (parse_suffixed _ _ Hc), Hin, Hsplit, Hint.
  - now rewrite (parse_unsuffixed _ Hc), Hin, Hsplit, Hint.
  - rewrite (parse_suffixed _ _ Hcolon), char_in_lacks, Hdot; reflexivity.
  - rewrite (parse_unsuffixed _ Hcolon), char_in_lacks, Hdot; reflexivity.
Qed.

Lemma TypeInfo_parse_roundtrip_witness :
  TypeInfo_parse "int.8::sequential" = inl (mkTypeInfo "int" 8 (Some SEQUENTIAL))
  /\ TypeInfo_parse "int.8" = inl (mkTypeInfo "int" 8 None)
  /\ TypeInfo_parse "int::sequential" = inl (mkTypeInfo "int" 32 (Some SEQUENTIAL))
  /\ TypeInfo_parse "int" = inl (mkTypeInfo "int" 32 None).
Proof.
  exact (TypeInfo_parse_roundtrip "int" 8 "8" SEQUENTIAL eq_refl eq_refl eq_refl).
Defined.

End TypeDescriptor.

(** ** Call resolution *)

Section CallResolver.

Import Main.

Lemma Variable_eqb_refl v : Variable_eqb v v = true.
Proof.
  unfold Variable_eqb.
  rewrite !String.eqb_refl, Z.eqb_refl; simpl.
  destruct (sync_mode (type_info v)) as [[]|]; reflexivity.
Qed.

Lemma Variable_eqb_sequential a b :
  Variable_eqb a b = true -> is_sequential a = is_sequential b.
Proof.
  unfold Variable_eqb, is_sequential; intros H.
  apply andb_true_iff in H as [_ H].
  destruct (sync_mode (type_info a)) as [[]|],
           (sync_mode (type_info b)) as [[]|]; simpl in H; congruence.
Qed.

(** [xs.index(x)] is the position of an element equal to [x]. *)
Lemma index_found x xs :
  In x xs ->
  exists y, nth_error xs (index x xs) = Some y /\ Variable_eqb y x = true.
Proof.
  induction xs as [|y r IH]; simpl; [tauto|].
  intros Hin; destruct (Variable_eqb y x) eqn:E.
  - exists y; auto.
  - destruct Hin as [->|Hin]; [now rewrite Variable_eqb_refl in E|].
    exact (IH Hin).
Qed.

(** The source's test agrees with the positional reading: some parameter
    at a position below the number of arguments is declared sequential. *)
Lemma has_sequential_positional params n :
  existsb is_sequential (filter (fun p => index p params <? n) params) = false
  <-> (forall i p, i < n -> nth_error params i = Some p ->
                   sync_mode (type_info p) <> Some SEQUENTIAL).
Proof.
  split.
  - intros H i p Hi Hp Hseq.
    assert (In p params) as Hin by (eapply nth_error_In; eauto).
    (* the first element equal to [p] sits at or before [i] *)
    assert (index p params <= i) as Hle.
    { clear -Hp. revert i Hp; induction params as [|y r IH]; intros [|i] Hp;
        simpl in *; try discriminate.
      - injection Hp as ->; now rewrite Variable_eqb_refl.
      - destruct (Variable_eqb y p); [lia|]. specialize (IH _ Hp); lia. }
    assert (existsb is_sequential
              (filter (fun q => index q params <? n) params) = true) as Ht.
    { apply existsb_exists; exists p; split.
      - apply filter_In; split; [exact Hin|]. apply Nat.ltb_lt; lia.
      - unfold is_sequential; now rewrite Hseq. }
    congruence.
  - intros H.
    destruct (existsb _ _) eqn:E; [|reflexivity].
    apply existsb_exists in E as (p & Hin & Hseq).
    apply filter_In in Hin as [Hin Hlt]; apply Nat.ltb_lt in Hlt.
    destruct (index_found p params Hin) as (y & Hy & Heq).
    exfalso; apply (H _ _ Hlt Hy).
    apply Variable_eqb_sequential in Heq; unfold is_sequential in Heq, Hseq.
    destruct (sync_mode (type_info y)) as [[]|],
             (sync_mode (type_info p)) as [[]|]; congruence.
Qed.

(** C7. A call whose effective mode is concurrent (no parameter position
    below the number of actual arguments is declared sequential, and the
    function's default mode is concurrent) is returned as the unchanged
    text [name(args)], and the converter, with its pending instances and
    its call counter, is left as it was. *)
Theorem concurrent_call_is_untouched
    (self : PseudoCToVerilog) (func : ref) (args : string) :
  (forall i p, i < arg_count args ->
               nth_error (parameters (deref self func)) i = Some p ->
               sync_mode (type_info p) <> Some SEQUENTIAL) ->
  default_sync_mode (deref self func) = CONCURRENT ->
  _generate_function_call func args self
  = ((name (deref self func) ++ "(" ++ args ++ ")")%string, self)
  /\ sequential_calls (snd (_generate_function_call func args self))
     = sequential_calls self
  /\ call_counter (snd (_generate_function_call func args self))
     = call_counter self.
Proof.
  intros Hpos Hdef.
  assert (_generate_function_call func args self
          = ((name (deref self func) ++ "(" ++ args ++ ")")%string, self)) as E.
  { unfold _generate_function_call.
    apply has_sequential_positional in Hpos.
    unfold arg_count in Hpos.
    replace (List.length match args with
                         | EmptyString => []
                         | String _ _ => Py.split "," args
                         end)
      with (match args with
            | EmptyString => 0
            | String _ _ => List.length (Py.split "," args)
            end) by now destruct args.
    now rewrite Hpos, Hdef. }
  now rewrite E.
Qed.

Lemma concurrent_call_is_untouched_witness :
  let self :=
    declare_function init
      (mkFunction "f" [mkVariable "x" (mkTypeInfo "int" 32 None)] None []
                  CONCURRENT) in
  _generate_function_call 0 "a" self = ("f(a)", self)
  /\ sequential_calls (snd (_generate_function_call 0 "a" self))
     = sequential_calls self
  /\ call_counter (snd (_generate_function_call 0 "a" self))
     = call_counter self.
Proof.
  intros self.
  apply (concurrent_call_is_untouched self 0 "a").
  - intros i p Hi Hp.
    destruct i as [|i]; [|simpl in Hi; lia].
    simpl in Hp; injection Hp as <-; discriminate.
  - reflexivity.
Defined.

End CallResolver.

(** ** Sequential calls *)

Section SequentialCalls.

Import Main.

(** Whatever the call, [_generate_function_call] leaves [call_counter]
    as it found it. *)
Lemma call_counter_is_never_incremented func args self :
  call_counter (snd (_generate_function_call func args self))
  = call_counter self.
Proof.
  unfold _generate_function_call.
  destruct (if existsb _ _ then _ else _); reflexivity.
Qed.

(** A sequential call does mint [name_inst_counter], append the record
    and return [name_inst_counter_result]. *)
Lemma sequential_call_record func args self :
  default_sync_mode (deref self func) = SEQUENTIAL ->
  let instance_name :=
    (name (deref self func) ++ "_inst_" ++ Py.str_of_Z (call_counter self))%string in
  _generate_function_call func args self
  = ((instance_name ++ "_result")%string,
     set_sequential_calls self
       (sequential_calls self ++ [(func, instance_name, args)])).
Proof.
  intros H; unfold _generate_function_call.
  rewrite H; now destruct (existsb _ _).
Qed.

(** C1. The counter that names sequential instances is read but never
    incremented: after the two lines below, the two pending records of
    [inc] carry the same instance name and the counter is still 0. *)
Theorem sequential_instances_share_their_name :
  (forall func args self,
      call_counter (snd (_generate_function_call func args self))
      = call_counter self)
  /\ let self :=
       snd (parse_and_convert 2
              ("function::sequential int.8 inc(int.8 x){ result = x + 1; }"
               ++ nl ++ "y = inc(a) + inc(b);") init) in
     map (fun '(_, instance_name, args) => (instance_name, args))
         (sequential_calls self)
     = [("inc_inst_0", "a"); ("inc_inst_0", "b")]
     /\ call_counter self = 0%Z.
Proof.
  split; [exact call_counter_is_never_incremented|].
  vm_compute; auto.
Qed.

End SequentialCalls.


(** ** Fuel of the rule pipeline *)

Section Fuel.

Import Main.



End Fuel.
(** ** The [inc] example *)

Section IncExample.

Import Main.



End IncExample.

(** ** The AST builder always finishes *)

Section BuilderProgress.

Import AdHocRegex.

Lemma collect_while_index p tokens i :
  i <= snd (collect_while p tokens i).
Proof. unfold collect_while; simpl; lia. Qed.

Lemma parse_parameters_progress fuel :
  forall tokens i ps,
    List.length tokens - i <= fuel ->
    parse_parameters fuel tokens i ps <> Timeout
    /\ forall j ps', parse_parameters fuel tokens i ps = Ret (j, ps') -> i <= j.
Proof.
  induction fuel as [|fuel IH]; intros tokens i ps Hfuel.
  - simpl. destruct (i <? List.length tokens) eqn:E.
    + apply Nat.ltb_lt in E; lia.
    + simpl; split; [discriminate|]. intros j ps' H; injection H as <- _; lia.
  - cbn [parse_parameters].
    destruct ((i <? List.length tokens) && _) eqn:E.
    2:{ split; [discriminate|]. intros j ps' H; injection H as <- _; lia. }
    apply andb_true_iff in E as [E _]; apply Nat.ltb_lt in E.
    destruct (type_at tokens i TYPE).
    + destruct (TypeInfo_parse _) as [pt|e].
      2:{ split; discriminate. }
      destruct (type_at tokens (i + 1) IDENTIFIER);
        match goal with
        | |- context [is_at tokens ?k DELIMITER ","] =>
            destruct (is_at tokens k DELIMITER ",")
        end;
        match goal with
        | |- context [parse_parameters fuel tokens ?k ?q] =>
            destruct (IH tokens k q ltac:(lia)) as [H1 H2];
            split; [exact H1 | intros j ps' H; specialize (H2 _ _ H); lia]
        end.
    + destruct (IH tokens (i + 1) ps ltac:(lia)) as [H1 H2].
      split; [exact H1 | intros j ps' H; specialize (H2 _ _ H); lia].
Qed.

Lemma parse_body_progress fuel :
  forall tokens i ss,
    List.length tokens - i <= fuel ->
    (exists j ss', parse_body fuel tokens i ss = Ret (j, ss') /\ i <= j).
Proof.
  induction fuel as [|fuel IH]; intros tokens i ss Hfuel.
  - simpl. destruct (i <? List.length tokens) eqn:E.
    + apply Nat.ltb_lt in E; lia.
    + simpl; eauto.
  - cbn [parse_body].
    destruct ((i <? List.length tokens) && _) eqn:E; [|eauto].
    apply andb_true_iff in E as [E _]; apply Nat.ltb_lt in E.
    destruct (type_at tokens i IDENTIFIER && is_at tokens (i + 1) OPERATOR "=").
    + destruct (collect_while _ tokens (i + 2)) as [expr_tokens k] eqn:Ek.
      pose proof (collect_while_index
                    (fun t => negb (TokenType_eqb (type t) DELIMITER
                                    && String.eqb (value t) ";"))
                    tokens (i + 2)) as Hk.
      rewrite Ek in Hk; simpl in Hk.
      destruct (IH tokens (k + 1) (ss ++ [assignment (value_at tokens i)
                  (_tokens_to_expression expr_tokens)]) ltac:(lia))
        as (j & ss' & H & Hj).
      exists j, ss'; split; [exact H|lia].
    + destruct (IH tokens (i + 1) ss ltac:(lia)) as (j & ss' & H & Hj).
      exists j, ss'; split; [exact H|lia].
Qed.

Lemma parse_sync_mode_advances tokens i :
  advances true i (parse_sync_mode tokens i).
Proof.
  unfold parse_sync_mode, advances.
  destruct (_ && _); [destruct (SyncMode_of _)|];
    (split; [discriminate|]); intros a j H; try discriminate;
    injection H as _ <-; lia.
Qed.

Lemma parse_return_type_advances tokens i :
  advances false i (parse_return_type tokens i).
Proof.
  unfold parse_return_type, advances.
  destruct (type_at _ _ _); [destruct (TypeInfo_parse _)|];
    (split; [discriminate|]); intros a j H; try discriminate;
    injection H as _ <-; lia.
Qed.

Lemma parse_name_advances tokens i : advances false i (parse_name tokens i).
Proof.
  unfold parse_name, advances.
  destruct (type_at _ _ _); (split; [discriminate|]); intros a j H;
    try discriminate; injection H as _ <-; lia.
Qed.

Lemma parse_parameter_list_advances tokens i :
  advances false i (parse_parameter_list tokens i).
Proof.
  unfold parse_parameter_list, advances.
  destruct (is_at _ _ _ _).
  - destruct (parse_parameters_progress (List.length tokens) tokens (i + 1) []
                ltac:(lia)) as [H1 H2].
    destruct (parse_parameters _ _ _ _) as [[k ps]| |]; simpl;
      [|split; discriminate|congruence].
    specialize (H2 _ _ eq_refl).
    split; [discriminate|]. intros a j H; injection H as _ <-; lia.
  - split; [discriminate|]. intros a j H; injection H as _ <-; lia.
Qed.

Lemma parse_function_body_advances tokens i :
  advances false i (parse_function_body tokens i).
Proof.
  unfold parse_function_body, advances.
  destruct (is_at _ _ _ _).
  - destruct (parse_body_progress (List.length tokens) tokens (i + 1) []
                ltac:(lia)) as (k & ss & -> & Hk); simpl.
    split; [discriminate|]. intros a j H; injection H as _ <-; lia.
  - split; [discriminate|]. intros a j H; injection H as _ <-; lia.
Qed.

(** [_parse_function] returns or raises, and a returned cursor is past
    the keyword. *)
Lemma _parse_function_progress tokens i :
  _parse_function tokens i <> Timeout
  /\ forall j f, _parse_function tokens i = Ret (j, f) -> i < j.
Proof.
  unfold _parse_function.
  destruct (parse_sync_mode_advances tokens i) as [T1 A1].
  destruct (parse_sync_mode tokens i) as [[m i1]| |]; simpl;
    [|split; discriminate|congruence].
  specialize (A1 _ _ eq_refl); simpl in A1.
  destruct (parse_return_type_advances tokens i1) as [T2 A2].
  destruct (parse_return_type tokens i1) as [[rt i2]| |]; simpl;
    [|split; discriminate|congruence].
  specialize (A2 _ _ eq_refl); simpl in A2.
  destruct (parse_name_advances tokens i2) as [T3 A3].
  destruct (parse_name tokens i2) as [[nm i3]| |]; simpl;
    [|split; discriminate|congruence].
  specialize (A3 _ _ eq_refl); simpl in A3.
  destruct (parse_parameter_list_advances tokens i3) as [T4 A4].
  destruct (parse_parameter_list tokens i3) as [[ps i4]| |]; simpl;
    [|split; discriminate|congruence].
  specialize (A4 _ _ eq_refl); simpl in A4.
  destruct (parse_function_body_advances tokens i4) as [T5 A5].
  destruct (parse_function_body tokens i4) as [[ss i5]| |]; simpl;
    [|split; discriminate|congruence].
  specialize (A5 _ _ eq_refl); simpl in A5.
  split; [discriminate|]. intros j f H; injection H as <- _; lia.
Qed.

Lemma build_step_progress tokens i ast ctx :
  fst (build_step tokens i ast ctx) <> Timeout
  /\ forall j ast', fst (build_step tokens i ast ctx) = Ret (j, ast') -> i < j.
Proof.
  unfold build_step.
  destruct (type_at tokens i TYPE && type_at tokens (i + 1) IDENTIFIER).
  { destruct (TypeInfo_parse _); simpl; (split; [discriminate|]);
      intros j a H; try discriminate; injection H as <- _; lia. }
  destruct (is_at tokens i KEYWORD "function").
  { destruct (_parse_function_progress tokens i) as [T A].
    destruct (_parse_function tokens i) as [[k f]| |]; simpl;
      [|split; discriminate|congruence].
    specialize (A _ _ eq_refl).
    split; [discriminate|]. intros j a H; injection H as <- _; lia. }
  destruct (type_at tokens i IDENTIFIER && is_at tokens (i + 1) OPERATOR "=").
  { destruct (collect_while _ tokens (i + 2)) as [expr_tokens k] eqn:Ek.
    pose proof (collect_while_index
                  (fun t => negb (TokenType_eqb (type t) DELIMITER))
                  tokens (i + 2)) as Hk.
    rewrite Ek in Hk; simpl in *.
    split; [discriminate|]. intros j a H; injection H as <- _; lia. }
  simpl; split; [discriminate|]. intros j a H; injection H as <- _; lia.
Qed.

Lemma build_loop_finishes fuel :
  forall tokens i ast ctx,
    List.length tokens - i <= fuel ->
    fst (build_loop fuel tokens i ast ctx) <> Timeout.
Proof.
  induction fuel as [|fuel IH]; intros tokens i ast ctx Hfuel; simpl.
  - destruct (i <? List.length tokens) eqn:E; [|discriminate].
    apply Nat.ltb_lt in E; lia.
  - destruct (i <? List.length tokens) eqn:E; [|discriminate].
    destruct (build_step_progress tokens i ast ctx) as [T A].
    destruct (build_step tokens i ast ctx) as [[[j ast']| |] ctx']; simpl in *;
      [|discriminate|congruence].
    specialize (A _ _ eq_refl). apply IH; lia.
Qed.

(** C9. The scan of the AST builder finishes on every token sequence:
    [build_ast] returns or raises, never runs out of steps; each
    iteration entered at cursor [i] that returns leaves the cursor
    strictly after [i]; and a token that starts none of the three
    productions moves the cursor by exactly one, changing nothing else. *)
Theorem build_ast_terminates (tokens : list Token) (ctx : Context) :
  fst (build_ast tokens ctx) <> Timeout
  /\ (forall i ast c,
        fst (build_step tokens i ast c) <> Timeout
        /\ (forall j ast',
               fst (build_step tokens i ast c) = Ret (j, ast') -> i < j))
  /\ (forall i ast c,
        type_at tokens i TYPE && type_at tokens (i + 1) IDENTIFIER = false ->
        is_at tokens i KEYWORD "function" = false ->
        type_at tokens i IDENTIFIER && is_at tokens (i + 1) OPERATOR "=" = false ->
        build_step tokens i ast c = (Ret (i + 1, ast), c)).
Proof.
  split; [|split].
  - apply build_loop_finishes; lia.
  - intros i ast c; apply build_step_progress.
  - intros i ast c H1 H2 H3; unfold build_step; now rewrite H1, H2, H3.
Qed.

Lemma build_ast_terminates_witness :
  let tokens := [mkToken DELIMITER ";" 0 0; mkToken IDENTIFIER "a" 0 1] in
  fst (build_ast tokens init) <> Timeout
  /\ build_step tokens 0 (mkAST [] [] []) init
     = (Ret (1, mkAST [] [] []), init).
Proof.
  intros tokens.
  destruct (build_ast_terminates tokens init) as (H1 & _ & H3).
  split; [exact H1|].
  apply (H3 0); reflexivity.
Defined.

End BuilderProgress.

(** ** The token pipeline keeps no record of calls *)

Section TokenPipeline.

Import AdHocRegex.

(** The builder writes [variables] and [functions] only. *)
Lemma build_step_frame tokens i ast ctx :
  sequential_calls (snd (build_step tokens i ast ctx)) = sequential_calls ctx
  /\ call_counter (snd (build_step tokens i ast ctx)) = call_counter ctx
  /\ in_always_block (snd (build_step tokens i ast ctx)) = in_always_block ctx.
Proof.
  unfold build_step.
  destruct (type_at tokens i TYPE && type_at tokens (i + 1) IDENTIFIER).
  { destruct (TypeInfo_parse _); simpl; auto. }
  destruct (is_at tokens i KEYWORD "function").
  { destruct (_parse_function tokens i) as [[k f]| |]; simpl; auto. }
  destruct (type_at tokens i IDENTIFIER && is_at tokens (i + 1) OPERATOR "=").
  { destruct (collect_while _ tokens (i + 2)); simpl; auto. }
  simpl; auto.
Qed.

(** What the builder returns does not depend on the context it runs in. *)
Lemma build_step_result tokens i ast ctx ctx' :
  fst (build_step tokens i ast ctx) = fst (build_step tokens i ast ctx').
Proof.
  unfold build_step.
  destruct (type_at tokens i TYPE && type_at tokens (i + 1) IDENTIFIER).
  { destruct (TypeInfo_parse _); reflexivity. }
  destruct (is_at tokens i KEYWORD "function").
  { destruct (_parse_function tokens i) as [[k f]| |]; reflexivity. }
  destruct (type_at tokens i IDENTIFIER && is_at tokens (i + 1) OPERATOR "=").
  { destruct (collect_while _ tokens (i + 2)); reflexivity. }
  reflexivity.
Qed.

Lemma build_loop_frame fuel :
  forall tokens i ast ctx,
    sequential_calls (snd (build_loop fuel tokens i ast ctx)) = sequential_calls ctx
    /\ call_counter (snd (build_loop fuel tokens i ast ctx)) = call_counter ctx
    /\ in_always_block (snd (build_loop fuel tokens i ast ctx))
       = in_always_block ctx.
Proof.
  induction fuel as [|fuel IH]; intros tokens i ast ctx; simpl.
  - destruct (i <? List.length tokens); simpl; auto.
  - destruct (i <? List.length tokens); simpl; auto.
    destruct (build_step_frame tokens i ast ctx) as (H1 & H2 & H3).
    destruct (build_step tokens i ast ctx) as [[[j ast']| |] ctx']; simpl in *;
      auto.
    destruct (IH tokens j ast' ctx') as (G1 & G2 & G3).
    repeat split; congruence.
Qed.

Lemma build_loop_result fuel :
  forall tokens i ast ctx ctx',
    fst (build_loop fuel tokens i ast ctx) = fst (build_loop fuel tokens i ast ctx').
Proof.
  induction fuel as [|fuel IH]; intros tokens i ast ctx ctx'; simpl.
  - destruct (i <? List.length tokens); reflexivity.
  - destruct (i <? List.length tokens); [|reflexivity].
    pose proof (build_step_result tokens i ast ctx ctx') as H.
    destruct (build_step tokens i ast ctx) as [[[j a]| |] c],
             (build_step tokens i ast ctx') as [[[j' a']| |] c'];
      simpl in H |- *; try discriminate.
    + injection H as <- <-; apply IH.
    + now injection H as ->.
    + reflexivity.
Qed.

Lemma generate_verilog_frame ast ctx :
  sequential_calls (snd (generate_verilog ast ctx)) = sequential_calls ctx
  /\ call_counter (snd (generate_verilog ast ctx)) = call_counter ctx.
Proof.
  unfold generate_verilog.
  destruct (main_module_lines ast); [|now split].
  destruct (function_modules (ast_functions ast)); now split.
Qed.

Lemma generate_verilog_result ast ctx ctx' :
  sequential_calls ctx = sequential_calls ctx' ->
  fst (generate_verilog ast ctx) = fst (generate_verilog ast ctx').
Proof.
  intros H; unfold generate_verilog.
  destruct (main_module_lines ast); [|reflexivity].
  destruct (function_modules (ast_functions ast)); [|reflexivity].
  cbn [fst set_in_always_block sequential_calls]. now rewrite H.
Qed.

(** The text produced by [parse_code] is determined by the source and by
    the pending list of the context, which [parse_code] hands back as it
    received it. *)
Lemma parse_code_frame code ctx :
  sequential_calls (snd (parse_code code ctx)) = sequential_calls ctx
  /\ call_counter (snd (parse_code code ctx)) = call_counter ctx.
Proof.
  unfold parse_code, build_ast.
  destruct (build_loop_frame
              (List.length (tokenize (Py.split (ascii_of_nat 10) (Py.strip code))))
              (tokenize (Py.split (ascii_of_nat 10) (Py.strip code)))
              0 (mkAST [] [] []) ctx) as (H1 & H2 & _).
  destruct (build_loop _ _ _ _ _) as [[ast| |] ctx']; simpl in *; auto.
  destruct (generate_verilog_frame ast ctx') as (G1 & G2).
  destruct (generate_verilog ast ctx') as [[verilog|e] ctx'']; simpl in *;
    split; congruence.
Qed.

Lemma parse_code_result code ctx ctx' :
  sequential_calls ctx = sequential_calls ctx' ->
  fst (parse_code code ctx) = fst (parse_code code ctx').
Proof.
  intros Hcalls; unfold parse_code, build_ast.
  set (tokens := tokenize (Py.split (ascii_of_nat 10) (Py.strip code))).
  pose proof (build_loop_result (List.length tokens) tokens 0 (mkAST [] [] [])
                                ctx ctx') as Hr.
  destruct (build_loop_frame (List.length tokens) tokens 0 (mkAST [] [] []) ctx)
    as (H1 & _).
  destruct (build_loop_frame (List.length tokens) tokens 0 (mkAST [] [] []) ctx')
    as (H1' & _).
  destruct (build_loop _ tokens 0 _ ctx) as [[a| |] c],
           (build_loop _ tokens 0 _ ctx') as [[a'| |] c'];
    simpl in *; try discriminate.
  - injection Hr as <-.
    assert (sequential_calls c = sequential_calls c') as Hc by congruence.
    pose proof (generate_verilog_result a c c' Hc) as Hg.
    destruct (generate_verilog a c) as [[v|e] c2],
             (generate_verilog a c') as [[v'|e'] c2'];
      simpl in Hg |- *; congruence.
  - now injection Hr as ->.
  - reflexivity.
Qed.

(** C10. The token pipeline resolves no call: its expression conversion
    is the identity, [parse_code] hands back the pending list and the call
    counter as it received them, and from a fresh parser the pending list
    stays empty and the generated text is the main module followed by the
    function modules and [endmodule], without any instantiation block. *)
Theorem token_pipeline_resolves_no_call (code : string) :
  (forall expr, _convert_expression expr = expr)
  /\ (forall stmts,
        statement_lines stmts
        = map (fun '(assignment target expr) =>
                 ("            " ++ target ++ " <= " ++ expr ++ ";")%string)
              stmts)
  /\ (forall ctx,
        sequential_calls (snd (parse_code code ctx)) = sequential_calls ctx
        /\ call_counter (snd (parse_code code ctx)) = call_counter ctx)
  /\ sequential_calls (snd (parse_code code init)) = []
  /\ (forall verilog,
        fst (parse_code code init) = Ret verilog ->
        exists ast main modules,
          fst (build_ast (tokenize (Py.split (ascii_of_nat 10) (Py.strip code)))
                         init) = Ret ast
          /\ main_module_lines ast = inl main
          /\ function_modules (ast_functions ast) = inl modules
          /\ verilog = Py.join nl (main ++ modules ++ ["endmodule"])).
Proof.
  split; [reflexivity|].
  split; [reflexivity|].
  split; [intros ctx; apply parse_code_frame|].
  split; [apply (parse_code_frame code init)|].
  intros verilog H; unfold parse_code in H.
  set (tokens := tokenize (Py.split (ascii_of_nat 10) (Py.strip code))) in *.
  destruct (build_loop_frame (List.length tokens) tokens 0 (mkAST [] [] []) init)
    as (Hc & _).
  fold (build_ast tokens init) in Hc.
  destruct (build_ast tokens init) as [[ast| |] ctx'] eqn:E; simpl in H;
    try discriminate.
  unfold generate_verilog in H.
  destruct (main_module_lines ast) as [main|e] eqn:Em; [|discriminate].
  destruct (function_modules (ast_functions ast)) as [modules|e] eqn:Ef;
    [|discriminate].
  exists ast, main, modules.
  split; [reflexivity|]. split; [exact Em|]. split; [exact Ef|].
  injection H as <-; simpl in Hc |- *; now rewrite Hc.
Qed.

Lemma token_pipeline_resolves_no_call_witness :
  exists ast main modules,
    fst (build_ast (tokenize (Py.split (ascii_of_nat 10) (Py.strip "a = f(b);")))
                   init) = Ret ast
    /\ main_module_lines ast = inl main
    /\ function_modules (ast_functions ast) = inl modules
    /\ Py.join nl
         ["module main("; "    input clk,"; "    input rst"; ");"; EmptyString;
          EmptyString; "    always @(posedge clk or posedge rst) begin";
          "        if (rst) begin"; "        end else begin";
          "            a <= f;"; "        end"; "    end"; EmptyString;
          "endmodule"]
       = Py.join nl (main ++ modules ++ ["endmodule"]).
Proof.
  destruct (token_pipeline_resolves_no_call "a = f(b);") as (_ & _ & _ & _ & H).
  apply H; vm_compute; reflexivity.
Defined.

(** C5, as the code has it. The context of a parser is built once and is
    not reset by [parse_code]; what [parse_code] returns is nevertheless
    the same when the same source is compiled again on the same parser,
    whatever context the parser started from. *)
Theorem token_pipeline_recompiles_alike (code : string) (ctx : Context) :
  fst (parse_code code (snd (parse_code code ctx))) = fst (parse_code code ctx)
  /\ variables (snd (parse_code "int a;" init)) <> variables init.
Proof.
  split.
  - apply parse_code_result, parse_code_frame.
  - vm_compute; discriminate.
Qed.

End TokenPipeline.

(** ** Compiling twice with the rule pipeline *)

Section Recompile.

Import Main.

(** A second [parse_and_convert] of the [inc] example on the same
    converter finds the record of the first run in [sequential_calls] and
    returns a different text. *)
Lemma second_compile_differs :
  exists first second self1 self2,
    parse_and_convert 2 inc_example init = (Ret first, self1)
    /\ parse_and_convert 2 inc_example self1 = (Ret second, self2)
    /\ first <> second
    /\ List.length (sequential_calls self1) = 1
    /\ List.length (sequential_calls self2) = 2.
Proof.
  destruct (parse_and_convert 2 inc_example init) as [r1 self1] eqn:E1.
  destruct (parse_and_convert 2 inc_example self1) as [r2 self2] eqn:E2.
  vm_compute in E1; injection E1 as <- <-.
  vm_compute in E2; injection E2 as <- <-.
  do 4 eexists; repeat split.
  apply String.eqb_neq; vm_compute; reflexivity.
Qed.

End Recompile.

(** ** Instantiation blocks *)

Section InstanceBlocks.

Lemma rstrip_by_kept p s c :
  p c = false ->
  Py.rstrip_by p (s ++ String c EmptyString) = (s ++ String c EmptyString)%string.
Proof.
  intros Hc; unfold Py.rstrip_by.
  rewrite rev_app; simpl; rewrite Hc.
  change (String c (Py.rev s)) with (Py.rev (String c EmptyString) ++ Py.rev s)%string.
  now rewrite <- rev_app, rev_involutive.
Qed.

Lemma rstrip_by_one p s c d :
  p c = false -> p d = true ->
  Py.rstrip_by p ((s ++ String c EmptyString) ++ String d EmptyString)
  = (s ++ String c EmptyString)%string.
Proof.
  intros Hc Hd; unfold Py.rstrip_by.
  rewrite !rev_app; simpl; rewrite Hd, Hc.
  change (String c (Py.rev s)) with (Py.rev (String c EmptyString) ++ Py.rev s)%string.
  now rewrite <- rev_app, rev_involutive.
Qed.

Lemma connection_text_closed c :
  exists s, connection_text c = (s ++ ")")%string.
Proof.
  unfold connection_text.
  exists ("        ." ++ fst c ++ "(" ++ snd c)%string.
  now rewrite !append_assoc.
Qed.

Lemma rstrip_connection c :
  Py.rstrip "," (connection_text c) = connection_text c
  /\ Py.rstrip "," (connection_text c ++ ",") = connection_text c.
Proof.
  destruct (connection_text_closed c) as [s ->]; unfold Py.rstrip; split.
  - now apply rstrip_by_kept.
  - now apply rstrip_by_one.
Qed.

Lemma rstrip_last_cons x y l :
  rstrip_last (x :: y :: l) = x :: rstrip_last (y :: l).
Proof. reflexivity. Qed.

(** Lines written with a comma each: stripping the comma of the last
    line gives the comma-separated list. *)
Lemma rstrip_last_commas c cs :
  rstrip_last (map (fun c => (connection_text c ++ ",")%string) (c :: cs))
  = comma_separated (map connection_text (c :: cs)).
Proof.
  revert c; induction cs as [|d cs IH]; intros c.
  - cbn [map rstrip_last comma_separated app]; now rewrite (proj2 (rstrip_connection c)).
  - change (rstrip_last (map _ (c :: d :: cs)))
      with ((connection_text c ++ ",")%string
            :: rstrip_last (map (fun c => (connection_text c ++ ",")%string) (d :: cs))).
    now rewrite IH.
Qed.

(** The same when a last line was written without a comma. *)
Lemma rstrip_last_commas_then cs t :
  rstrip_last (map (fun c => (connection_text c ++ ",")%string) cs
               ++ [connection_text t])
  = comma_separated (map connection_text (cs ++ [t])).
Proof.
  induction cs as [|c cs IH].
  - change ([Py.rstrip "," (connection_text t)] = [connection_text t]).
    now rewrite (proj1 (rstrip_connection t)).
  - change (map ?f (c :: ?l)) with (f c :: map f l).
    rewrite <- !app_comm_cons.
    change (map ?f (c :: ?l)) with (f c :: map f l).
    destruct cs as [|d cs].
    + change ([(connection_text c ++ ",")%string; Py.rstrip "," (connection_text t)]
              = [(connection_text c ++ ",")%string; connection_text t]).
      now rewrite (proj1 (rstrip_connection t)).
    + change (rstrip_last ((connection_text c ++ ",")%string :: ?l))
        with ((connection_text c ++ ",")%string :: rstrip_last l).
      rewrite IH; reflexivity.
Qed.

(** The lines the generator writes for one record are the block of the
    specification. *)
Lemma sequential_instance_lines_block func_name params has_result inst args :
  sequential_instance_lines func_name params has_result inst args
  = instance_block func_name params has_result inst args.
Proof.
  unfold sequential_instance_lines, connections.
  set (arg_list := match args with
                   | EmptyString => []
                   | String _ _ => Py.split "," args
                   end).
  set (bound := map (fun '(i, param) =>
                       (var_name param,
                        match nth_error arg_list i with
                        | Some a => Py.strip a
                        | None => "0"
                        end))
                    (combine (seq 0 (List.length params)) params)).
  assert (map (fun '(i, param) =>
                 ("        ." ++ var_name param ++ "("
                  ++ match nth_error arg_list i with
                     | Some a => Py.strip a
                     | None => "0"
                     end ++ "),")%string)
              (combine (seq 0 (List.length params)) params)
          = map (fun c => (connection_text c ++ ",")%string) bound) as ->.
  { unfold bound; rewrite map_map; apply map_ext; intros [i param].
    unfold connection_text; cbn [fst snd]. now rewrite !append_assoc. }
  unfold instance_block; rewrite (app_assoc [_; _]); f_equal.
  unfold connections; fold arg_list; fold bound.
  set (comma := fun c : string * string => (connection_text c ++ ",")%string).
  set (result_port := ("result", (inst ++ "_result")%string)).
  assert ((if has_result
           then [("        .result(" ++ inst ++ "_result)")%string] else [])
          = map connection_text (if has_result then [result_port] else []))
    as ->.
  { destruct has_result; [|reflexivity].
    unfold result_port, connection_text; cbn [map fst snd].
    now rewrite !append_assoc. }
  change ([?c; ?h; "        .clk(clk),"; "        .rst(rst),"] ++ ?l)
    with (c :: h :: (map comma [("clk", "clk"); ("rst", "rst")] ++ l)).
  rewrite app_assoc, <- map_app.
  change ([("clk", "clk"); ("rst", "rst")] ++ bound)
    with (("clk", "clk") :: ("rst", "rst") :: bound).
  change (map comma (?x :: ?r) ++ ?l) with (comma x :: (map comma r ++ l)).
  rewrite !rstrip_last_cons.
  change ([?a; ?b] ++ ?r) with (a :: b :: r); do 2 f_equal.
  change (comma ?x :: (map comma ?r ++ ?l)) with (map comma (x :: r) ++ l).
  destruct has_result.
  - change (map connection_text [result_port]) with [connection_text result_port].
    unfold comma; now rewrite rstrip_last_commas_then.
  - rewrite !app_nil_r.
    exact (rstrip_last_commas ("clk", "clk") (("rst", "rst") :: bound)).
Qed.

Lemma for_each_error {A B} (f : A -> B + ValueError) (l : list A) e :
  (forall x e', f x = inr e' -> e' = StrExceedsDigitLimit) ->
  for_each f l = inr e -> e = StrExceedsDigitLimit.
Proof.
  intros Hf; induction l as [|x l IH]; cbn [for_each]; [discriminate|].
  destruct (f x) as [y|e'] eqn:E.
  - destruct (for_each f l); [discriminate|]. intros [= <-]; now apply IH.
  - intros [= <-]; exact (Hf _ _ E).
Qed.

Lemma range_text_error t e : range_text t = inr e -> e = StrExceedsDigitLimit.
Proof. unfold range_text; destruct (Py.str _); congruence. Qed.

Lemma port_text_error direction t port e :
  port_text direction t port = inr e -> e = StrExceedsDigitLimit.
Proof.
  unfold port_text; destruct (range_text t) eqn:E; [discriminate|].
  intros [= <-]; exact (range_text_error _ _ E).
Qed.

Lemma declarations_error variables e :
  declarations variables = inr e -> e = StrExceedsDigitLimit.
Proof.
  apply for_each_error; intros [k var] e'.
  unfold _generate_variable_declaration.
  destruct (range_text _) eqn:E; [discriminate|].
  intros [= <-]; exact (range_text_error _ _ E).
Qed.

Lemma module_ports_error parameters return_type e :
  module_ports parameters return_type = inr e -> e = StrExceedsDigitLimit.
Proof.
  unfold module_ports.
  destruct (for_each _ parameters) eqn:E.
  - destruct return_type as [t|]; [|discriminate].
    destruct (port_text _ t _) eqn:Ep; [discriminate|].
    intros [= <-]; exact (port_text_error _ _ _ _ Ep).
  - intros [= <-]; revert E; apply for_each_error.
    intros x e'; apply port_text_error.
Qed.

Lemma rule_function_modules_error fs :
  forall self e,
    fst (Main.function_modules fs self) = inr e -> e = StrExceedsDigitLimit.
Proof.
  induction fs as [|[k func] fs IH]; intros self e; cbn [Main.function_modules];
    [discriminate|].
  unfold Main._generate_function_module.
  destruct (module_ports _ _) eqn:E.
  - destruct (Main.body_lines _ self) as [body self1].
    pose proof (IH self1) as H.
    destruct (Main.function_modules fs self1) as [[out|e'] self2];
      [discriminate|].
    intros [= <-]; now apply H.
  - intros [= <-]; exact (module_ports_error _ _ _ E).
Qed.

Lemma rule_generate_error processed_lines self e :
  fst (Main._generate_verilog processed_lines self) = inr e ->
  e = StrExceedsDigitLimit.
Proof.
  unfold Main._generate_verilog.
  destruct (declarations _) eqn:E;
    [|intros [= <-]; exact (declarations_error _ _ E)].
  destruct (Main.main_logic _ _) as [logic self1].
  pose proof (rule_function_modules_error
                (Main.functions (Main.set_in_always_block self1 false))
                (Main.set_in_always_block self1 false)) as H.
  destruct (Main.function_modules _ _) as [[modules|e'] self3];
    [discriminate|].
  intros [= <-]; now apply H.
Qed.

Lemma token_generate_error ast ctx e :
  fst (AdHocRegex.generate_verilog ast ctx) = inr e ->
  e = StrExceedsDigitLimit.
Proof.
  unfold AdHocRegex.generate_verilog, AdHocRegex.main_module_lines,
    AdHocRegex.function_modules.
  destruct (declarations _) eqn:E;
    [|intros [= <-]; exact (declarations_error _ _ E)].
  destruct (for_each _ (AdHocRegex.ast_functions ast)) eqn:Ef; [discriminate|].
  intros [= <-]; revert Ef; apply for_each_error.
  intros [k func] e'; unfold AdHocRegex._generate_function_module.
  destruct (module_ports _ _) eqn:Ep; [discriminate|].
  intros [= <-]; exact (module_ports_error _ _ _ Ep).
Qed.

(** C8, as the code has it. The text of either generator is the module
    [main], then the function modules, then the blocks of the pending
    records, one per record and in the order of the list, then
    [endmodule]; it is written whenever the registers and the function
    modules are, and otherwise the error is that of a width beyond what
    [str] formats.  Each block names the instance, connects clock and
    reset, binds every parameter port to the stripped actual argument at
    its position ([0] for a port without argument) and, when the function
    has a return type, binds [result] to [instance_name_result]: a block
    has one connection per port, whatever the number of actual
    arguments. *)
Theorem one_block_per_pending_call
    (processed_lines : list string) (self : Main.PseudoCToVerilog)
    (ast : AdHocRegex.AST) (ctx : AdHocRegex.Context) :
  (forall text self3,
      Main._generate_verilog processed_lines self = (inl text, self3)
      <-> exists registers logic self1 modules,
            declarations (Main.variables self) = inl registers
            /\ Main.main_logic processed_lines
                 (Main.set_in_always_block self true) = (logic, self1)
            /\ Main.function_modules (Main.functions self1)
                 (Main.set_in_always_block self1 false) = (inl modules, self3)
            /\ text
               = Py.join nl
                   (rule_main_lines registers (Main.variables self) logic
                    ++ modules
                    ++ flat_map (rule_block self3) (Main.sequential_calls self3)
                    ++ ["endmodule"]))
  /\ (forall text ctx2,
        AdHocRegex.generate_verilog ast ctx = (inl text, ctx2)
        <-> exists main modules,
              AdHocRegex.main_module_lines ast = inl main
              /\ AdHocRegex.function_modules (AdHocRegex.ast_functions ast)
                 = inl modules
              /\ ctx2 = AdHocRegex.set_in_always_block ctx false
              /\ text
                 = Py.join nl
                     (main ++ modules
                      ++ flat_map token_block (AdHocRegex.sequential_calls ctx)
                      ++ ["endmodule"]))
  /\ (forall e,
        fst (Main._generate_verilog processed_lines self) = inr e
        \/ fst (AdHocRegex.generate_verilog ast ctx) = inr e ->
        e = StrExceedsDigitLimit)
  /\ (forall f instance_name args,
        Main._generate_sequential_instance f instance_name args
        = instance_block (Main.name f) (Main.parameters f)
            (match Main.return_type f with Some _ => true | None => false end)
            instance_name args)
  /\ (forall f instance_name args,
        AdHocRegex._generate_sequential_instance f instance_name args
        = token_block (f, instance_name, args))
  /\ (forall params has_result instance_name args,
        List.length (connections params has_result instance_name args)
        = 2 + List.length params + (if has_result then 1 else 0)).
Proof.
  split; [|split; [|split; [|split; [|split]]]].
  - intros text self3; unfold Main._generate_verilog.
    destruct (declarations (Main.variables self)) as [registers|e].
    2:{ split; [discriminate|]. intros (? & ? & ? & ? & H & _); discriminate H. }
    destruct (Main.main_logic _ _) as [logic self1] eqn:El.
    change (Main.functions (Main.set_in_always_block self1 false))
      with (Main.functions self1).
    destruct (Main.function_modules _ _) as [[modules|e] self3'] eqn:Ef.
    2:{ split; [discriminate|].
        intros (? & ? & ? & ? & _ & H1 & H2 & _).
        injection H1 as <- <-. rewrite Ef in H2; discriminate H2. }
    assert (forall s3,
              flat_map (fun '(func, instance_name, args) =>
                          Main._generate_sequential_instance
                            (Main.deref s3 func) instance_name args)
                       (Main.sequential_calls s3)
              = flat_map (rule_block s3) (Main.sequential_calls s3)) as Hb.
    { intros s3; apply flat_map_ext; intros [[func inst] args].
      apply sequential_instance_lines_block. }
    split.
    + intros H.
      assert (self3' = self3) as -> by congruence.
      exists registers, logic, self1, modules.
      split; [reflexivity|]. split; [reflexivity|]. split; [exact Ef|].
      match type of H with
      | (inl ?t, _) = _ => assert (text = t) as -> by congruence
      end.
      rewrite Hb; unfold rule_main_lines; now rewrite <- !app_assoc.
    + intros (r & l & s1 & m & Hr & Hl & Hf & ->).
      assert (r = registers) as -> by congruence.
      assert (l = logic /\ s1 = self1) as [-> ->] by (split; congruence).
      rewrite Ef in Hf.
      assert (m = modules /\ self3 = self3') as [-> ->] by (split; congruence).
      rewrite Hb; unfold rule_main_lines; now rewrite <- !app_assoc.
  - intros text ctx2; unfold AdHocRegex.generate_verilog.
    destruct (AdHocRegex.main_module_lines ast) as [main|e].
    2:{ split; [discriminate|]. intros (? & ? & H & _); discriminate H. }
    destruct (AdHocRegex.function_modules _) as [modules|e].
    2:{ split; [discriminate|]. intros (? & ? & _ & H & _); discriminate H. }
    assert (flat_map (fun '(func, instance_name, args) =>
                        AdHocRegex._generate_sequential_instance func
                          instance_name args)
                     (AdHocRegex.sequential_calls ctx)
            = flat_map token_block (AdHocRegex.sequential_calls ctx)) as Hb.
    { apply flat_map_ext; intros [[func inst] args].
      apply sequential_instance_lines_block. }
    change (AdHocRegex.sequential_calls
              (AdHocRegex.set_in_always_block
                 (AdHocRegex.set_in_always_block ctx true) false))
      with (AdHocRegex.sequential_calls ctx).
    change (AdHocRegex.set_in_always_block
              (AdHocRegex.set_in_always_block ctx true) false)
      with (AdHocRegex.set_in_always_block ctx false).
    rewrite Hb.
    split.
    + intros H. exists main, modules.
      split; [reflexivity|]. split; [reflexivity|]. split; congruence.
    + intros (m & ms & Hm & Hms & -> & ->).
      assert (m = main) as -> by congruence.
      assert (ms = modules) as -> by congruence.
      reflexivity.
  - intros e [H|H];
      [exact (rule_generate_error _ _ _ H)|exact (token_generate_error _ _ _ H)].
  - intros; apply sequential_instance_lines_block.
  - intros; apply sequential_instance_lines_block.
  - intros params has_result instance_name args; unfold connections.
    rewrite !length_app, length_map, length_combine, length_seq, Nat.min_id.
    cbn [List.length]. destruct has_result; cbn [List.length]; lia.
Qed.

(** An actual argument beyond the parameters of the function is bound to
    no port: the call [f(a, b)] of a function with the one parameter [x]
    gets a block in which [b] does not occur. *)
Lemma extra_argument_is_bound_nowhere :
  let f :=
    Main.mkFunction "f" [mkVariable "x" (mkTypeInfo "int" 32 None)] None []
                    SEQUENTIAL in
  let block := Main._generate_sequential_instance f "f_inst_0" "a, b" in
  arg_count "a, b" = 2
  /\ block
     = ["    // Sequential function instance: f_inst_0";
        "    f f_inst_0 (";
        "        .clk(clk),";
        "        .rst(rst),";
        "        .x(a)";
        "    );";
        EmptyString]
  /\ Forall (fun line => Py.contains "b" line = false) block.
Proof.
  vm_compute; repeat split; repeat constructor.
Qed.

End InstanceBlocks.

(** ** Function headers *)

Section FunctionHeaders.

Import AdHocRegex Header.

Lemma TokenType_eqb_eq a b : TokenType_eqb a b = true <-> a = b.
Proof. destruct a, b; simpl; split; congruence. Qed.












End FunctionHeaders.

(** ** What makes compilation fail *)

Section Failures.

Import AdHocRegex.

(** The lexer's delimiters are single characters: it never produces the
    [::] delimiter that [_parse_function] looks for. *)
Lemma tokenize_line_delimiters s :
  forall line_idx col_idx skip t,
    In t (tokenize_line line_idx s col_idx skip) ->
    type t = DELIMITER -> String.length (value t) = 1.
Proof.
  induction s as [|c rest IH]; intros line_idx col_idx skip t Hin Ht;
    [destruct Hin|].
  cbn [tokenize_line] in Hin.
  destruct skip as [|k]; [|eapply IH; eauto].
  repeat match type of Hin with
         | In _ (if ?b then _ else _) => destruct b
         | In _ (match ?o with Some _ => _ | None => _ end) => destruct o
         end;
    try (eapply IH; now eauto);
    (destruct Hin as [<-|Hin]; [|eapply IH; now eauto]);
    simpl in Ht |- *; congruence.
Qed.

Lemma tokenize_delimiters lines :
  forall line_idx t,
    In t (tokenize_from line_idx lines) ->
    type t = DELIMITER -> String.length (value t) = 1.
Proof.
  induction lines as [|l rest IH]; intros line_idx t Hin Ht; [destruct Hin|].
  cbn [tokenize_from] in Hin; apply in_app_or in Hin as [Hin|Hin].
  - destruct (Py.strip l); [destruct Hin|].
    eapply tokenize_line_delimiters; eauto.
  - eapply IH; eauto.
Qed.

Lemma no_double_colon lines i :
  is_at (tokenize lines) i DELIMITER "::" = false.
Proof.
  unfold is_at.
  destruct (nth_error (tokenize lines) i) as [t|] eqn:E; [|reflexivity].
  destruct (TokenType_eqb (type t) DELIMITER) eqn:Et; [|reflexivity].
  apply TokenType_eqb_eq in Et.
  pose proof (tokenize_delimiters lines 0 t (nth_error_In _ _ E) Et) as Hlen.
  destruct (String.eqb (value t) "::") eqn:Ev; [|reflexivity].
  apply String.eqb_eq in Ev; rewrite Ev in Hlen; discriminate Hlen.
Qed.

Lemma type_at_error tokens i e :
  type_at tokens i TYPE = true ->
  TypeInfo_parse (value_at tokens i) = inr e ->
  type_error tokens e.
Proof.
  unfold type_at, value_at, type_error.
  destruct (nth_error tokens i) as [t|] eqn:E; [|discriminate].
  intros Ht He; exists t; repeat split.
  - eapply nth_error_In; eauto.
  - now apply TokenType_eqb_eq.
  - exact He.
Qed.

Lemma parse_parameters_raises fuel :
  forall tokens i ps e,
    parse_parameters fuel tokens i ps = Raise e -> type_error tokens e.
Proof.
  induction fuel as [|fuel IH]; intros tokens i ps e; cbn [parse_parameters].
  - destruct (_ && _); discriminate.
  - destruct (_ && _); [|discriminate].
    destruct (type_at tokens i TYPE) eqn:Et; [|apply IH].
    destruct (TypeInfo_parse _) as [pt|e'] eqn:Ep.
    + destruct (type_at tokens (i + 1) IDENTIFIER);
        match goal with
        | |- context [is_at tokens ?k DELIMITER ","] =>
            destruct (is_at tokens k DELIMITER ",")
        end; apply IH.
    + intros H; injection H as <-; eapply type_at_error; eauto.
Qed.

Lemma parse_body_never_raises fuel :
  forall tokens i ss e, parse_body fuel tokens i ss <> Raise e.
Proof.
  induction fuel as [|fuel IH]; intros tokens i ss e; cbn [parse_body].
  - destruct (_ && _); discriminate.
  - destruct (_ && _); [|discriminate].
    destruct (_ && _); [|apply IH].
    destruct (collect_while _ _ _); apply IH.
Qed.

(** On tokens without the [::] delimiter, [_parse_function] raises only
    for a missing name or a type that does not parse. *)
Lemma _parse_function_raises tokens i e :
  is_at tokens (i + 1) DELIMITER "::" = false ->
  _parse_function tokens i = Raise e ->
  e = ExpectedFunctionName \/ type_error tokens e.
Proof.
  intros Hcolon; unfold _parse_function, parse_sync_mode.
  rewrite Hcolon; cbn [andb bind].
  unfold parse_return_type.
  destruct (type_at tokens (i + 1) TYPE) eqn:Et.
  - destruct (TypeInfo_parse _) as [t|e'] eqn:Ep; cbn [bind].
    + unfold parse_name.
      destruct (type_at tokens (i + 1 + 1) IDENTIFIER); cbn [bind];
        [|intros H; injection H as <-; now left].
      unfold parse_parameter_list.
      destruct (is_at tokens (i + 1 + 1 + 1) DELIMITER "(").
      * destruct (parse_parameters _ _ _ _) as [[j ps]|e''|] eqn:Epp; cbn [bind];
          [|intros H; injection H as <-; right;
            eapply parse_parameters_raises; eauto|discriminate].
        unfold parse_function_body.
        destruct (is_at tokens (j + 1) DELIMITER "{"); [|discriminate].
        destruct (parse_body _ _ _ _) as [[j' ss]|e''|] eqn:Eb; cbn [bind];
          try discriminate.
        now apply parse_body_never_raises in Eb.
      * cbn [bind]. unfold parse_function_body.
        destruct (is_at tokens (i + 1 + 1 + 1) DELIMITER "{"); [|discriminate].
        destruct (parse_body _ _ _ _) as [[j' ss]|e''|] eqn:Eb; cbn [bind];
          try discriminate.
        now apply parse_body_never_raises in Eb.
    + intros H; injection H as <-; right; eapply type_at_error; eauto.
  - cbn [bind]; unfold parse_name.
    destruct (type_at tokens (i + 1) IDENTIFIER); cbn [bind];
      [|intros H; injection H as <-; now left].
    unfold parse_parameter_list.
    destruct (is_at tokens (i + 1 + 1) DELIMITER "(").
    + destruct (parse_parameters _ _ _ _) as [[j ps]|e''|] eqn:Epp; cbn [bind];
        [|intros H; injection H as <-; right;
          eapply parse_parameters_raises; eauto|discriminate].
      unfold parse_function_body.
      destruct (is_at tokens (j + 1) DELIMITER "{"); [|discriminate].
      destruct (parse_body _ _ _ _) as [[j' ss]|e''|] eqn:Eb; cbn [bind];
        try discriminate.
      now apply parse_body_never_raises in Eb.
    + cbn [bind]. unfold parse_function_body.
      destruct (is_at tokens (i + 1 + 1) DELIMITER "{"); [|discriminate].
      destruct (parse_body _ _ _ _) as [[j' ss]|e''|] eqn:Eb; cbn [bind];
        try discriminate.
      now apply parse_body_never_raises in Eb.
Qed.

Lemma build_step_raises lines i ast ctx e :
  fst (build_step (tokenize lines) i ast ctx) = Raise e ->
  e = ExpectedFunctionName \/ type_error (tokenize lines) e.
Proof.
  unfold build_step.
  destruct (type_at _ i TYPE && type_at _ (i + 1) IDENTIFIER) eqn:E1.
  { apply andb_true_iff in E1 as [E1 _].
    destruct (TypeInfo_parse _) eqn:Ep; simpl; [discriminate|].
    intros H; injection H as <-; right; eapply type_at_error; eauto. }
  destruct (is_at _ i KEYWORD "function").
  { destruct (_parse_function _ i) as [[j f]|e'|] eqn:Ef; simpl; try discriminate.
    intros H; injection H as <-.
    eapply _parse_function_raises; [apply no_double_colon|exact Ef]. }
  destruct (type_at _ i IDENTIFIER && _); [destruct (collect_while _ _ _)|];
    simpl; discriminate.
Qed.

Lemma build_loop_raises fuel :
  forall lines i ast ctx e,
    fst (build_loop fuel (tokenize lines) i ast ctx) = Raise e ->
    e = ExpectedFunctionName \/ type_error (tokenize lines) e.
Proof.
  induction fuel as [|fuel IH]; intros lines i ast ctx e; cbn [build_loop].
  - destruct (_ <? _); simpl; discriminate.
  - destruct (_ <? _); [|simpl; discriminate].
    pose proof (build_step_raises lines i ast ctx) as Hs.
    destruct (build_step _ i ast ctx) as [[[j ast']|e'|] ctx']; simpl in *.
    + apply IH.
    + intros H; injection H as <-; now apply Hs.
    + discriminate.
Qed.

(** [TypeInfo.parse] fails exactly on a bad [::] suffix or a bad width. *)
Lemma TypeInfo_parse_fails type_str :
  (exists e, TypeInfo_parse type_str = inr e)
  <-> bad_sync_mode type_str \/ bad_width type_str.
Proof.
  unfold TypeInfo_parse, bad_sync_mode, bad_width, sync_token, type_part.
  destruct (Py.split2 ":" ":" type_str) as [|p0 [|p1 more]]; cbn [hd nth_error].
  - (* no suffix, empty head *)
    split.
    + intros [e H]; right.
      destruct (Py.char_in "." EmptyString) eqn:Ec; [|discriminate].
      split; [reflexivity|]. intros base w Hs; rewrite Hs in H.
      destruct (Py.int w); [discriminate|eauto].
    + intros [(lit & H & _)|[Hc Hw]]; [simpl in H; discriminate H|].
      rewrite Hc.
      destruct (Py.split "." EmptyString) as [|b [|w [|x y]]]; eauto.
      destruct (Hw b w eq_refl) as [[|digits] ->]; eauto.
  - split.
    + intros [e H]; right.
      destruct (Py.char_in "." p0) eqn:Ec; [|discriminate].
      split; [reflexivity|]. intros base w Hs; rewrite Hs in H.
      destruct (Py.int w); [discriminate|eauto].
    + intros [(lit & H & _)|[Hc Hw]]; [simpl in H; discriminate H|].
      rewrite Hc.
      destruct (Py.split "." p0) as [|b [|w [|x y]]]; eauto.
      destruct (Hw b w eq_refl) as [[|digits] ->]; eauto.
  - unfold SyncMode_of.
    destruct (String.eqb p1 "concurrent") eqn:E1;
      [|destruct (String.eqb p1 "sequential") eqn:E2].
    3:{ split; [|eauto]. intros _; left; exists p1.
        apply String.eqb_neq in E1, E2; auto. }
    all: split;
      [ intros [e H]; right;
        destruct (Py.char_in "." p0) eqn:Ec; [|discriminate];
        split; [reflexivity|]; intros base w Hs; rewrite Hs in H;
        destruct (Py.int w); [discriminate|eauto]
      | intros [(lit & H & N1 & N2)|[Hc Hw]];
        [ injection H as <-;
          first [apply String.eqb_eq in E1 | apply String.eqb_eq in E2];
          congruence
        | rewrite Hc;
          destruct (Py.split "." p0) as [|b [|w [|x y]]]; eauto;
          destruct (Hw b w eq_refl) as [[|digits] ->]; eauto ] ].
Qed.

(** *** Where the builder raises *)

Lemma skipn_at {A} (l : list A) :
  forall i,
    skipn i l = match nth_error l i with
                | Some x => x :: skipn (S i) l
                | None => []
                end.
Proof.
  induction l as [|x l IH]; intros [|i]; try reflexivity.
  cbn [skipn nth_error]; apply IH.
Qed.

Lemma parameter_span_at tokens i :
  parameter_span tokens i =
  match nth_error tokens i with
  | Some t =>
      if negb (TokenType_eqb (type t) DELIMITER && String.eqb (value t) ")")
      then t :: parameter_span tokens (i + 1)
      else []
  | None => []
  end.
Proof.
  unfold parameter_span; rewrite skipn_at, Nat.add_1_r.
  destruct (nth_error tokens i); reflexivity.
Qed.

Lemma refusal_at_type tokens i :
  type_at tokens i TYPE = true ->
  refusal_at tokens i = match TypeInfo_parse (value_at tokens i) with
                        | inl _ => None
                        | inr e => Some e
                        end.
Proof.
  unfold type_at, refusal_at, value_at, refusal.
  destruct (nth_error tokens i); [|discriminate]. now intros ->.
Qed.

Lemma refusal_at_other tokens i :
  type_at tokens i TYPE = false -> refusal_at tokens i = None.
Proof.
  unfold type_at, refusal_at, refusal.
  destruct (nth_error tokens i); [|reflexivity]. now intros ->.
Qed.

(** A token that is no [TYPE] and no closing parenthesis is passed over. *)
Lemma first_refusal_skip tokens k ty :
  type_at tokens k ty = true -> ty <> TYPE ->
  is_at tokens k DELIMITER ")" = false ->
  first_refusal (parameter_span tokens k)
  = first_refusal (parameter_span tokens (k + 1)).
Proof.
  unfold type_at, is_at; rewrite (parameter_span_at tokens k).
  destruct (nth_error tokens k) as [t|]; [|discriminate].
  intros Ht Hty ->; cbn [negb first_refusal]; unfold refusal.
  apply TokenType_eqb_eq in Ht; rewrite Ht.
  destruct ty; try reflexivity; congruence.
Qed.

Lemma is_at_type_at tokens k ty v :
  is_at tokens k ty v = true -> type_at tokens k ty = true.
Proof.
  unfold is_at, type_at; destruct (nth_error tokens k); [|discriminate].
  now intros [H _]%andb_true_iff.
Qed.

Lemma is_at_other tokens k ty v v' :
  is_at tokens k ty v = true -> v <> v' -> is_at tokens k ty v' = false.
Proof.
  unfold is_at; destruct (nth_error tokens k); [|discriminate].
  intros [-> H]%andb_true_iff Hv; apply String.eqb_eq in H; subst v.
  now apply String.eqb_neq in Hv as ->.
Qed.

Lemma type_at_not_is_at tokens k ty ty' v :
  type_at tokens k ty = true -> ty <> ty' -> is_at tokens k ty' v = false.
Proof.
  unfold is_at, type_at; destruct (nth_error tokens k); [|discriminate].
  intros H%TokenType_eqb_eq Hty; rewrite H.
  destruct ty, ty'; try reflexivity; congruence.
Qed.

Lemma type_at_other tokens k ty ty' :
  type_at tokens k ty = true -> ty <> ty' -> type_at tokens k ty' = false.
Proof.
  unfold type_at; destruct (nth_error tokens k); [|discriminate].
  intros H%TokenType_eqb_eq Hty; rewrite H.
  destruct ty, ty'; try reflexivity; congruence.
Qed.

(** The parameter loop raises exactly the error of the first type of the
    list that is refused. *)
Lemma parse_parameters_raises_iff fuel :
  forall tokens i ps e,
    List.length tokens - i <= fuel ->
    (parse_parameters fuel tokens i ps = Raise e
     <-> first_refusal (parameter_span tokens i) = Some e).
Proof.
  induction fuel as [|fuel IH]; intros tokens i ps e Hfuel;
    cbn [parse_parameters]; rewrite (parameter_span_at tokens i).
  - assert (nth_error tokens i = None) as Hn by (apply nth_error_None; lia).
    rewrite Hn.
    assert ((i <? List.length tokens) = false) as -> by (apply Nat.ltb_ge; lia).
    cbn [andb first_refusal]; split; discriminate.
  - destruct (nth_error tokens i) as [t|] eqn:En.
    2:{ assert ((i <? List.length tokens) = false) as ->
          by (apply Nat.ltb_ge; now apply nth_error_None).
        cbn [andb first_refusal]; split; discriminate. }
    assert ((i <? List.length tokens) = true) as Hlt
        by (apply Nat.ltb_lt, nth_error_Some; congruence).
    rewrite Hlt; cbn [andb].
    assert (is_at tokens i DELIMITER ")"
            = TokenType_eqb (type t) DELIMITER && String.eqb (value t) ")")
      as Hclose by (unfold is_at; now rewrite En).
    rewrite <- Hclose.
    destruct (is_at tokens i DELIMITER ")") eqn:Ec; cbn [negb first_refusal];
      [split; discriminate|].
    apply Nat.ltb_lt in Hlt.
    assert (type_at tokens i TYPE = TokenType_eqb (type t) TYPE) as Ht
        by (unfold type_at; now rewrite En).
    assert (value_at tokens i = value t) as Hv
        by (unfold value_at; now rewrite En).
    unfold refusal; rewrite Ht, Hv.
    destruct (TokenType_eqb (type t) TYPE); [|apply IH; lia].
    destruct (TypeInfo_parse (value t)) as [pt|e'];
      [|split; intros [= <-]; reflexivity].
    destruct (type_at tokens (i + 1) IDENTIFIER) eqn:Ei.
    + rewrite (first_refusal_skip tokens (i + 1) IDENTIFIER Ei)
        by (discriminate || (eapply type_at_not_is_at; eauto; discriminate)).
      destruct (is_at tokens (i + 1 + 1) DELIMITER ",") eqn:Ecomma.
      * rewrite (first_refusal_skip tokens (i + 1 + 1) DELIMITER
                   (is_at_type_at _ _ _ _ Ecomma))
          by (discriminate || (eapply is_at_other; eauto; discriminate)).
        apply IH; lia.
      * apply IH; lia.
    + destruct (is_at tokens (i + 1) DELIMITER ",") eqn:Ecomma.
      * rewrite (first_refusal_skip tokens (i + 1) DELIMITER
                   (is_at_type_at _ _ _ _ Ecomma))
          by (discriminate || (eapply is_at_other; eauto; discriminate)).
        apply IH; lia.
      * apply IH; lia.
Qed.

Lemma parse_function_body_never_raises tokens i e :
  parse_function_body tokens i <> Raise e.
Proof.
  unfold parse_function_body.
  destruct (is_at tokens i DELIMITER "{"); [|discriminate].
  destruct (parse_body _ _ _ _) as [[j ss]|e'|] eqn:Eb; cbn [bind];
    try discriminate.
  now apply parse_body_never_raises in Eb.
Qed.

(** What follows the name of a header raises exactly the error of the
    first type of its parameter list that is refused. *)
Lemma after_name_raises_iff tokens i e
    (k : list Variable_ -> list Statement -> Function) :
  ('(parameters, i) <- parse_parameter_list tokens i ;;
   '(stmts, i) <- parse_function_body tokens i ;;
   Ret (i, k parameters stmts)) = Raise e
  <-> (if is_at tokens i DELIMITER "("
       then first_refusal (parameter_span tokens (i + 1))
       else None) = Some e.
Proof.
  unfold parse_parameter_list.
  destruct (is_at tokens i DELIMITER "(").
  - pose proof (parse_parameters_raises_iff (List.length tokens) tokens
                  (i + 1) [] e ltac:(lia)) as Hp.
    pose proof (parse_parameters_progress (List.length tokens) tokens
                  (i + 1) [] ltac:(lia)) as [Ht _].
    destruct (parse_parameters _ _ _ _) as [[j ps]|e'|]; cbn [bind];
      [| |congruence].
    + rewrite <- Hp; split; [|discriminate].
      destruct (parse_function_body tokens (j + 1)) as [[ss j']|e'|] eqn:Eb;
        cbn [bind]; try discriminate.
      now apply parse_function_body_never_raises in Eb.
    + rewrite <- Hp; split; congruence.
  - cbn [bind]; split; [|discriminate].
    destruct (parse_function_body tokens i) as [[ss j']|e'|] eqn:Eb;
      cbn [bind]; try discriminate.
    now apply parse_function_body_never_raises in Eb.
Qed.

(** On tokens without the [::] delimiter, [_parse_function] raises
    exactly the error of the header. *)
Lemma _parse_function_raises_iff tokens i e :
  is_at tokens (i + 1) DELIMITER "::" = false ->
  (_parse_function tokens i = Raise e <-> header_error tokens i = Some e).
Proof.
  intros Hcolon; unfold _parse_function, parse_sync_mode, header_error,
    name_position.
  rewrite Hcolon; cbn [andb bind].
  unfold parse_return_type.
  destruct (type_at tokens (i + 1) TYPE) eqn:Et.
  - rewrite (refusal_at_type _ _ Et).
    destruct (TypeInfo_parse _) as [t|e']; cbn [bind];
      [|split; intros [= <-]; reflexivity].
    replace (i + 1 + 1) with (i + 2) by lia.
    unfold parse_name.
    destruct (type_at tokens (i + 2) IDENTIFIER); cbn [bind];
      [|split; intros [= <-]; reflexivity].
    replace (i + 2 + 2) with (i + 2 + 1 + 1) by lia.
    apply (after_name_raises_iff tokens (i + 2 + 1) e
             (fun ps ss => mkFunction _ ps _ ss _)).
  - rewrite (refusal_at_other _ _ Et); cbn [bind]; unfold parse_name.
    destruct (type_at tokens (i + 1) IDENTIFIER); cbn [bind];
      [|split; intros [= <-]; reflexivity].
    replace (i + 1 + 2) with (i + 1 + 1 + 1) by lia.
    apply (after_name_raises_iff tokens (i + 1 + 1) e
             (fun ps ss => mkFunction _ ps _ ss _)).
Qed.

(** One iteration of the builder raises exactly the error of what it
    reads, whatever it has built so far. *)
Lemma build_step_raises_iff tokens i ast ctx e :
  (forall k, is_at tokens k DELIMITER "::" = false) ->
  (fst (build_step tokens i ast ctx) = Raise e
   <-> step_error tokens i = Some e).
Proof.
  intros Hcolon; unfold build_step, step_error.
  destruct (type_at _ i TYPE && type_at _ (i + 1) IDENTIFIER) eqn:E1.
  { apply andb_true_iff in E1 as [E1 _]; rewrite (refusal_at_type _ _ E1).
    destruct (TypeInfo_parse _); simpl; split; congruence. }
  destruct (is_at _ i KEYWORD "function").
  { rewrite <- (_parse_function_raises_iff tokens i e (Hcolon _)).
    destruct (_parse_function _ i) as [[j f]|e'|]; simpl; split; congruence. }
  destruct (type_at _ i IDENTIFIER && _); [destruct (collect_while _ _ _)|];
    simpl; split; discriminate.
Qed.

(** Where an iteration goes does not depend on what was built so far. *)
Lemma build_step_cursor tokens i ast ctx j ast' ctx' :
  build_step tokens i ast ctx = (Ret (j, ast'), ctx') ->
  forall ast2 ctx2,
    exists ast2' ctx2', build_step tokens i ast2 ctx2 = (Ret (j, ast2'), ctx2').
Proof.
  unfold build_step; intros H ast2 ctx2.
  destruct (type_at _ i TYPE && type_at _ (i + 1) IDENTIFIER).
  { destruct (TypeInfo_parse _); [|discriminate].
    injection H as <- _ _; eauto. }
  destruct (is_at _ i KEYWORD "function").
  { destruct (_parse_function _ i) as [[k f]|e'|]; try discriminate.
    injection H as <- _ _; eauto. }
  destruct (type_at _ i IDENTIFIER && _);
    [destruct (collect_while _ _ _)|]; injection H as <- _ _; eauto.
Qed.

(** The loop raises exactly the error of a position it comes to. *)
Lemma build_loop_raises_iff fuel :
  forall tokens i ast ctx e,
    (forall k, is_at tokens k DELIMITER "::" = false) ->
    List.length tokens - i <= fuel ->
    (fst (build_loop fuel tokens i ast ctx) = Raise e
     <-> exists k, reaches tokens i k /\ k < List.length tokens
                   /\ step_error tokens k = Some e).
Proof.
  induction fuel as [|fuel IH]; intros tokens i ast ctx e Hcolon Hfuel;
    cbn [build_loop].
  - assert ((i <? List.length tokens) = false) as Hge
        by (apply Nat.ltb_ge; lia).
    rewrite Hge; split; [discriminate|].
    intros (k & Hr & Hk & _); apply Nat.ltb_ge in Hge.
    inversion Hr; subst; lia.
  - destruct (i <? List.length tokens) eqn:Hlt.
    2:{ split; [discriminate|].
        intros (k & Hr & Hk & _); apply Nat.ltb_ge in Hlt.
        inversion Hr; subst; lia. }
    apply Nat.ltb_lt in Hlt.
    pose proof (build_step_raises_iff tokens i ast ctx) as Hs.
    destruct (build_step_progress tokens i ast ctx) as [T A].
    destruct (build_step tokens i ast ctx) as [[[j ast']|e'|] ctx'] eqn:Eb;
      cbn [fst] in *; [| |congruence].
    + specialize (A _ _ eq_refl).
      rewrite (IH tokens j ast' ctx' e Hcolon ltac:(lia)); split.
      * intros (k & Hr & Hk & He); exists k; split; [|now split].
        eapply reaches_next; eauto.
      * intros (k & Hr & Hk & He).
        inversion Hr as [|i0 j0 k0 a0 c0 a0' c0' _ Hb0 Hr0]; subst.
        -- apply (Hs e Hcolon) in He; discriminate He.
        -- destruct (build_step_cursor _ _ _ _ _ _ _ Hb0 ast ctx)
             as (a2 & c2 & Hb2).
           rewrite Eb in Hb2; injection Hb2 as -> _ _.
           exists k; now split.
    + split.
      * intros [= <-]; exists i; split; [apply reaches_here|split; [lia|]].
        now apply (Hs e' Hcolon).
      * intros (k & Hr & Hk & He).
        inversion Hr as [|i0 j0 k0 a0 c0 a0' c0' _ Hb0 Hr0]; subst.
        -- apply (Hs e Hcolon) in He; congruence.
        -- destruct (build_step_cursor _ _ _ _ _ _ _ Hb0 ast ctx)
             as (a2 & c2 & Hb2).
           rewrite Eb in Hb2; discriminate Hb2.
Qed.

(** The error of a position is the missing name or the error of a
    [TYPE] token of the source. *)
Lemma first_refusal_error l e :
  first_refusal l = Some e ->
  exists t, In t l /\ type t = TYPE /\ TypeInfo_parse (value t) = inr e.
Proof.
  induction l as [|t l IH]; cbn [first_refusal]; [discriminate|].
  destruct (refusal t) as [e'|] eqn:Er.
  - intros [= <-]; exists t; split; [now left|].
    unfold refusal in Er.
    destruct (TokenType_eqb (type t) TYPE) eqn:Et; [|discriminate].
    apply TokenType_eqb_eq in Et.
    destruct (TypeInfo_parse (value t)); [discriminate|].
    now injection Er as ->.
  - intros H; destruct (IH H) as (t' & Hin & Ht); exists t'; split;
      [now right|exact Ht].
Qed.

Lemma take_while_incl p l t : In t (take_while p l) -> In t l.
Proof.
  induction l as [|x l IH]; cbn [take_while]; [intros []|].
  destruct (p x); [|intros []].
  intros [<-|H]; [now left|right; now apply IH].
Qed.

Lemma skipn_incl {A} (l : list A) :
  forall i x, In x (skipn i l) -> In x l.
Proof.
  induction l as [|y l IH]; intros [|i] x; cbn [skipn]; auto.
  intros H; right; eapply IH; eauto.
Qed.

Lemma refusal_at_error tokens i e :
  refusal_at tokens i = Some e -> type_error tokens e.
Proof.
  unfold refusal_at; destruct (nth_error tokens i) as [t|] eqn:En;
    [|discriminate].
  intros H; destruct (first_refusal_error [t] e) as (t' & [<-|[]] & Ht).
  { cbn [first_refusal]; now rewrite H. }
  exists t; split; [eapply nth_error_In; eauto|exact Ht].
Qed.

Lemma step_error_kinds tokens i e :
  step_error tokens i = Some e ->
  e = ExpectedFunctionName \/ type_error tokens e.
Proof.
  unfold step_error, header_error.
  destruct (_ && _); [intros H; right; eapply refusal_at_error; eauto|].
  destruct (is_at tokens i KEYWORD "function"); [|discriminate].
  destruct (refusal_at tokens (i + 1)) as [e'|] eqn:Er.
  { intros [= <-]; right; eapply refusal_at_error; eauto. }
  destruct (type_at tokens (name_position tokens i) IDENTIFIER);
    [|intros [= <-]; now left].
  destruct (is_at tokens (name_position tokens i + 1) DELIMITER "(");
    [|discriminate].
  intros H; right.
  destruct (first_refusal_error _ _ H) as (t & Hin & Ht).
  exists t; split; [|exact Ht].
  eapply skipn_incl, take_while_incl; exact Hin.
Qed.

(** *** Where the generator raises *)

Lemma range_text_raises t :
  match range_text t with inl _ => false | inr _ => true end = unformattable t.
Proof. unfold range_text, unformattable; now destruct (Py.str _). Qed.

Lemma for_each_raises {A B} (f : A -> B + ValueError) (l : list A) :
  (exists e, for_each f l = inr e)
  <-> existsb (fun x => match f x with inl _ => false | inr _ => true end) l
      = true.
Proof.
  induction l as [|x l IH]; cbn [for_each existsb].
  - split; [intros [e H]; discriminate H|discriminate].
  - destruct (f x) as [y|e]; cbn [orb]; [|split; eauto].
    rewrite <- IH; destruct (for_each f l); split; eauto;
      intros [e H]; discriminate H.
Qed.

Lemma existsb_same {A} (f g : A -> bool) (l : list A) :
  (forall x, f x = g x) -> existsb f l = existsb g l.
Proof.
  intros H; induction l as [|x l IH]; cbn [existsb]; [reflexivity|].
  now rewrite H, IH.
Qed.

Lemma declarations_raises variables :
  (exists e, declarations variables = inr e)
  <-> existsb (fun '(_, var) => unformattable (type_info var)) variables = true.
Proof.
  unfold declarations; rewrite for_each_raises.
  erewrite existsb_same; [reflexivity|].
  intros [k var]; unfold _generate_variable_declaration.
  rewrite <- range_text_raises; now destruct (range_text _).
Qed.

Lemma port_text_raises direction t port :
  match port_text direction t port with inl _ => false | inr _ => true end
  = unformattable t.
Proof.
  unfold port_text; rewrite <- range_text_raises; now destruct (range_text _).
Qed.

Lemma module_ports_raises parameters return_type :
  (exists e, module_ports parameters return_type = inr e)
  <-> existsb (fun param => unformattable (type_info param)) parameters
      || match return_type with
         | Some t => unformattable t
         | None => false
         end = true.
Proof.
  unfold module_ports.
  pose proof (for_each_raises
                (fun param => port_text "input" (type_info param) (var_name param))
                parameters) as Hp.
  erewrite existsb_same in Hp
    by (intros x; apply (port_text_raises "input" (type_info x) (var_name x))).
  destruct (for_each _ parameters) as [inputs|e].
  - destruct (existsb _ parameters);
      [destruct Hp as [_ Hp]; destruct (Hp eq_refl) as [e H]; discriminate H|].
    cbn [orb]; destruct return_type as [t|].
    + rewrite <- (port_text_raises "output reg" t "result").
      destruct (port_text _ t _); split; eauto; try discriminate.
      intros [e H]; discriminate H.
    + split; [intros [e H]; discriminate H|discriminate].
  - destruct Hp as [Hp _]; rewrite Hp by eauto; split; eauto.
Qed.

Lemma function_modules_raises functions :
  (exists e, function_modules functions = inr e)
  <-> existsb (fun '(_, func) =>
                 existsb (fun param => unformattable (type_info param))
                         (parameters func)
                 || match return_type func with
                    | Some t => unformattable t
                    | None => false
                    end) functions = true.
Proof.
  unfold function_modules.
  pose proof (for_each_raises
                (fun '(_, func) => _generate_function_module func)
                functions) as Hp.
  erewrite existsb_same in Hp.
  - rewrite <- Hp; destruct (for_each _ functions); split; eauto;
      intros [e H]; discriminate H.
  - intros [k func]; cbn beta iota; unfold _generate_function_module.
    pose proof (module_ports_raises (parameters func) (return_type func)) as Hm.
    destruct (module_ports _ _) as [ports|e].
    + destruct (_ || _); [|reflexivity].
      destruct Hm as [_ Hm]; destruct (Hm eq_refl) as [e H]; discriminate H.
    + destruct Hm as [Hm _]; symmetry; apply Hm; eauto.
Qed.

Lemma generate_verilog_raises ast ctx e :
  fst (generate_verilog ast ctx) = inr e
  <-> e = StrExceedsDigitLimit /\ unformattable_ast ast = true.
Proof.
  split.
  - intros H; split; [exact (token_generate_error _ _ _ H)|].
    unfold unformattable_ast; apply orb_true_iff.
    unfold generate_verilog, main_module_lines in H.
    destruct (declarations _) eqn:Ed.
    + right; apply function_modules_raises.
      destruct (function_modules _); [discriminate H|eauto].
    + left; apply declarations_raises; eauto.
  - intros [-> H]; unfold unformattable_ast in H.
    apply orb_true_iff in H as [H|H].
    + apply declarations_raises in H as [e H].
      rewrite <- (declarations_error _ _ H) at 1.
      unfold generate_verilog, main_module_lines; now rewrite H.
    + apply function_modules_raises in H as [e H].
      pose proof (token_generate_error ast ctx) as He.
      unfold generate_verilog, main_module_lines in *.
      destruct (declarations _); cbn [fst] in *;
        [rewrite H in *; cbn [fst] in *|]; f_equal; now apply He.
Qed.

(** C2, as the code has it. Compiling a source with the token pipeline
    always finishes. It raises [e] exactly when the cursor of the builder
    comes to a position whose error is [e] (a declaration [TYPE
    IDENTIFIER] whose type [TypeInfo.parse] refuses; or the keyword
    [function] of a header whose return type is refused, else that has no
    identifier where its name should be, else whose parameter list has a
    type that is refused), or when the builder returns and a register or
    a port cannot be written because its width less one has more digits
    than [str] formats. The error of a position is the missing name or
    that of a [TYPE] token of the source; a header that the cursor comes
    to and that has no name raises the missing name. [TypeInfo.parse]
    refuses exactly the strings whose [::] suffix is not one of the two
    literals or whose [.] is not followed by one text that [int] accepts,
    and [int] accepts a sign: [int.-5] is a width of -5. *)
Theorem compile_raises_exactly_when (code : string) (ctx : Context) :
  let tokens := tokenize (Py.split (ascii_of_nat 10) (Py.strip code)) in
  fst (parse_code code ctx) <> Timeout
  /\ (forall e,
        fst (parse_code code ctx) = Raise e
        <-> (exists i, visited tokens i /\ i < List.length tokens
                       /\ step_error tokens i = Some e)
            \/ (e = StrExceedsDigitLimit
                /\ exists ast, fst (build_ast tokens ctx) = Ret ast
                               /\ unformattable_ast ast = true))
  /\ (forall i e, step_error tokens i = Some e ->
                  e = ExpectedFunctionName \/ type_error tokens e)
  /\ (forall i, visited tokens i ->
                is_at tokens i KEYWORD "function" = true ->
                refusal_at tokens (i + 1) = None ->
                type_at tokens (name_position tokens i) IDENTIFIER = false ->
                fst (parse_code code ctx) = Raise ExpectedFunctionName)
  /\ (forall type_str,
        (exists e, TypeInfo_parse type_str = inr e)
        <-> bad_sync_mode type_str \/ bad_width type_str)
  /\ TypeInfo_parse "int.-5" = inl (mkTypeInfo "int" (-5) None).
Proof.
  intros tokens.
  assert (forall e,
             fst (parse_code code ctx) = Raise e
             <-> (exists i, visited tokens i /\ i < List.length tokens
                            /\ step_error tokens i = Some e)
                 \/ (e = StrExceedsDigitLimit
                     /\ exists ast, fst (build_ast tokens ctx) = Ret ast
                                    /\ unformattable_ast ast = true)) as Hiff.
  { intros e; unfold parse_code; fold tokens.
    pose proof (build_loop_raises_iff (List.length tokens) tokens 0
                  (mkAST [] [] []) ctx e
                  (no_double_colon _) ltac:(lia)) as H.
    fold (build_ast tokens ctx) in H; fold (visited tokens) in H.
    destruct (build_ast tokens ctx) as [[ast|e'|] ctx']; cbn [fst] in *.
    - pose proof (generate_verilog_raises ast ctx' e) as Hg.
      destruct (generate_verilog ast ctx') as [[verilog|e'] ctx''];
        cbn [fst] in *.
      + split; [discriminate|].
        intros [Hv|[-> (ast2 & [= <-] & Hu)]];
          [apply H in Hv; discriminate Hv|].
        destruct Hg as [_ Hg]; discriminate Hg; now split.
      + split.
        * intros [= <-]; right.
          destruct Hg as [Hg _]; destruct (Hg eq_refl) as [-> Hu].
          split; [reflexivity|]; eauto.
        * intros [Hv|[-> (ast2 & [= <-] & Hu)]];
            [apply H in Hv; discriminate Hv|].
          destruct Hg as [_ Hg]. f_equal; symmetry.
          assert (@inr string _ e' = inr StrExceedsDigitLimit) as [= ->]
              by (apply Hg; now split).
          reflexivity.
    - split.
      + intros [= <-]; left; now apply H.
      + intros [Hv|[_ (ast2 & Hr & _)]]; [|discriminate Hr].
        apply H in Hv; congruence.
    - split; [discriminate|].
      intros [Hv|[_ (ast2 & Hr & _)]]; [|discriminate Hr].
      apply H in Hv; discriminate Hv. }
  split; [|split; [exact Hiff|split; [|split; [|split]]]].
  - unfold parse_code; fold tokens.
    pose proof (build_loop_finishes (List.length tokens) tokens 0
                  (mkAST [] [] []) ctx ltac:(lia)) as H.
    fold (build_ast tokens ctx) in H.
    destruct (build_ast tokens ctx) as [[ast| |] ctx']; cbn [fst] in *;
      try congruence.
    destruct (generate_verilog ast ctx') as [[verilog|e] ctx''];
      discriminate.
  - intros i e; apply step_error_kinds.
  - intros i Hv Hf Hr Hn; apply Hiff; left; exists i.
    split; [exact Hv|split].
    + unfold is_at in Hf.
      destruct (nth_error tokens i) eqn:En; [|discriminate Hf].
      apply nth_error_Some; congruence.
    + unfold step_error, header_error.
      rewrite (type_at_other tokens i KEYWORD TYPE
                 (is_at_type_at _ _ _ _ Hf)) by discriminate.
      cbn [andb]; rewrite Hf, Hr, Hn; reflexivity.
  - exact TypeInfo_parse_fails.
  - reflexivity.
Qed.

Lemma compile_raises_exactly_when_witness :
  fst (parse_code "int.x a;" init) = Raise (InvalidIntLiteral "x").
Proof.
  destruct (compile_raises_exactly_when "int.x a;" init) as (_ & H & _).
  apply H; left; exists 0; split; [apply reaches_here|].
  split; [vm_compute; lia|reflexivity].
Defined.

(** The tokens of a declaration whose width has 4301 digits. *)
Lemma long_width_tokens :
  tokenize (Py.split (ascii_of_nat 10)
                     (Py.strip ("int." ++ times 4301 "1" ++ " a;")))
  = [mkToken TYPE ("int." ++ times 4301 "1") 0 0;
     mkToken IDENTIFIER "a" 0 4306;
     mkToken DELIMITER ";" 0 4307].
Proof. vm_compute; reflexivity. Qed.

(** The three causes the sentence lists do not decide whether compiling
    raises. A negative width is accepted; a type token that the builder
    does not read is never parsed, whatever its width or its [::]
    suffix; a header without name inside the body of another function
    is passed over: none of these sources makes compilation fail. And a
    width that is a non-negative integer, of 4301 digits, makes it
    fail. *)
Lemma listed_causes_do_not_decide :
  (exists verilog, fst (parse_code "int.-5 a;" init) = Ret verilog)
  /\ Py.int "-5" = inl (-5)%Z
  /\ (exists verilog, fst (parse_code "int.x;" init) = Ret verilog)
  /\ bad_width "int.x"
  /\ (exists verilog, fst (parse_code "int::foo;" init) = Ret verilog)
  /\ bad_sync_mode "int::foo"
  /\ (exists verilog,
        fst (parse_code "function f() { function () {} }" init) = Ret verilog)
  /\ fst (parse_code ("int." ++ times 4301 "1" ++ " a;") init)
     = Raise (IntExceedsDigitLimit 4301).
Proof.
  repeat match goal with |- _ /\ _ => split end.
  - vm_compute; eauto.
  - reflexivity.
  - vm_compute; eauto.
  - split; [reflexivity|]. intros base w H; vm_compute in H.
    injection H as <- <-; vm_compute; eauto.
  - vm_compute; eauto.
  - exists "foo"; split; [reflexivity|split; discriminate].
  - vm_compute; eauto.
  - unfold parse_code; cbv zeta.
    set (tokens := tokenize _).
    assert (fst (build_ast tokens init) = Raise (IntExceedsDigitLimit 4301))
      as Hr.
    { unfold build_ast.
      apply (build_loop_raises_iff (List.length tokens) tokens 0
               (mkAST [] [] []) init (IntExceedsDigitLimit 4301)
               (no_double_colon _) ltac:(lia)).
      exists 0; split; [apply reaches_here|].
      unfold tokens; rewrite long_width_tokens.
      split; [cbn [List.length]; lia|].
      unfold step_error, refusal_at, refusal.
      cbn [type_at nth_error Nat.add type value TokenType_eqb andb].
      change ("int." ++ times 4301 "1")%string
        with ("int" ++ "." ++ times 4301 "1")%string.
      rewrite (one_dot_parse "int" (times 4301 "1") eq_refl eq_refl)
        by (apply times_lacks; discriminate).
      rewrite (int_refuses_long_texts 4301 "1" eq_refl (le_n 4301)).
      reflexivity. }
    destruct (build_ast tokens init) as [[ast|e|] ctx']; cbn [fst] in *;
      try discriminate Hr.
    now injection Hr as ->.
Qed.

End Failures.

(** ** The lexer *)

Section Lexer.

Import AdHocRegex.

Lemma span_all p s : all_chars p (span p s) = true.
Proof.
  induction s as [|c s IH]; simpl; [reflexivity|].
  destruct (p c) eqn:E; simpl; [now rewrite E|reflexivity].
Qed.

Lemma span_take p s : Py.take (String.length (span p s)) s = span p s.
Proof.
  induction s as [|c s IH]; simpl; [reflexivity|].
  destruct (p c); simpl; [now rewrite IH|reflexivity].
Qed.

Lemma span_cons p c s : p c = true -> span p (String c s) = String c (span p s).
Proof. intros H; simpl; now rewrite H. Qed.

Lemma startswith_take s p :
  Py.startswith s p = true -> Py.take (String.length p) s = p.
Proof.
  revert s; induction p as [|a p IH]; intros [|b s]; simpl; try congruence.
  intros H; apply andb_true_iff in H as [H1 H2].
  apply Ascii.eqb_eq in H1; subst; now rewrite IH.
Qed.

Lemma take_take n s : Py.take (String.length (Py.take n s)) s = Py.take n s.
Proof.
  revert s; induction n as [|n IH]; intros [|c s]; simpl; try reflexivity.
  now rewrite IH.
Qed.

Lemma drop_next col l c rest :
  Py.drop col l = String c rest -> Py.drop (S col) l = rest.
Proof.
  revert l; induction col as [|col IH]; intros [|d l]; simpl; try discriminate.
  - now intros [= _ ->].
  - apply IH.
Qed.

(** A span over a text that starts with [prefix] keeps the prefix when
    the characters of the prefix pass the test. *)
Lemma span_startswith p s prefix :
  Py.startswith s prefix = true -> all_chars p prefix = true ->
  Py.startswith (span p s) prefix = true.
Proof.
  revert s; induction prefix as [|a prefix IH]; intros s.
  - intros _ _; now destruct (span p s).
  - destruct s as [|b s]; [discriminate|].
    cbn [Py.startswith all_chars]; intros H Hp.
    apply andb_true_iff in H as [H1 H2].
    apply andb_true_iff in Hp as [Hp1 Hp2].
    apply Ascii.eqb_eq in H1; subst b.
    rewrite (span_cons _ _ _ Hp1); cbn [Py.startswith].
    now rewrite Ascii.eqb_refl, IH.
Qed.

Lemma type_prefix_found s :
  _check_type_declaration s = true ->
  exists prefix,
    In prefix ["int"; "signed"; "unsigned"] /\ Py.startswith s prefix = true.
Proof.
  unfold _check_type_declaration; intros H.
  apply existsb_exists in H as (prefix & Hin & H).
  apply andb_true_iff in H as [H _]; eauto.
Qed.

Lemma type_token_classified s :
  _check_type_declaration s = true ->
  let v := _extract_type s in
  (all_chars (fun c => negb (Py.isspace c) && negb (Py.char_in c ";,(){}")) v
   = true
   /\ exists prefix,
        In prefix ["int"; "signed"; "unsigned"]
        /\ Py.startswith v prefix = true)
  /\ v <> EmptyString.
Proof.
  intros H v; destruct (type_prefix_found s H) as (prefix & Hin & Hs).
  assert (Py.startswith v prefix = true) as Hv.
  { apply span_startswith; [exact Hs|].
    simpl in Hin; destruct Hin as [<-|[<-|[<-|[]]]]; reflexivity. }
  split; [split; [apply span_all|eauto]|].
  intros E; rewrite E in Hv.
  simpl in Hin; destruct Hin as [<-|[<-|[<-|[]]]]; discriminate Hv.
Qed.

Lemma keyword_found s keyword :
  _check_keyword s = Some keyword ->
  In keyword ["function"; "if"; "else"; "for"; "while"; "return"]
  /\ Py.startswith s keyword = true.
Proof.
  unfold _check_keyword; intros H; apply find_some in H as [Hin H].
  apply andb_true_iff in H as [H _]; auto.
Qed.

(** Every token of a line is well classified and lies in the line at its
    column. *)
Lemma tokenize_line_tokens l s :
  forall line_idx col_idx skip t,
    Py.drop col_idx l = s ->
    In t (tokenize_line line_idx s col_idx skip) ->
    well_classified t /\ sits_in l line_idx t.
Proof.
  induction s as [|c rest IH]; intros line_idx col_idx skip t Hs Hin;
    [destruct Hin|].
  pose proof (drop_next _ _ _ _ Hs) as Hnext.
  cbn [tokenize_line] in Hin.
  destruct skip as [|k]; [|eapply IH; eauto].
  destruct (Py.isspace c); [eapply IH; now eauto|].
  destruct (_check_type_declaration (String c rest)) eqn:Et.
  { destruct Hin as [<-|Hin]; [|eapply IH; now eauto].
    destruct (type_token_classified _ Et) as [Hc Hne].
    split; [exact Hc|]. unfold sits_in; cbn [line value column].
    rewrite Hs; repeat split; [apply span_take|exact Hne]. }
  destruct (_check_keyword (String c rest)) as [keyword|] eqn:Ek.
  { destruct Hin as [<-|Hin]; [|eapply IH; now eauto].
    destruct (keyword_found _ _ Ek) as [Hin Hst].
    split; [exact Hin|]. unfold sits_in; cbn [line value column].
    rewrite Hs; repeat split; [now apply startswith_take|].
    intros ->; simpl in Hin; intuition discriminate. }
  destruct (Py.isalpha c || Ascii.eqb c "_") eqn:Ea.
  { destruct Hin as [<-|Hin]; [|eapply IH; now eauto].
    assert (Py.isalnum c || Ascii.eqb c "_" = true) as Hw.
    { unfold Py.isalnum; apply orb_true_iff in Ea as [->| ->];
        [reflexivity|now rewrite orb_true_r]. }
    assert (Py.isdigit c = false) as Hd.
    { destruct c as [[] [] [] [] [] [] [] []]; vm_compute in Ea |- *;
        congruence. }
    split.
    - cbn [well_classified type value]; split; [apply span_all|].
      unfold _extract_identifier; rewrite (span_cons _ _ _ Hw); eauto.
    - unfold sits_in; cbn [line value column].
      rewrite Hs; repeat split; [apply span_take|].
      unfold _extract_identifier; rewrite (span_cons _ _ _ Hw); discriminate. }
  destruct (Py.char_in c "=+-*/&|^<>") eqn:Eo.
  { destruct ((2 <=? String.length (String c rest)) && _) eqn:E2.
    - destruct Hin as [<-|Hin]; [|eapply IH; now eauto].
      apply andb_true_iff in E2 as [_ E2].
      apply existsb_exists in E2 as (op & Hop & E2).
      apply String.eqb_eq in E2.
      split.
      + cbn [well_classified type value]; right; rewrite E2.
        simpl in Hop; destruct Hop as [<-|[<-|[<-|[<-|[]]]]];
          try (simpl; now auto).
        (* != would need ! among the operator characters *)
        destruct rest as [|d rest]; [discriminate E2|].
        simpl in E2; injection E2 as -> ->; discriminate Eo.
      + unfold sits_in; cbn [line value column].
        rewrite Hs; repeat split; [apply take_take|].
        rewrite E2; simpl in Hop;
          destruct Hop as [<-|[<-|[<-|[<-|[]]]]]; discriminate.
    - destruct Hin as [<-|Hin]; [|eapply IH; now eauto].
      split; [left; exists c; now split|].
      unfold sits_in; cbn [line value column String.length].
      rewrite Hs; repeat split; discriminate. }
  destruct (Py.char_in c "{}();,") eqn:Ed.
  { destruct Hin as [<-|Hin]; [|eapply IH; now eauto].
    split; [exists c; now split|].
    unfold sits_in; cbn [line value column String.length].
    rewrite Hs; repeat split; discriminate. }
  destruct (Py.isdigit c) eqn:En; [|eapply IH; now eauto].
  destruct Hin as [<-|Hin]; [|eapply IH; now eauto].
  split.
  - cbn [well_classified type value]; split; [apply span_all|].
    unfold _extract_number; rewrite (span_cons _ _ _ En); discriminate.
  - unfold sits_in; cbn [line value column].
    rewrite Hs; repeat split; [apply span_take|].
    unfold _extract_number; rewrite (span_cons _ _ _ En); discriminate.
Qed.

Lemma tokenize_from_tokens lines :
  forall first t,
    In t (tokenize_from first lines) ->
    well_classified t
    /\ exists l, nth_error lines (line t - first) = Some l
                 /\ first <= line t /\ sits_in l (line t) t.
Proof.
  induction lines as [|l rest IH]; intros first t Hin; [destruct Hin|].
  cbn [tokenize_from] in Hin; apply in_app_or in Hin as [Hin|Hin].
  - destruct (Py.strip l); [destruct Hin|].
    destruct (tokenize_line_tokens l l first 0 0 t eq_refl Hin) as [Hc Hs].
    split; [exact Hc|]. exists l.
    destruct Hs as (Hl & H1 & H2).
    split; [now rewrite Hl, Nat.sub_diag|].
    split; [lia|]. unfold sits_in; auto.
  - destruct (IH (S first) t Hin) as (Hc & l' & Hn & Hle & Hs).
    split; [exact Hc|]. exists l'.
    split; [|split; [lia|exact Hs]].
    replace (line t - first) with (S (line t - S first)) by lia.
    exact Hn.
Qed.

Lemma tokens_are_classified_in lines t :
  In t (tokenize lines) -> well_classified t /\ value t <> EmptyString.
Proof.
  intros Hin.
  destruct (tokenize_from_tokens lines 0 t Hin) as (Hc & l & _ & _ & Hs).
  split; [exact Hc|]. now destruct Hs as (_ & _ & H).
Qed.

(** X1. Every token the lexer produces lies in the line whose number it
    records, at the column it records, and is not empty. *)
Theorem tokens_sit_where_they_say (lines : list string) (t : Token) :
  In t (tokenize lines) ->
  exists l,
    nth_error lines (line t) = Some l
    /\ Py.take (String.length (value t)) (Py.drop (column t) l) = value t
    /\ value t <> EmptyString.
Proof.
  intros Hin.
  destruct (tokenize_from_tokens lines 0 t Hin) as (_ & l & Hn & _ & Hs).
  rewrite Nat.sub_0_r in Hn.
  exists l; split; [exact Hn|]. now destruct Hs as (_ & H1 & H2).
Qed.

Lemma tokens_sit_where_they_say_witness :
  exists l,
    nth_error ["int.8 a;"; "a = a + 1;"] 1 = Some l
    /\ Py.take 1 (Py.drop 6 l) = "+"
    /\ "+" <> EmptyString.
Proof.
  apply (tokens_sit_where_they_say ["int.8 a;"; "a = a + 1;"]
           (mkToken OPERATOR "+" 1 6)).
  vm_compute; auto 20.
Defined.

(** X2. The text of every token fits its type: a type token starts with
    one of the three prefixes and holds no space or delimiter, a keyword
    is one of the six, an identifier is made of word characters and does
    not start with a digit, a number is made of digits, a delimiter is
    one of the six single characters, and an operator is one operator
    character or one of [<=], [>=], [==]; the operator [!=] is never
    produced. *)
Theorem tokens_are_well_classified (lines : list string) (t : Token) :
  In t (tokenize lines) ->
  well_classified t /\ value t <> "!=".
Proof.
  intros Hin.
  destruct (tokenize_from_tokens lines 0 t Hin) as (Hc & _).
  split; [exact Hc|].
  intros E; unfold well_classified in Hc; rewrite E in Hc.
  destruct (type t).
  - destruct Hc as (_ & prefix & Hin' & Hs).
    simpl in Hin'; destruct Hin' as [<-|[<-|[<-|[]]]]; discriminate Hs.
  - destruct Hc as (Hc & _); discriminate Hc.
  - destruct Hc as [(c & Hc & _)|Hc]; [discriminate Hc|].
    simpl in Hc; intuition discriminate.
  - destruct Hc as (c & Hc & _); discriminate Hc.
  - simpl in Hc; intuition discriminate.
  - destruct Hc as (Hc & _); discriminate Hc.
Qed.

Lemma tokens_are_well_classified_witness :
  well_classified (mkToken OPERATOR "=" 0 3)
  /\ value (mkToken OPERATOR "=" 0 3) <> "!=".
Proof.
  apply (tokens_are_well_classified ["a != b"]).
  vm_compute; auto.
Defined.

End Lexer.

(** ** What the AST builder keeps *)

Section BuilderInvariants.

Import AdHocRegex.

(** The four ways an iteration of the builder returns. *)
Lemma build_step_cases tokens i ast ctx j ast' ctx' :
  build_step tokens i ast ctx = (Ret (j, ast'), ctx') ->
  (exists ti,
      type_at tokens i TYPE = true
      /\ TypeInfo_parse (value_at tokens i) = inl ti
      /\ let n := value_at tokens (i + 1) in
         j = i + 3
         /\ ast' = mkAST (Py.dict_set (ast_variables ast) n (mkVariable n ti))
                         (ast_functions ast) (ast_statements ast)
         /\ ctx' = set_variables ctx
                     (Py.dict_set (variables ctx) n (mkVariable n ti)))
  \/ (exists f,
        _parse_function tokens i = Ret (j, f)
        /\ ast' = mkAST (ast_variables ast)
                        (Py.dict_set (ast_functions ast) (name f) f)
                        (ast_statements ast)
        /\ ctx' = set_functions ctx (Py.dict_set (functions ctx) (name f) f))
  \/ (exists stmt,
        ast' = mkAST (ast_variables ast) (ast_functions ast)
                     (ast_statements ast ++ [stmt])
        /\ ctx' = ctx)
  \/ (ast' = ast /\ ctx' = ctx).
Proof.
  unfold build_step.
  destruct (type_at tokens i TYPE && type_at tokens (i + 1) IDENTIFIER) eqn:E1.
  { apply andb_true_iff in E1 as [E1 _].
    destruct (TypeInfo_parse _) as [ti|] eqn:Ep; [|discriminate].
    intros H; injection H as <- <- <-; left; exists ti; auto. }
  destruct (is_at tokens i KEYWORD "function").
  { destruct (_parse_function tokens i) as [[k f]| |] eqn:Ef; try discriminate.
    intros H; injection H as <- <- <-; right; left; exists f; auto. }
  destruct (type_at tokens i IDENTIFIER && _).
  { destruct (collect_while _ tokens (i + 2)) as [expr_tokens k].
    intros H; injection H as <- <- <-; right; right; left; eauto. }
  intros H; injection H as <- <- <-; auto.
Qed.

(** A property that every iteration keeps holds of what [build_loop]
    returns. *)
Lemma build_loop_keeps (I : AST -> Context -> Prop) tokens :
  (forall i ast ctx j ast' ctx',
      I ast ctx -> build_step tokens i ast ctx = (Ret (j, ast'), ctx') ->
      I ast' ctx') ->
  forall fuel i ast ctx ast' ctx',
    I ast ctx -> build_loop fuel tokens i ast ctx = (Ret ast', ctx') ->
    I ast' ctx'.
Proof.
  intros Hstep; induction fuel as [|fuel IH]; intros i ast ctx ast' ctx' HI;
    cbn [build_loop].
  - destruct (i <? List.length tokens); [discriminate|].
    now intros [= <- <-].
  - destruct (i <? List.length tokens); [|now intros [= <- <-]].
    destruct (build_step tokens i ast ctx) as [[[j a]| |] c] eqn:Es;
      try discriminate.
    apply IH. eapply Hstep; eauto.
Qed.

Lemma dict_get_set_same {V} (d : Py.dict V) k v :
  Py.dict_get (Py.dict_set d k v) k = Some v.
Proof.
  induction d as [|[k' v'] d IH]; simpl.
  - now rewrite String.eqb_refl.
  - destruct (String.eqb k k') eqn:E; simpl; rewrite E; auto.
Qed.

Lemma dict_get_set_other {V} (d : Py.dict V) k v k' :
  k' <> k -> Py.dict_get (Py.dict_set d k v) k' = Py.dict_get d k'.
Proof.
  intros Hne; induction d as [|[k0 v0] d IH]; simpl.
  - apply String.eqb_neq in Hne; now rewrite Hne.
  - destruct (String.eqb k k0) eqn:E; simpl; [|now rewrite IH].
    apply String.eqb_eq in E; subst k0.
    apply String.eqb_neq in Hne; now rewrite Hne.
Qed.

(** Writing a key keeps the order of the keys: a known key stays where
    it is, a new key goes to the end. *)
Lemma dict_set_keys {V} (d : Py.dict V) k v :
  map fst (Py.dict_set d k v)
  = if existsb (String.eqb k) (map fst d) then map fst d else map fst d ++ [k].
Proof.
  induction d as [|[k' v'] d IH]; simpl; [reflexivity|].
  destruct (String.eqb k k') eqn:E; simpl; [reflexivity|].
  rewrite IH; now destruct (existsb _ _).
Qed.

Lemma dict_set_NoDup {V} (d : Py.dict V) k v :
  NoDup (map fst d) -> NoDup (map fst (Py.dict_set d k v)).
Proof.
  intros H; rewrite dict_set_keys.
  destruct (existsb (String.eqb k) (map fst d)) eqn:E; [exact H|].
  apply NoDup_app; [exact H| |].
  - constructor; [intros []|constructor].
  - intros x Hx [Ex|[]]; subst x.
    assert (existsb (String.eqb k) (map fst d) = true) as Ht
      by (apply existsb_exists; exists k; split;
          [exact Hx|apply String.eqb_refl]).
    congruence.
Qed.

Lemma dict_set_values {V} (P : string -> V -> Prop) (d : Py.dict V) k v :
  P k v -> (forall k' v', In (k', v') d -> P k' v') ->
  forall k' v', In (k', v') (Py.dict_set d k v) -> P k' v'.
Proof.
  intros Hv; induction d as [|[k0 v0] d IH]; intros Hd k' v' Hin; simpl in Hin.
  - destruct Hin as [[= <- <-]|[]]; exact Hv.
  - destruct (String.eqb k k0) eqn:E.
    + apply String.eqb_eq in E; subst k0.
      destruct Hin as [[= <- <-]|Hin]; [exact Hv|].
      apply Hd; now right.
    + destruct Hin as [[= <- <-]|Hin]; [apply Hd; now left|].
      apply IH; [|exact Hin]. intros; apply Hd; now right.
Qed.

(** X3. In the AST that the builder returns no variable name and no
    function name is listed twice, and every entry is filed under its own
    name: the generator writes one register per name and one module per
    function name. *)
Theorem declared_names_are_unique tokens ctx ast ctx' :
  build_ast tokens ctx = (Ret ast, ctx') ->
  NoDup (map fst (ast_variables ast))
  /\ NoDup (map fst (ast_functions ast))
  /\ (forall k v, In (k, v) (ast_variables ast) -> var_name v = k)
  /\ (forall k f, In (k, f) (ast_functions ast) -> name f = k).
Proof.
  unfold build_ast.
  apply (build_loop_keeps
           (fun ast _ =>
              NoDup (map fst (ast_variables ast))
              /\ NoDup (map fst (ast_functions ast))
              /\ (forall k v, In (k, v) (ast_variables ast) -> var_name v = k)
              /\ (forall k f, In (k, f) (ast_functions ast) -> name f = k))).
  - intros i a c j a' c' (N1 & N2 & K1 & K2) Hs.
    apply build_step_cases in Hs
      as [(ti & _ & _ & _ & -> & _)|[(f & _ & -> & _)|[(st & -> & _)|[-> _]]]];
      cbn [ast_variables ast_functions]; repeat split; auto.
    + now apply dict_set_NoDup.
    + apply (dict_set_values (fun k v => var_name v = k)); auto.
    + now apply dict_set_NoDup.
    + apply (dict_set_values (fun k f => name f = k)); auto.
  - simpl; repeat split; try constructor; intros ? ? [].
Qed.

Lemma declared_names_are_unique_witness :
  let tokens := tokenize ["int a;"; "signed.8 a;"; "int b;"] in
  exists ast,
    fst (build_ast tokens init) = Ret ast
    /\ NoDup (map fst (ast_variables ast))
    /\ map fst (ast_variables ast) = ["a"; "b"].
Proof.
  intros tokens.
  destruct (build_ast tokens init) as [r ctx'] eqn:E.
  assert (exists ast, r = Ret ast) as [ast ->]
    by (vm_compute in E; injection E as <- _; eauto).
  exists ast; split; [reflexivity|].
  split; [exact (proj1 (declared_names_are_unique _ _ _ _ E))|].
  vm_compute in E; now injection E as <- _.
Defined.

(** X4. A fresh parser that has built an AST holds in its context the
    same variables and the same functions as the AST, in the same
    order. *)
Theorem context_mirrors_the_ast tokens ast ctx' :
  build_ast tokens init = (Ret ast, ctx') ->
  variables ctx' = ast_variables ast /\ functions ctx' = ast_functions ast.
Proof.
  unfold build_ast.
  apply (build_loop_keeps
           (fun ast ctx =>
              variables ctx = ast_variables ast
              /\ functions ctx = ast_functions ast)).
  - intros i a c j a' c' (V & F) Hs.
    apply build_step_cases in Hs
      as [(ti & _ & _ & _ & -> & ->)|[(f & _ & -> & ->)|[(st & -> & ->)|[-> ->]]]];
      cbn [ast_variables ast_functions variables functions set_variables
           set_functions]; split; congruence.
  - split; reflexivity.
Qed.

Lemma context_mirrors_the_ast_witness :
  exists ast ctx',
    build_ast (tokenize ["int a;"; "function f(int x)"]) init = (Ret ast, ctx')
    /\ variables ctx' = ast_variables ast
    /\ functions ctx' = ast_functions ast.
Proof.
  destruct (build_ast (tokenize ["int a;"; "function f(int x)"]) init)
    as [r ctx'] eqn:E.
  assert (exists ast, r = Ret ast) as [ast ->]
    by (vm_compute in E; injection E as <- _; eauto).
  exists ast, ctx'; split; [reflexivity|].
  exact (context_mirrors_the_ast _ _ _ E).
Defined.

Lemma parse_function_from_source lines i j f :
  _parse_function (tokenize lines) i = Ret (j, f) ->
  default_sync_mode f = CONCURRENT.
Proof.
  unfold _parse_function, parse_sync_mode.
  rewrite no_double_colon; cbn [andb bind].
  destruct (parse_return_type _ _) as [[rt i2]| |]; cbn [bind]; try discriminate.
  destruct (parse_name _ _) as [[nm i3]| |]; cbn [bind]; try discriminate.
  destruct (parse_parameter_list _ _) as [[ps i4]| |]; cbn [bind];
    try discriminate.
  destruct (parse_function_body _ _) as [[ss i5]| |]; cbn [bind];
    try discriminate.
  now intros [= _ <-].
Qed.

(** X5. Every function that the token pipeline builds from a source text
    has the default mode concurrent: the lexer drops the two colons, so
    the word after [function] is never read as a mode. *)
Theorem source_functions_are_concurrent lines ctx ast ctx' :
  build_ast (tokenize lines) ctx = (Ret ast, ctx') ->
  forall k f, In (k, f) (ast_functions ast) ->
              default_sync_mode f = CONCURRENT.
Proof.
  unfold build_ast.
  apply (build_loop_keeps
           (fun ast _ =>
              forall k f, In (k, f) (ast_functions ast) ->
                          default_sync_mode f = CONCURRENT)).
  - intros i a c j a' c' H Hs.
    apply build_step_cases in Hs
      as [(ti & _ & _ & _ & -> & _)|[(f & Hf & -> & _)|[(st & -> & _)|[-> _]]]];
      cbn [ast_functions]; auto.
    apply (dict_set_values (fun _ f => default_sync_mode f = CONCURRENT)); auto.
    eapply parse_function_from_source; eauto.
  - intros ? ? [].
Qed.

Lemma source_functions_are_concurrent_witness :
  exists ast f,
    fst (build_ast
           (tokenize ["function::sequential int.8 inc(int.8 x){ result = x + 1; }"])
           init) = Ret ast
    /\ In ("sequential", f) (ast_functions ast)
    /\ default_sync_mode f = CONCURRENT.
Proof.
  destruct (build_ast
              (tokenize ["function::sequential int.8 inc(int.8 x){ result = x + 1; }"])
              init) as [r ctx'] eqn:E.
  assert (exists ast, r = Ret ast
                      /\ In ("sequential",
                             mkFunction "sequential" [] None [] CONCURRENT)
                            (ast_functions ast)) as (ast & -> & Hin)
    by (vm_compute in E; injection E as <- _; eexists; split;
        [reflexivity|now left]).
  exists ast, (mkFunction "sequential" [] None [] CONCURRENT).
  split; [reflexivity|]. split; [exact Hin|].
  exact (source_functions_are_concurrent _ _ _ _ E _ _ Hin).
Defined.

(** X6. A declaration [TYPE IDENTIFIER] whose type parses moves the cursor
    by three tokens whatever the third one is, and afterwards the name is
    bound to the new variable, every other name is bound as before, and
    the names are in the order they had: a redeclared name keeps its
    place, a new name goes last. *)
Theorem declaration_overwrites tokens i ast ctx ti :
  type_at tokens i TYPE = true ->
  type_at tokens (i + 1) IDENTIFIER = true ->
  TypeInfo_parse (value_at tokens i) = inl ti ->
  let n := value_at tokens (i + 1) in
  exists ast' ctx',
    build_step tokens i ast ctx = (Ret (i + 3, ast'), ctx')
    /\ Py.dict_get (ast_variables ast') n = Some (mkVariable n ti)
    /\ (forall k, k <> n ->
                  Py.dict_get (ast_variables ast') k
                  = Py.dict_get (ast_variables ast) k)
    /\ map fst (ast_variables ast')
       = (if existsb (String.eqb n) (map fst (ast_variables ast))
          then map fst (ast_variables ast)
          else map fst (ast_variables ast) ++ [n])
    /\ ast_functions ast' = ast_functions ast
    /\ ast_statements ast' = ast_statements ast.
Proof.
  intros H1 H2 Hp n; unfold build_step; rewrite H1, H2, Hp; cbn [andb].
  do 2 eexists; split; [reflexivity|]; cbn [ast_variables ast_functions ast_statements].
  split; [apply dict_get_set_same|].
  split; [intros k Hk; now apply dict_get_set_other|].
  split; [apply dict_set_keys|auto].
Qed.

Lemma declaration_overwrites_witness :
  let tokens := tokenize ["signed.8 a int b;"] in
  let ast := mkAST [("a", mkVariable "a" (mkTypeInfo "int" 32 None));
                    ("b", mkVariable "b" (mkTypeInfo "int" 32 None))] [] [] in
  exists ast' ctx',
    build_step tokens 0 ast init = (Ret (3, ast'), ctx')
    /\ Py.dict_get (ast_variables ast') "a"
       = Some (mkVariable "a" (mkTypeInfo "signed" 8 None))
    /\ map fst (ast_variables ast') = ["a"; "b"].
Proof.
  intros tokens ast.
  destruct (declaration_overwrites tokens 0 ast init (mkTypeInfo "signed" 8 None)
              eq_refl eq_refl eq_refl)
    as (ast' & ctx' & H1 & H2 & _ & H3 & _).
  exists ast', ctx'; repeat split; [exact H1|exact H2|exact H3].
Defined.

End BuilderInvariants.

(** ** Expressions of the token pipeline *)

Section Expressions.

Import AdHocRegex.

Lemma all_chars_lacks p c s :
  p c = false -> all_chars p s = true -> lacks c s = true.
Proof.
  intros Hc; apply all_chars_weaken; intros d Hd.
  apply negb_true_iff, Ascii.eqb_neq; congruence.
Qed.

Lemma lacks_join c sep parts :
  lacks c sep = true ->
  Forall (fun part => lacks c part = true) parts ->
  lacks c (Py.join sep parts) = true.
Proof.
  intros Hsep; induction 1 as [|part parts Hp Hps IH]; [reflexivity|].
  destruct parts as [|q parts]; [exact Hp|].
  change (Py.join sep (part :: q :: parts))
    with (part ++ sep ++ Py.join sep (q :: parts))%string.
  now rewrite !lacks_app, Hp, Hsep, IH.
Qed.

(** Splitting at the separator undoes joining with it, for parts that do
    not contain it and a list that is not empty. *)
Lemma split_join sep parts :
  parts <> [] ->
  Forall (fun part => lacks sep part = true) parts ->
  Py.split sep (Py.join (String sep EmptyString) parts) = parts.
Proof.
  intros Hne H; induction H as [|part parts Hp Hps IH]; [congruence|].
  destruct parts as [|q parts]; [now apply split_lacks|].
  change (Py.join (String sep EmptyString) (part :: q :: parts))
    with (part ++ String sep (Py.join (String sep EmptyString) (q :: parts)))%string.
  rewrite (split_app _ _ _ Hp), IH; [reflexivity|discriminate].
Qed.

(** The texts kept in an expression hold none of the characters in
    [stops] that no word character, digit or operator is. *)
Lemma kept_text_lacks c t :
  well_classified t ->
  Py.isalnum c || Ascii.eqb c "_" = false ->
  Py.isdigit c = false ->
  Py.char_in c "=+-*/&|^<>" = false ->
  type t = IDENTIFIER \/ type t = OPERATOR \/ type t = NUMBER ->
  lacks c (value t) = true.
Proof.
  unfold well_classified; intros Hc Hw Hd Ho [E|[E|E]]; rewrite E in Hc.
  - destruct Hc as [Hc _]; exact (all_chars_lacks _ _ _ Hw Hc).
  - destruct Hc as [(d & -> & Hin)|Hin].
    + unfold lacks; cbn [all_chars]; rewrite andb_true_r.
      apply negb_true_iff, Ascii.eqb_neq; congruence.
    + assert (forall a b, Py.char_in a "=+-*/&|^<>" = true ->
                          Py.char_in b "=+-*/&|^<>" = true ->
                          lacks c (String a (String b EmptyString)) = true)
        as Hpair.
      { intros a b Ha Hb; unfold lacks; cbn [all_chars]; rewrite andb_true_r.
        apply andb_true_iff; split; apply negb_true_iff, Ascii.eqb_neq;
          congruence. }
      simpl in Hin; destruct Hin as [<-|[<-|[<-|[]]]]; now apply Hpair.
  - destruct Hc as [Hc _]; exact (all_chars_lacks _ _ _ Hd Hc).
Qed.

Lemma In_skipn {A} (x : A) n l : In x (skipn n l) -> In x l.
Proof.
  revert l; induction n as [|n IH]; intros [|y l]; simpl; auto.
Qed.

Lemma take_while_In p t l : In t (take_while p l) -> In t l /\ p t = true.
Proof.
  induction l as [|y l IH]; simpl; [tauto|].
  destruct (p y) eqn:E; [|intros []].
  intros [<-|H]; [auto|]. destruct (IH H); auto.
Qed.

Lemma expression_parts_lack c tokens :
  Py.isalnum c || Ascii.eqb c "_" = false ->
  Py.isdigit c = false ->
  Py.char_in c "=+-*/&|^<>" = false ->
  Forall (fun t => well_classified t /\ type t <> DELIMITER) tokens ->
  Forall (fun part => lacks c part = true) (expression_parts tokens).
Proof.
  intros Hw Hd Ho; induction 1 as [|t tokens [Hc Ht] _ IH]; [constructor|].
  unfold expression_parts; cbn [flat_map]; apply Forall_app; split; [|exact IH].
  destruct (type t) eqn:E; try constructor; try constructor;
    try congruence; eapply kept_text_lacks; eauto.
Qed.

(** X7. In the AST built from a source text no top-level statement holds
    a parenthesis in its expression: the scan of a top-level assignment
    stops at the first delimiter, so the arguments of a call written at
    top level are cut off. *)
Theorem top_level_expressions_hold_no_call lines ctx ast ctx' :
  build_ast (tokenize lines) ctx = (Ret ast, ctx') ->
  forall target expr,
    In (assignment target expr) (ast_statements ast) ->
    lacks "(" expr = true /\ lacks ")" expr = true.
Proof.
  unfold build_ast.
  apply (build_loop_keeps
           (fun ast _ =>
              forall target expr,
                In (assignment target expr) (ast_statements ast) ->
                lacks "(" expr = true /\ lacks ")" expr = true)).
  2:{ intros ? ? []. }
  intros i a c j a' c' H Hs target expr Hin.
  unfold build_step in Hs.
  destruct (type_at _ i TYPE && type_at _ (i + 1) IDENTIFIER).
  { destruct (TypeInfo_parse _); [|discriminate].
    injection Hs as _ <- _; exact (H _ _ Hin). }
  destruct (is_at _ i KEYWORD "function").
  { destruct (_parse_function _ i) as [[k f]| |]; try discriminate.
    injection Hs as _ <- _; exact (H _ _ Hin). }
  destruct (type_at _ i IDENTIFIER && _).
  2:{ injection Hs as _ <- _; exact (H _ _ Hin). }
  unfold collect_while in Hs; injection Hs as _ <- _.
  cbn [ast_statements] in Hin; apply in_app_or in Hin as [Hin|[Hin|[]]];
    [exact (H _ _ Hin)|].
  injection Hin as _ <-.
  assert (Forall (fun t => well_classified t /\ type t <> DELIMITER)
                 (take_while
                    (fun t => negb (TokenType_eqb (type t) DELIMITER))
                    (skipn (i + 2) (tokenize lines)))) as Hall.
  { apply Forall_forall; intros t Ht.
    apply take_while_In in Ht as [Ht Hp]; apply In_skipn in Ht.
    split; [exact (proj1 (tokens_are_classified_in lines t Ht))|].
    apply negb_true_iff in Hp; intros E; rewrite E in Hp; discriminate Hp. }
  split; apply lacks_join; try reflexivity;
    now apply expression_parts_lack.
Qed.

Lemma top_level_expressions_hold_no_call_witness :
  exists ast,
    fst (build_ast (tokenize ["y = inc(y);"]) init) = Ret ast
    /\ In (assignment "y" "inc") (ast_statements ast)
    /\ lacks "(" "inc" = true /\ lacks ")" "inc" = true.
Proof.
  destruct (build_ast (tokenize ["y = inc(y);"]) init) as [r ctx'] eqn:E.
  assert (exists ast, r = Ret ast
                      /\ In (assignment "y" "inc") (ast_statements ast))
    as (ast & -> & Hin)
    by (vm_compute in E; injection E as <- _; eexists; split;
        [reflexivity|now left]).
  exists ast; split; [reflexivity|]. split; [exact Hin|].
  exact (top_level_expressions_hold_no_call _ _ _ _ E _ _ Hin).
Defined.

(** X8. The expression text written for a list of lexer tokens splits at
    the blanks into exactly the texts of the tokens that are kept
    (identifiers, operators, numbers and parentheses), in their order;
    when no token is kept the text is empty, and splits into one empty
    text. *)
Theorem expression_splits_back tokens :
  Forall well_classified tokens ->
  Py.split " " (_tokens_to_expression tokens)
  = match expression_parts tokens with
    | [] => [EmptyString]
    | parts => parts
    end.
Proof.
  intros Hall.
  change (_tokens_to_expression tokens)
    with (Py.join " " (expression_parts tokens)).
  assert (Forall (fun part => lacks " " part = true) (expression_parts tokens))
    as Hl.
  { induction Hall as [|t tokens Hc _ IH]; [constructor|].
    unfold expression_parts; cbn [flat_map]; apply Forall_app; split;
      [|exact IH].
    destruct (type t) eqn:E; try constructor; try constructor;
      try (apply kept_text_lacks; auto; fail).
    destruct (Py.contains (value t) "()"); constructor; [|constructor].
    unfold well_classified in Hc; rewrite E in Hc.
    destruct Hc as (d & -> & Hd).
    unfold lacks; cbn [all_chars]; rewrite andb_true_r.
    apply negb_true_iff, Ascii.eqb_neq; intros ->; discriminate Hd. }
  destruct (expression_parts tokens) as [|part parts]; [reflexivity|].
  apply split_join; [discriminate|exact Hl].
Qed.

Lemma expression_splits_back_witness :
  Py.split " " "x + ( 1 )" = ["x"; "+"; "("; "1"; ")"].
Proof.
  apply (expression_splits_back
           [mkToken IDENTIFIER "x" 0 0; mkToken OPERATOR "+" 0 2;
            mkToken DELIMITER "(" 0 4; mkToken NUMBER "1" 0 5;
            mkToken DELIMITER ")" 0 6]).
  apply Forall_cons;
      [split; [reflexivity|exists "x"%char, EmptyString; auto]|].
    apply Forall_cons; [left; exists "+"%char; auto|].
    apply Forall_cons; [exists "("%char; auto|].
    apply Forall_cons; [split; [reflexivity|discriminate]|].
    apply Forall_cons; [exists ")"%char; auto|].
    constructor.
Defined.

End Expressions.

(** ** More on type strings *)

Section TypeStrings.

Lemma split_length sep s :
  List.length (Py.split sep s) = S (Py.count sep s).
Proof.
  induction s as [|c s IH]; [reflexivity|].
  cbn [Py.split Py.count]; rewrite (Ascii.eqb_sym sep c).
  destruct (Ascii.eqb c sep); cbn [List.length]; [now rewrite IH|].
  destruct (Py.split sep s); simpl in *; lia.
Qed.

(** X9. After a recognized mode, further [::] segments of a type string
    are ignored. *)
Theorem text_after_the_mode_is_ignored (type_part : string) (m : SyncMode)
    (tail : string) :
  lacks ":" type_part = true ->
  TypeInfo_parse (type_part ++ "::" ++ SyncMode_value m ++ "::" ++ tail)
  = TypeInfo_parse (type_part ++ "::" ++ SyncMode_value m).
Proof.
  intros H; rewrite (parse_suffixed _ _ H); unfold TypeInfo_parse.
  change ("::" ++ SyncMode_value m ++ "::" ++ tail)%string
    with (String ":" (String ":" (SyncMode_value m ++ "::" ++ tail))).
  rewrite (split2_app _ _ _ _ H).
  change (SyncMode_value m ++ "::" ++ tail)%string
    with (SyncMode_value m ++ String ":" (String ":" tail))%string.
  rewrite split2_app by now destruct m.
  cbn [hd]; now rewrite SyncMode_of_value.
Qed.

Lemma text_after_the_mode_is_ignored_witness :
  TypeInfo_parse "int.8::sequential::anything"
  = TypeInfo_parse "int.8::sequential".
Proof.
  exact (text_after_the_mode_is_ignored "int.8" SEQUENTIAL "anything" eq_refl).
Defined.

(** X10. A [::] suffix that is not one of the two literals is reported
    with that text, whatever stands before it: the mode is looked up
    before the width is read. *)
Theorem unknown_mode_is_reported_first (type_part literal : string) :
  lacks ":" type_part = true ->
  lacks ":" literal = true ->
  literal <> "concurrent" -> literal <> "sequential" ->
  TypeInfo_parse (type_part ++ "::" ++ literal)
  = inr (NotAValidSyncMode literal).
Proof.
  intros Ht Hl N1 N2; unfold TypeInfo_parse.
  change ("::" ++ literal)%string with (String ":" (String ":" literal)).
  rewrite (split2_app _ _ _ _ Ht), (split2_lacks _ _ _ Hl).
  unfold SyncMode_of.
  apply String.eqb_neq in N1, N2; now rewrite N1, N2.
Qed.

Lemma unknown_mode_is_reported_first_witness :
  TypeInfo_parse "int.x.y::clocked" = inr (NotAValidSyncMode "clocked").
Proof.
  apply (unknown_mode_is_reported_first "int.x.y" "clocked");
    [reflexivity|reflexivity|discriminate|discriminate].
Defined.

(** X11. A type part with two dots or more cannot be unpacked into base
    and width: parsing raises, whatever the texts between the dots. *)
Theorem two_dots_do_not_unpack (type_part : string) :
  lacks ":" type_part = true ->
  2 <= Py.count "." type_part ->
  TypeInfo_parse type_part = inr TooManyValuesToUnpack.
Proof.
  intros Hc Hn; rewrite (parse_unsuffixed _ Hc).
  pose proof (split_length "." type_part) as Hlen.
  assert (Py.char_in "." type_part = true) as ->.
  { rewrite char_in_lacks; apply negb_true_iff.
    destruct (lacks "." type_part) eqn:E; [|reflexivity].
    rewrite (split_lacks _ _ E) in Hlen; simpl in Hlen; lia. }
  destruct (Py.split "." type_part) as [|a [|b [|c l]]]; simpl in Hlen;
    try lia; reflexivity.
Qed.

Lemma two_dots_do_not_unpack_witness :
  TypeInfo_parse "int.3.2" = inr TooManyValuesToUnpack.
Proof.
  apply two_dots_do_not_unpack; [reflexivity|simpl; lia].
Defined.

(** X12. With one dot and no mode, the width is what [int] makes of the
    text after the dot, and the error is the one of [int]: it names the
    text when [int] finds no literal in it, and gives the number of
    digits when there are more than 4300.  A text of decimal digits is
    read as the number it writes, leading zeros included, when it has at
    most 4300 digits, and is refused when it has more. *)
Theorem width_is_read_by_int (base w : string) :
  lacks "." base = true -> lacks ":" base = true ->
  lacks "." w = true -> lacks ":" w = true ->
  TypeInfo_parse (base ++ "." ++ w)
  = match Py.int w with
    | inl n => inl (mkTypeInfo base n None)
    | inr Py.invalid_literal => inr (InvalidIntLiteral w)
    | inr (Py.exceeds_digit_limit digits) => inr (IntExceedsDigitLimit digits)
    end
  /\ forall d,
       NilEmpty.uint_of_string w = Some d -> d <> Nil ->
       TypeInfo_parse (base ++ "." ++ w)
       = if Py.int_max_str_digits <? String.length w
         then inr (IntExceedsDigitLimit (String.length w))
         else inl (mkTypeInfo base (Z.of_N (N.of_uint d)) None).
Proof.
  intros Hbd Hbc Hwd Hwc.
  pose proof (one_dot_parse base w Hbd Hbc Hwd Hwc) as H.
  split; [exact H|].
  intros d Hd Hnil; rewrite H, (int_reads_decimals w d Hd Hnil).
  now destruct (_ <? _).
Qed.

Lemma width_is_read_by_int_witness :
  TypeInfo_parse "int.+1_6" = inl (mkTypeInfo "int" 16 None)
  /\ TypeInfo_parse "int.007" = inl (mkTypeInfo "int" 7 None)
  /\ TypeInfo_parse "int. 8 " = inl (mkTypeInfo "int" 8 None)
  /\ TypeInfo_parse "int." = inr (InvalidIntLiteral EmptyString)
  /\ TypeInfo_parse "int.1__6" = inr (InvalidIntLiteral "1__6")
  /\ TypeInfo_parse ("int." ++ String (ascii_of_nat 31) "8")
     = inr (InvalidIntLiteral (String (ascii_of_nat 31) "8")).
Proof.
  repeat match goal with |- _ /\ _ => split end.
  - exact (proj1 (width_is_read_by_int "int" "+1_6"
                    eq_refl eq_refl eq_refl eq_refl)).
  - exact (proj2 (width_is_read_by_int "int" "007"
                    eq_refl eq_refl eq_refl eq_refl)
                 (D0 (D0 (D7 Nil))) eq_refl ltac:(discriminate)).
  - exact (proj1 (width_is_read_by_int "int" " 8 "
                    eq_refl eq_refl eq_refl eq_refl)).
  - exact (proj1 (width_is_read_by_int "int" EmptyString
                    eq_refl eq_refl eq_refl eq_refl)).
  - exact (proj1 (width_is_read_by_int "int" "1__6"
                    eq_refl eq_refl eq_refl eq_refl)).
  - exact (proj1 (width_is_read_by_int "int" (String (ascii_of_nat 31) "8")
                    eq_refl eq_refl eq_refl eq_refl)).
Defined.

End TypeStrings.

(** ** Sequential calls of the rule pipeline *)

Section SequentialRecords.

Import Main.

(** The effect of a call whose effective mode is sequential. *)
Lemma generate_call_sequential
    (self : PseudoCToVerilog) (func : ref) (args : string) :
  default_sync_mode (deref self func) = SEQUENTIAL
  \/ (exists i p,
        i < arg_count args
        /\ nth_error (parameters (deref self func)) i = Some p
        /\ sync_mode (type_info p) = Some SEQUENTIAL) ->
  let instance_name :=
    (name (deref self func) ++ "_inst_" ++ Py.str_of_Z (call_counter self))%string in
  _generate_function_call func args self
  = ((instance_name ++ "_result")%string,
     set_sequential_calls self
       (sequential_calls self ++ [(func, instance_name, args)])).
Proof.
  intros H; unfold _generate_function_call.
  assert ((if existsb is_sequential
                (filter (fun param =>
                           index param (parameters (deref self func))
                           <? List.length match args with
                                          | EmptyString => []
                                          | String _ _ => Py.split "," args
                                          end)
                        (parameters (deref self func)))
           then SEQUENTIAL else default_sync_mode (deref self func))
          = SEQUENTIAL) as ->; [|reflexivity].
  destruct H as [H|(i & p & Hi & Hp & Hs)]; [rewrite H; now destruct (existsb _ _)|].
  destruct (existsb _ _) eqn:E; [reflexivity|exfalso].
  replace (List.length match args with
                       | EmptyString => []
                       | String _ _ => Py.split "," args
                       end)
    with (arg_count args) in E by (unfold arg_count; now destruct args).
  exact (proj1 (has_sequential_positional _ _) E i p Hi Hp Hs).
Qed.

(** X13. A call whose effective mode is sequential (the function's
    default is sequential, or a parameter at a position below the number
    of actual arguments is declared sequential) appends exactly one
    record, named after the function and the current counter, keeps the
    raw argument text, and is replaced by the name followed by
    [_result]. *)
Theorem sequential_call_is_recorded
    (self : PseudoCToVerilog) (func : ref) (args : string) :
  default_sync_mode (deref self func) = SEQUENTIAL
  \/ (exists i p,
        i < arg_count args
        /\ nth_error (parameters (deref self func)) i = Some p
        /\ sync_mode (type_info p) = Some SEQUENTIAL) ->
  let instance_name :=
    (name (deref self func) ++ "_inst_" ++ Py.str_of_Z (call_counter self))%string in
  _generate_function_call func args self
  = ((instance_name ++ "_result")%string,
     set_sequential_calls self
       (sequential_calls self ++ [(func, instance_name, args)])).
Proof. exact (generate_call_sequential self func args). Qed.

Lemma sequential_call_is_recorded_witness :
  let self :=
    declare_function init
      (mkFunction "add"
         [mkVariable "x" (mkTypeInfo "int" 32 None);
          mkVariable "y" (mkTypeInfo "int" 32 (Some SEQUENTIAL))]
         None [] CONCURRENT) in
  _generate_function_call 0 "b, counter" self
  = ("add_inst_0_result",
     set_sequential_calls self [(0, "add_inst_0", "b, counter")]).
Proof.
  intros self.
  apply (sequential_call_is_recorded self 0 "b, counter").
  right; exists 1, (mkVariable "y" (mkTypeInfo "int" 32 (Some SEQUENTIAL))).
  repeat split; simpl; lia.
Defined.

(** X14. Two calls in a row to a function whose default mode is
    sequential get the same instance name and are replaced by the same
    text, whatever their arguments: the second record differs from the
    first in its arguments only. *)
Theorem instance_names_repeat
    (self : PseudoCToVerilog) (func : ref) (args1 args2 : string) :
  default_sync_mode (deref self func) = SEQUENTIAL ->
  let '(text1, self1) := _generate_function_call func args1 self in
  let '(text2, self2) := _generate_function_call func args2 self1 in
  text1 = text2
  /\ exists instance_name,
       sequential_calls self2
       = sequential_calls self
         ++ [(func, instance_name, args1); (func, instance_name, args2)].
Proof.
  intros H.
  rewrite (generate_call_sequential self func args1 (or_introl H)).
  set (self1 := set_sequential_calls self _).
  assert (deref self1 func = deref self func) as Hd by reflexivity.
  rewrite (generate_call_sequential self1 func args2)
    by (left; now rewrite Hd).
  rewrite Hd; cbn [call_counter self1 set_sequential_calls sequential_calls].
  split; [reflexivity|]. eexists; now rewrite <- app_assoc.
Qed.

Lemma instance_names_repeat_witness :
  let self :=
    declare_function init (mkFunction "inc" [] None [] SEQUENTIAL) in
  let '(text1, self1) := _generate_function_call 0 "a" self in
  let '(text2, self2) := _generate_function_call 0 "b" self1 in
  text1 = text2
  /\ exists instance_name,
       sequential_calls self2
       = sequential_calls self
         ++ [(0, instance_name, "a"); (0, instance_name, "b")].
Proof.
  intros self.
  exact (instance_names_repeat self 0 "a" "b" eq_refl).
Defined.

End SequentialRecords.

(** ** What the rule pipeline never undoes *)

Section Growth.

Import Main.

Lemma grows_refl a : grows a a.
Proof. repeat split; exists []; now rewrite app_nil_r. Qed.

Lemma grows_trans a b c : grows a b -> grows b c -> grows a c.
Proof.
  intros (R1 & C1 & l1 & S1) (R2 & C2 & l2 & S2); repeat split; try congruence.
  exists (l1 ++ l2); now rewrite S2, S1, app_assoc.
Qed.

Ltac same_records :=
  repeat split; exists []; simpl; now rewrite app_nil_r.

Lemma grows_in_always_block a b : grows a (set_in_always_block a b).
Proof. same_records. Qed.

Lemma grows_statements a r body : grows a (set_statements a r body).
Proof. same_records. Qed.

Lemma grows_call func args self :
  grows self (snd (_generate_function_call func args self)).
Proof.
  unfold _generate_function_call.
  destruct (if existsb _ _ then _ else _); [apply grows_refl|].
  repeat split; eexists; reflexivity.
Qed.

Lemma grows_sub_calls s :
  forall skip self, grows self (snd (sub_calls s skip self)).
Proof.
  induction s as [|c rest IH]; intros skip self; cbn [sub_calls];
    [apply grows_refl|].
  destruct skip as [|k]; [|apply IH].
  destruct (Re.re_match func_call_pattern (String c rest)) as [[g n]|].
  - unfold replace_func_call.
    destruct (Py.dict_get (functions self) (group g 1)) as [func|].
    + pose proof (grows_call func (group g 2) self) as H1.
      destruct (_generate_function_call func (group g 2) self) as [repl self1].
      pose proof (IH (n - 1) self1) as H2.
      destruct (sub_calls rest (n - 1) self1) as [out self2].
      exact (grows_trans _ _ _ H1 H2).
    + pose proof (IH (n - 1) self) as H2.
      now destruct (sub_calls rest (n - 1) self).
  - pose proof (IH 0 self) as H2.
    now destruct (sub_calls rest 0 self).
Qed.

Lemma grows_convert_assignment g self :
  grows self (snd (convert_assignment g self)).
Proof.
  unfold convert_assignment, _convert_expression.
  pose proof (grows_sub_calls (group g 2) 0 self) as H.
  destruct (sub_calls (group g 2) 0 self) as [e self1].
  now destruct (in_always_block self1).
Qed.

Lemma grows_convert rule g self : grows self (snd (convert rule g self)).
Proof.
  destruct rule; cbn [convert].
  - destruct (TypeInfo_parse _); same_records.
  - destruct (match g 1 with Some (String _ _ as m) => SyncMode_of m
                           | _ => inl CONCURRENT end);
      [|same_records].
    destruct (match g 2 with
              | Some (String _ _ as r) =>
                  match TypeInfo_parse r with
                  | inl t => inl (Some t)
                  | inr e => inr e
                  end
              | _ => inl None
              end); [|same_records].
    destruct (match Py.strip (group g 4) with
              | EmptyString => inl []
              | String _ _ => convert_parameters (Py.split "," (group g 4)) []
              end); same_records.
  - pose proof (grows_convert_assignment g self) as H.
    now destruct (convert_assignment g self).
  - same_records.
Qed.

Lemma grows_first_rule rs :
  forall line self, grows self (snd (first_rule rs line self)).
Proof.
  induction rs as [|rule rs IH]; intros line self; cbn [first_rule];
    [apply grows_refl|].
  destruct (Re.re_match (pattern rule) line) as [[g n]|]; [|apply IH].
  pose proof (grows_convert rule g self) as H.
  now destruct (convert rule g self) as [[r| |] self1].
Qed.

Lemma grows_convert_lines fuel :
  forall lines i processed self,
    grows self (snd (convert_lines fuel lines i processed self)).
Proof.
  induction fuel as [|fuel IH]; intros lines i processed self;
    cbn [convert_lines].
  - destruct (i <? List.length lines); apply grows_refl.
  - destruct (i <? List.length lines); [|apply grows_refl].
    destruct (Py.contains _ _ && _ && _).
    + destruct (_parse_block lines i) as [body j].
      eapply grows_trans; [|apply IH].
      destruct (current_function self); [apply grows_statements|apply grows_refl].
    + pose proof (grows_first_rule (rules self)
                    (Py.strip (nth i lines EmptyString)) self) as H.
      destruct (first_rule _ _ self) as [[[[result|]|]| |] self1];
        simpl in H; try exact H; (eapply grows_trans; [exact H|apply IH]).
Qed.

Lemma grows_main_logic_rules rs :
  forall line self, grows self (snd (main_logic_rules rs line self)).
Proof.
  induction rs as [|rule rs IH]; intros line self; cbn [main_logic_rules];
    [apply grows_refl|].
  destruct rule; try apply IH.
  destruct (Re.re_match (pattern AssignmentRule) line) as [[g n]|]; [|apply IH].
  pose proof (grows_convert_assignment g self) as H.
  destruct (convert_assignment g self) as [converted self1].
  destruct (nonempty converted); [exact H|].
  eapply grows_trans; [exact H|apply IH].
Qed.

Lemma grows_main_logic ls :
  forall self, grows self (snd (main_logic ls self)).
Proof.
  induction ls as [|l ls IH]; intros self; cbn [main_logic];
    [apply grows_refl|].
  destruct (nonempty l && _); [|apply IH].
  pose proof (grows_main_logic_rules (rules self) l self) as H.
  destruct (main_logic_rules (rules self) l self) as [converted self1].
  pose proof (IH self1) as H2.
  destruct (main_logic ls self1) as [out self2].
  exact (grows_trans _ _ _ H H2).
Qed.

Lemma grows_body_rules rs :
  forall stmt self, grows self (snd (body_rules rs stmt self)).
Proof.
  induction rs as [|rule rs IH]; intros stmt self; cbn [body_rules];
    [apply grows_refl|].
  destruct rule; try apply IH.
  destruct (Re.re_match (pattern AssignmentRule) stmt) as [[g n]|]; [|apply IH].
  pose proof (grows_convert_assignment g (set_in_always_block self true)) as H.
  destruct (convert_assignment g (set_in_always_block self true))
    as [converted self1].
  exact H.
Qed.

Lemma grows_body_lines stmts :
  forall self, grows self (snd (body_lines stmts self)).
Proof.
  induction stmts as [|stmt stmts IH]; intros self; cbn [body_lines];
    [apply grows_refl|].
  pose proof (grows_body_rules (rules self) stmt self) as H.
  destruct (body_rules (rules self) stmt self) as [converted self1].
  pose proof (IH self1) as H2.
  destruct (body_lines stmts self1) as [out self2].
  exact (grows_trans _ _ _ H H2).
Qed.

Lemma grows_function_modules fs :
  forall self, grows self (snd (function_modules fs self)).
Proof.
  induction fs as [|[k func] fs IH]; intros self; cbn [function_modules];
    [apply grows_refl|].
  unfold _generate_function_module.
  destruct (module_ports _ _); [|apply grows_refl].
  pose proof (grows_body_lines (statements (deref self func)) self) as H.
  destruct (body_lines (statements (deref self func)) self) as [body self1].
  pose proof (IH self1) as H2.
  destruct (function_modules fs self1) as [[out|e] self2];
    exact (grows_trans _ _ _ H H2).
Qed.

Lemma grows_generate_verilog processed self :
  grows self (snd (_generate_verilog processed self)).
Proof.
  unfold _generate_verilog.
  destruct (declarations _); [|apply grows_refl].
  pose proof (grows_main_logic processed (set_in_always_block self true)) as H.
  destruct (main_logic processed (set_in_always_block self true))
    as [logic self1].
  pose proof (grows_function_modules (functions (set_in_always_block self1 false))
                (set_in_always_block self1 false)) as H2.
  destruct (function_modules _ (set_in_always_block self1 false))
    as [[modules|e] self3]; exact (grows_trans _ _ _ H H2).
Qed.

(** X15. Whatever the source and however the run ends, a compilation
    with the rule pipeline leaves the rules and the call counter of the
    converter as they were, and its pending records where they were: it
    only appends to them.  The records of an earlier compilation are
    therefore written again by every later one. *)
Theorem compiling_only_appends_records
    (fuel : nat) (code : string) (self : PseudoCToVerilog) :
  grows self (snd (parse_and_convert fuel code self)).
Proof.
  unfold parse_and_convert.
  pose proof (grows_convert_lines fuel
                (Py.split (ascii_of_nat 10) (Py.strip code)) 0 [] self) as H.
  destruct (convert_lines fuel _ 0 [] self) as [[processed| |] self1];
    try exact H.
  pose proof (grows_generate_verilog processed self1) as H2.
  destruct (_generate_verilog processed self1) as [[verilog|e] self2];
    exact (grows_trans _ _ _ H H2).
Qed.

End Growth.

(** ** Blocks and the end of the line loop *)

Section Blocks.

Import Main.

Lemma parse_block_loop_bounds rest :
  forall i brace_count block,
    let i' := snd (parse_block_loop rest i brace_count block) in
    i <= i' <= i + List.length rest
    /\ (rest <> [] -> (0 < brace_count)%Z -> i < i').
Proof.
  induction rest as [|l rest IH]; intros i bc block; cbn [parse_block_loop].
  - simpl; split; [lia|congruence].
  - destruct (0 <? bc)%Z eqn:E.
    + match goal with
      | |- context [parse_block_loop rest (S i) ?b ?k] =>
          destruct (IH (S i) b k) as [H _]
      end.
      cbn [List.length]; split; [lia|intros _ _; lia].
    + simpl; split; [lia|]. intros _ H; apply Z.ltb_ge in E; lia.
Qed.

(** [_parse_block] returns a line number from [start_idx] to the last
    line, and one after [start_idx] when a line follows it. *)
Lemma _parse_block_bounds lines start_idx :
  start_idx < List.length lines ->
  let j := snd (_parse_block lines start_idx) in
  start_idx <= j <= List.length lines - 1
  /\ (start_idx + 1 < List.length lines -> start_idx < j).
Proof.
  intros Hlt; unfold _parse_block.
  pose proof (parse_block_loop_bounds (skipn (start_idx + 1) lines)
                (start_idx + 1) 1 []) as [Hb Hs].
  destruct (parse_block_loop _ (start_idx + 1) 1 []) as [block i']; simpl in *.
  rewrite length_skipn in Hb.
  split; [lia|]. intros Hmore.
  assert (skipn (start_idx + 1) lines <> []) as Hne.
  { intros E; apply (f_equal (@List.length string)) in E.
    rewrite length_skipn in E; simpl in E; lia. }
  specialize (Hs Hne ltac:(lia)); lia.
Qed.

Lemma convert_never_times_out rule g self :
  fst (convert rule g self) <> Timeout.
Proof.
  destruct rule; cbn [convert].
  - destruct (TypeInfo_parse _); discriminate.
  - destruct (match g 1 with Some (String _ _ as m) => SyncMode_of m
                           | _ => inl CONCURRENT end); [|discriminate].
    destruct (match g 2 with
              | Some (String _ _ as r) =>
                  match TypeInfo_parse r with
                  | inl t => inl (Some t)
                  | inr e => inr e
                  end
              | _ => inl None
              end); [|discriminate].
    destruct (match Py.strip (group g 4) with
              | EmptyString => inl []
              | String _ _ => convert_parameters (Py.split "," (group g 4)) []
              end); discriminate.
  - destruct (convert_assignment g self); discriminate.
  - discriminate.
Qed.

Lemma first_rule_never_times_out rs :
  forall line self, fst (first_rule rs line self) <> Timeout.
Proof.
  induction rs as [|rule rs IH]; intros line self; cbn [first_rule];
    [discriminate|].
  destruct (Re.re_match (pattern rule) line) as [[g n]|]; [|apply IH].
  pose proof (convert_never_times_out rule g self) as H.
  destruct (convert rule g self) as [[r| |] self1]; simpl in *;
    congruence.
Qed.

Lemma convert_lines_never_returns lines :
  opens_block lines (List.length lines - 1) = true ->
  forall fuel i processed self result,
    i < List.length lines ->
    fst (convert_lines fuel lines i processed self) <> Ret result.
Proof.
  intros Hlast; induction fuel as [|fuel IH]; intros i processed self result Hi;
    cbn [convert_lines]; pose proof Hi as Hi'; apply Nat.ltb_lt in Hi';
    rewrite Hi'; [discriminate|].
  fold (opens_block lines i).
  destruct (opens_block lines i) eqn:Eo.
  - pose proof (_parse_block_bounds lines i Hi) as [Hb _].
    destruct (_parse_block lines i) as [body j]; simpl in Hb.
    apply IH; lia.
  - assert (i <> List.length lines - 1) by congruence.
    destruct (first_rule _ _ self) as [[[[r|]|]| |] self1]; simpl;
      try discriminate; apply IH; lia.
Qed.

(** X16. When the last line of the source holds a brace and the line
    before it the word [function], compilation with the rule pipeline
    never returns a text, however many iterations it is given: if no
    earlier line raises, the line loop reads the last line again and
    again. *)
Theorem block_on_the_last_line_never_returns
    (fuel : nat) (code : string) (self : PseudoCToVerilog) :
  let lines := Py.split (ascii_of_nat 10) (Py.strip code) in
  opens_block lines (List.length lines - 1) = true ->
  forall verilog, fst (parse_and_convert fuel code self) <> Ret verilog.
Proof.
  intros lines Hlast verilog; unfold parse_and_convert; fold lines.
  assert (0 < List.length lines) as Hlen.
  { unfold lines; rewrite split_length; lia. }
  pose proof (convert_lines_never_returns lines Hlast fuel 0 [] self) as H.
  destruct (convert_lines fuel lines 0 [] self) as [[processed| |] self1];
    simpl in *; try discriminate.
  exfalso; exact (H processed Hlen eq_refl).
Qed.

Lemma block_on_the_last_line_never_returns_witness :
  fst (parse_and_convert 1000
         ("function f(int a){ x = a; }" ++ nl ++ "function g(int b){ y = b; }")
         init) <> Ret EmptyString.
Proof.
  apply (block_on_the_last_line_never_returns 1000
           ("function f(int a){ x = a; }" ++ nl ++ "function g(int b){ y = b; }")
           init).
  vm_compute; reflexivity.
Defined.

Lemma convert_lines_finishes lines :
  opens_block lines (List.length lines - 1) = false ->
  forall fuel i processed self,
    List.length lines - i <= fuel ->
    fst (convert_lines fuel lines i processed self) <> Timeout.
Proof.
  intros Hlast; induction fuel as [|fuel IH]; intros i processed self Hfuel;
    cbn [convert_lines]; destruct (i <? List.length lines) eqn:Hi;
    try discriminate; apply Nat.ltb_lt in Hi; [lia|].
  fold (opens_block lines i).
  destruct (opens_block lines i) eqn:Eo.
  - assert (i <> List.length lines - 1) by congruence.
    pose proof (_parse_block_bounds lines i Hi) as [_ Hb].
    destruct (_parse_block lines i) as [body j]; simpl in Hb.
    apply IH; specialize (Hb ltac:(lia)); lia.
  - pose proof (first_rule_never_times_out (rules self)
                  (Py.strip (nth i lines EmptyString)) self) as Hr.
    destruct (first_rule _ _ self) as [[[[r|]|]| |] self1]; simpl in *;
      try discriminate; try congruence; apply IH; lia.
Qed.

(** X17. In every other case compilation with the rule pipeline ends,
    with a text or an error, within as many iterations as the source has
    lines. *)
Theorem other_sources_compile_to_an_end
    (fuel : nat) (code : string) (self : PseudoCToVerilog) :
  let lines := Py.split (ascii_of_nat 10) (Py.strip code) in
  opens_block lines (List.length lines - 1) = false ->
  List.length lines <= fuel ->
  fst (parse_and_convert fuel code self) <> Timeout.
Proof.
  intros lines Hlast Hfuel; unfold parse_and_convert; fold lines.
  pose proof (convert_lines_finishes lines Hlast fuel 0 [] self ltac:(lia)) as H.
  destruct (convert_lines fuel lines 0 [] self) as [[processed| |] self1];
    simpl in *; try congruence.
  destruct (_generate_verilog processed self1) as [[verilog|e] self2];
    discriminate.
Qed.

Lemma other_sources_compile_to_an_end_witness :
  fst (parse_and_convert 2 inc_example init) <> Timeout.
Proof.
  apply (other_sources_compile_to_an_end 2 inc_example init);
    [vm_compute; reflexivity|vm_compute; lia].
Defined.

Lemma skipn_past {A} (pre : list A) x rest :
  skipn (List.length pre + 1) (pre ++ x :: rest) = rest.
Proof. induction pre; simpl; auto. Qed.

Lemma parse_block_loop_body body :
  forall closing rest i block,
    Forall (fun l => Py.count "{" (Py.strip l) = 0
                     /\ Py.count "}" (Py.strip l) = 0) body ->
    Py.count "{" (Py.strip closing) = 0 ->
    1 <= Py.count "}" (Py.strip closing) ->
    parse_block_loop (body ++ closing :: rest) i 1 block
    = (block ++ map Py.strip body, i + List.length body + 1).
Proof.
  induction body as [|l body IH]; intros closing rest i block Hbody Ho Hc.
  - rewrite app_nil_l; cbn [parse_block_loop map List.length]; cbv zeta;
      rewrite Ho.
    change (0 <? 1)%Z with true; cbv iota.
    assert ((0 <? 1 + Z.of_nat 0 - Z.of_nat (Py.count "}" (Py.strip closing)))%Z
            = false) as E by (apply Z.ltb_ge; lia).
    rewrite E, app_nil_r, Nat.add_0_r, Nat.add_1_r.
    destruct rest; cbn [parse_block_loop]; [reflexivity|now rewrite E].
  - inversion Hbody as [|? ? [H1 H2] Hrest]; subst.
    rewrite <- app_comm_cons; cbn [parse_block_loop map List.length];
      cbv zeta; rewrite H1, H2.
    change (0 <? 1)%Z with true; cbv iota.
    change (1 + Z.of_nat 0 - Z.of_nat 0)%Z with 1%Z.
    change (0 <? 1)%Z with true; cbv iota.
    rewrite (IH closing rest (S i) _ Hrest Ho Hc), <- app_assoc.
    f_equal; lia.
Qed.

(** X18. For a body whose lines hold no brace, followed by a line that
    closes it, [_parse_block] returns the stripped lines of the body and
    the number of the closing line. *)
Theorem parse_block_reads_a_plain_body
    (pre : list string) (header : string) (body : list string)
    (closing : string) (rest : list string) :
  Forall (fun l => Py.count "{" (Py.strip l) = 0
                   /\ Py.count "}" (Py.strip l) = 0) body ->
  Py.count "{" (Py.strip closing) = 0 ->
  1 <= Py.count "}" (Py.strip closing) ->
  _parse_block (pre ++ header :: body ++ closing :: rest) (List.length pre)
  = (map Py.strip body, List.length pre + List.length body + 1).
Proof.
  intros Hbody Ho Hc; unfold _parse_block.
  rewrite skipn_past, (parse_block_loop_body body closing rest _ [] Hbody Ho Hc).
  cbn [app]; f_equal; lia.
Qed.

Lemma parse_block_reads_a_plain_body_witness :
  _parse_block ["int a;"; "function f(int x) {"; "  y = x;"; "  z = y;"; "}";
                "a = 1;"] 1
  = (["y = x;"; "z = y;"], 4).
Proof.
  apply (parse_block_reads_a_plain_body ["int a;"] "function f(int x) {"
           ["  y = x;"; "  z = y;"] "}" ["a = 1;"]).
  - repeat constructor.
  - reflexivity.
  - simpl; lia.
Defined.

End Blocks.

(** ** Call patterns in expressions *)

Section CallPattern.

Import Re Main.

Lemma star_greedy_some {R} p s (k : string -> option R) x :
  star_greedy p s k = Some x ->
  exists pre s',
    s = (pre ++ s')%string /\ all_chars p pre = true /\ k s' = Some x.
Proof.
  induction s as [|c s IH]; cbn [star_greedy]; intros H.
  - exists EmptyString, EmptyString; auto.
  - destruct (p c) eqn:Ec; [|exists EmptyString, (String c s); auto].
    destruct (star_greedy p s k) as [y|] eqn:E.
    + injection H as <-.
      destruct (IH eq_refl) as (pre & s' & -> & Hp & Hk).
      exists (String c pre), s'; cbn [all_chars]; rewrite Ec; auto.
    + exists EmptyString, (String c s); auto.
Qed.

Lemma star_lazy_some {R} p s (k : string -> option R) x :
  star_lazy p s k = Some x ->
  exists pre s',
    s = (pre ++ s')%string /\ all_chars p pre = true /\ k s' = Some x.
Proof.
  induction s as [|c s IH]; cbn [star_lazy]; intros H.
  - destruct (k EmptyString) eqn:E; [|discriminate].
    exists EmptyString, EmptyString; rewrite E; auto.
  - destruct (k (String c s)) eqn:E.
    + exists EmptyString, (String c s); rewrite E; auto.
    + destruct (p c) eqn:Ec; [|discriminate].
      destruct (IH H) as (pre & s' & -> & Hp & Hk).
      exists (String c pre), s'; cbn [all_chars]; rewrite Ec; auto.
Qed.

Lemma length_append a b :
  String.length (a ++ b) = String.length a + String.length b.
Proof. induction a; simpl; auto. Qed.

Lemma take_append a b : Py.take (String.length a) (a ++ b) = a.
Proof. induction a; simpl; [now destruct b|congruence]. Qed.

Lemma drop_append a b : Py.drop (String.length a) (a ++ b) = b.
Proof. induction a; simpl; [now destruct b|auto]. Qed.

Lemma take_drop n s : (Py.take n s ++ Py.drop n s)%string = s.
Proof.
  revert s; induction n as [|n IH]; intros [|c s]; simpl; try reflexivity.
  now rewrite IH.
Qed.

(** What a match of the call pattern is made of: a word, an opening
    parenthesis, a text without line break, a closing parenthesis. *)
Lemma call_match s g n :
  re_match func_call_pattern s = Some (g, n) ->
  exists w a rest,
    s = (w ++ "(" ++ a ++ ")" ++ rest)%string
    /\ group g 1 = w /\ group g 2 = a
    /\ n = String.length (w ++ "(" ++ a ++ ")")
    /\ w <> EmptyString
    /\ all_chars word w = true /\ all_chars dot a = true.
Proof.
  unfold re_match, func_call_pattern; cbn [run].
  destruct s as [|d s1]; [discriminate|].
  destruct (word d) eqn:Ed; [|discriminate].
  intros H; apply star_greedy_some in H as (pre & s' & -> & Hpre & H).
  destruct s' as [|d2 s2]; [discriminate|].
  destruct (Ascii.eqb "(" d2) eqn:E2; [|discriminate].
  apply Ascii.eqb_eq in E2; subst d2.
  apply star_lazy_some in H as (a & s3 & -> & Ha & H).
  destruct s3 as [|d3 rest]; [discriminate|].
  destruct (Ascii.eqb ")" d3) eqn:E3; [|discriminate].
  apply Ascii.eqb_eq in E3; subst d3.
  injection H as <- <-.
  exists (String d pre), a, rest.
  assert (forall x y, String.length (x ++ y) - String.length y = String.length x)
    as Hsub by (intros; rewrite length_append; lia).
  assert (String d (pre ++ String "(" (a ++ String ")" rest))
          = ((String d pre ++ "(" ++ a ++ ")") ++ rest)%string) as Hwhole
    by (repeat first [rewrite append_assoc | progress cbn [String.append]];
        reflexivity).
  split; [reflexivity|].
  split.
  { unfold group, set_group; cbn [Nat.eqb].
    replace (String.length (pre ++ String "(" (a ++ String ")" rest))
             - String.length (a ++ String ")" rest))
      with (String.length (String d pre))
      by (rewrite length_append; cbn [String.length]; lia).
    exact (take_append (String d pre) _). }
  split.
  { unfold group, set_group; cbn [Nat.eqb].
    replace (String.length (a ++ String ")" rest) - S (String.length rest))
      with (String.length a)
      by (rewrite length_append; cbn [String.length]; lia).
    apply take_append. }
  split.
  { rewrite <- (Hsub (String d pre ++ "(" ++ a ++ ")")%string rest).
    rewrite <- Hwhole. reflexivity. }
  split; [discriminate|].
  split; [cbn [all_chars]; now rewrite Ed|exact Ha].
Qed.

Lemma call_match_text s g n :
  re_match func_call_pattern s = Some (g, n) ->
  Py.take n s = (group g 1 ++ "(" ++ group g 2 ++ ")")%string
  /\ 1 <= n
  /\ lacks "(" s = false.
Proof.
  intros H.
  destruct (call_match _ _ _ H) as (w & a & rest & -> & -> & -> & -> & Hw & _).
  split; [|split].
  - replace (w ++ "(" ++ a ++ ")" ++ rest)%string
      with ((w ++ "(" ++ a ++ ")") ++ rest)%string
      by (repeat first [rewrite append_assoc | progress cbn [String.append]];
          reflexivity).
    apply take_append.
  - destruct w; [congruence|cbn [String.append String.length]; lia].
  - rewrite lacks_app.
    replace (lacks "(" ("(" ++ a ++ ")" ++ rest)) with false by reflexivity.
    apply andb_false_r.
Qed.

Lemma lacks_tail c d s : lacks c (String d s) = true -> lacks c s = true.
Proof. unfold lacks; cbn [all_chars]; intros H; now apply andb_true_iff in H. Qed.

Lemma sub_calls_without_parenthesis s self :
  lacks "(" s = true -> sub_calls s 0 self = (s, self).
Proof.
  induction s as [|c s IH]; intros H; [reflexivity|].
  cbn [sub_calls].
  destruct (re_match func_call_pattern (String c s)) as [[g n]|] eqn:E.
  - apply call_match_text in E as (_ & _ & E). congruence.
  - now rewrite (IH (lacks_tail _ _ _ H)).
Qed.

(** X19. An expression without an opening parenthesis passes through the
    conversion of calls unchanged, and the converter is left as it was,
    whatever functions have been declared. *)
Theorem expression_without_parenthesis_is_kept
    (expr : string) (self : PseudoCToVerilog) :
  lacks "(" expr = true ->
  _convert_expression expr self = (expr, self).
Proof. apply sub_calls_without_parenthesis. Qed.

Lemma expression_without_parenthesis_is_kept_witness :
  lacks "(" "a + b_2 * 3" = true
  /\ _convert_expression "a + b_2 * 3" init = ("a + b_2 * 3"%string, init).
Proof.
  split; [reflexivity|].
  apply expression_without_parenthesis_is_kept; reflexivity.
Defined.

Lemma generate_call_concurrent self func args :
  default_sync_mode (deref self func) = CONCURRENT ->
  (forall p, In p (parameters (deref self func)) ->
             sync_mode (type_info p) <> Some SEQUENTIAL) ->
  _generate_function_call func args self
  = ((name (deref self func) ++ "(" ++ args ++ ")")%string, self).
Proof.
  intros Hdef Hpar; unfold _generate_function_call.
  assert (forall n,
            existsb is_sequential
              (filter (fun p => index p (parameters (deref self func)) <? n)
                      (parameters (deref self func))) = false) as Hn.
  { intros n; apply has_sequential_positional.
    intros i p _ Hp; apply Hpar; eapply nth_error_In; eauto. }
  now rewrite Hn, Hdef.
Qed.

Lemma sub_calls_all_concurrent self :
  all_concurrent self ->
  forall s skip, sub_calls s skip self = (Py.drop skip s, self).
Proof.
  intros Hall; induction s as [|c s IH]; intros skip.
  - now destruct skip.
  - cbn [sub_calls]; destruct skip as [|k]; [|now rewrite IH].
    destruct (re_match func_call_pattern (String c s)) as [[g n]|] eqn:E.
    + apply call_match_text in E as (Etext & Hn & _).
      assert (replace_func_call g (Py.take n (String c s)) self
              = (Py.take n (String c s), self)) as ->.
      { unfold replace_func_call.
        destruct (Py.dict_get (functions self) (group g 1)) as [func|] eqn:Ef;
          [|reflexivity].
        destruct (Hall _ _ Ef) as (Hname & Hdef & Hpar).
        rewrite (generate_call_concurrent _ _ _ Hdef Hpar), Hname.
        now rewrite Etext. }
      rewrite IH.
      destruct n as [|n]; [lia|].
      replace (S n - 1) with n by lia.
      change (Py.drop n s) with (Py.drop (S n) (String c s)).
      now rewrite take_drop.
    + now rewrite IH.
Qed.

(** X20. While every declared function is filed under its own name, is
    concurrent by default and has no sequential parameter, the conversion
    of calls returns every expression unchanged, calls included, and
    leaves the converter as it was: the text put in place of a call is
    the text of the call. *)
Theorem concurrent_functions_leave_expressions_alone
    (expr : string) (self : PseudoCToVerilog) :
  all_concurrent self ->
  _convert_expression expr self = (expr, self).
Proof.
  intros H; unfold _convert_expression.
  now rewrite (sub_calls_all_concurrent self H).
Qed.

Lemma concurrent_functions_leave_expressions_alone_witness :
  let self :=
    declare_function init
      (mkFunction "add"
         [mkVariable "a" (mkTypeInfo "int" 32 None);
          mkVariable "b" (mkTypeInfo "int" 32 None)]
         (Some (mkTypeInfo "int" 32 None)) [] CONCURRENT) in
  all_concurrent self
  /\ _convert_expression "add(x, y) + g(1)" self
     = ("add(x, y) + g(1)"%string, self).
Proof.
  intros self.
  assert (all_concurrent self) as H.
  { intros fname func; cbn.
    destruct (String.eqb fname "add") eqn:E; [|discriminate].
    apply String.eqb_eq in E; subst fname.
    intros Hf; injection Hf as <-.
    repeat split.
    intros p [<-|[<-|[]]]; discriminate. }
  split; [exact H|].
  apply concurrent_functions_leave_expressions_alone; exact H.
Defined.

End CallPattern.

(** ** The second pass over the processed lines *)

Section SecondPass.

Import Re Main.

Lemma word_is_no_space c :
  word c = true -> space c = false /\ Ascii.eqb "=" c = false.
Proof.
  destruct c as [[] [] [] [] [] [] [] []]; intros H; vm_compute in H;
    try discriminate H; split; reflexivity.
Qed.

Lemma operator_is_no_space c :
  Py.char_in c "&|^" = true -> space c = false /\ Ascii.eqb "=" c = false.
Proof.
  destruct c as [[] [] [] [] [] [] [] []]; intros H; vm_compute in H;
    try discriminate H; split; reflexivity.
Qed.

Lemma star_greedy_none_heads {R} p w t (k : string -> option R) :
  all_chars p w = true ->
  star_greedy p t k = None ->
  (forall c s, p c = true -> k (String c s) = None) ->
  star_greedy p (w ++ t) k = None.
Proof.
  intros Hw Ht Hk; induction w as [|c w IH]; [exact Ht|].
  cbn [all_chars] in Hw; apply andb_true_iff in Hw as [Hc Hw].
  cbn [String.append star_greedy]; rewrite Hc, (IH Hw).
  now apply Hk.
Qed.

(** A text that goes on, after a word and one space, with a character that
    is neither a space nor [=] is no assignment. *)
Lemma assignment_not_matched w c rest :
  all_chars word w = true ->
  space c = false -> Ascii.eqb "=" c = false ->
  re_match (pattern AssignmentRule) (w ++ String " " (String c rest)) = None.
Proof.
  intros Hw Hs He.
  unfold re_match; cbn [pattern run].
  destruct w as [|d w]; [reflexivity|].
  cbn [all_chars] in Hw; apply andb_true_iff in Hw as [Hd Hw].
  cbn [String.append]; rewrite Hd.
  apply star_greedy_none_heads; [exact Hw| |].
  - cbn [star_greedy]. change (word " ") with false. cbn beta iota.
    cbn [star_greedy]. change (space " ") with true. rewrite Hs.
    cbn beta iota. rewrite He. reflexivity.
  - intros d' s' Hd'. cbn [star_greedy].
    destruct (word_is_no_space _ Hd') as [-> ->]. reflexivity.
Qed.

Lemma take_length_diff x y :
  Py.take (String.length (x ++ y) - String.length y) (x ++ y) = x.
Proof.
  replace (String.length (x ++ y) - String.length y) with (String.length x)
    by (rewrite length_append; lia).
  apply take_append.
Qed.

(** The first group of a matched assignment is a word. *)
Lemma assignment_match line g n :
  re_match (pattern AssignmentRule) line = Some (g, n) ->
  exists d w,
    group g 1 = String d w /\ word d = true /\ all_chars word w = true.
Proof.
  unfold re_match; cbn [pattern run].
  destruct line as [|d s1]; [discriminate|].
  destruct (word d) eqn:Ed; [|discriminate].
  intros H; apply star_greedy_some in H as (pre & s' & -> & Hpre & H).
  apply star_greedy_some in H as (sp1 & s2 & -> & _ & H).
  destruct s2 as [|e s3]; [discriminate|].
  destruct (Ascii.eqb "=" e); [|discriminate].
  apply star_greedy_some in H as (sp2 & s4 & -> & _ & H).
  destruct s4 as [|f s5]; [discriminate|].
  destruct (negb (Ascii.eqb f ";")); [|discriminate].
  apply star_greedy_some in H as (body & s6 & -> & _ & H).
  destruct s6 as [|h s7]; [discriminate|].
  destruct (Ascii.eqb ";" h); [|discriminate].
  apply (f_equal matched_groups) in H; cbn [matched_groups] in H; subst g.
  exists d, pre; repeat split; [|exact Ed|exact Hpre].
  unfold group, set_group; cbn [Nat.eqb].
  exact (take_length_diff (String d pre) _).
Qed.

(** The text made of a matched operator line: a word, a space, an
    operator. *)
Lemma bitwise_match line g n :
  re_match (pattern BitwiseOperatorRule) line = Some (g, n) ->
  exists w c,
    group g 1 = w /\ all_chars word w = true
    /\ group g 2 = String c EmptyString /\ Py.char_in c "&|^" = true.
Proof.
  unfold re_match; cbn [pattern run].
  destruct line as [|d s1]; [discriminate|].
  destruct (word d) eqn:Ed; [|discriminate].
  intros H; apply star_greedy_some in H as (pre & s' & -> & Hpre & H).
  apply star_greedy_some in H as (sp1 & s2 & -> & _ & H).
  destruct s2 as [|c s3]; [discriminate|].
  destruct (Py.char_in c "&|^") eqn:Ec; [|discriminate].
  apply star_greedy_some in H as (sp2 & s4 & -> & _ & H).
  destruct s4 as [|f s5]; [discriminate|].
  destruct (word f); [|discriminate].
  apply star_greedy_some in H as (r & s6 & -> & _ & H).
  apply (f_equal matched_groups) in H; cbn [matched_groups] in H; subst g.
  exists (String d pre), c.
  unfold group, set_group; cbn [Nat.eqb].
  split; [exact (take_length_diff (String d pre) _)|].
  split; [cbn [all_chars]; now rewrite Ed|].
  split; [|exact Ec].
  exact (take_length_diff (String c EmptyString) _).
Qed.

Lemma steady_call func args self :
  rules (snd (_generate_function_call func args self)) = rules self
  /\ in_always_block (snd (_generate_function_call func args self))
     = in_always_block self.
Proof.
  unfold _generate_function_call.
  destruct (if existsb _ _ then _ else _); split; reflexivity.
Qed.

Lemma steady_sub_calls s :
  forall skip self,
    rules (snd (sub_calls s skip self)) = rules self
    /\ in_always_block (snd (sub_calls s skip self)) = in_always_block self.
Proof.
  induction s as [|c rest IH]; intros skip self; cbn [sub_calls];
    [split; reflexivity|].
  destruct skip as [|k]; [|apply IH].
  destruct (re_match func_call_pattern (String c rest)) as [[g n]|].
  - unfold replace_func_call.
    destruct (Py.dict_get (functions self) (group g 1)) as [func|].
    + pose proof (steady_call func (group g 2) self) as [R1 F1].
      destruct (_generate_function_call func (group g 2) self) as [repl self1].
      pose proof (IH (n - 1) self1) as [R2 F2].
      destruct (sub_calls rest (n - 1) self1) as [out self2].
      cbn [snd] in *; split; congruence.
    + pose proof (IH (n - 1) self) as H2.
      now destruct (sub_calls rest (n - 1) self).
  - pose proof (IH 0 self) as H2.
    now destruct (sub_calls rest 0 self).
Qed.

Lemma steady_convert rule g self :
  rules (snd (convert rule g self)) = rules self
  /\ in_always_block (snd (convert rule g self)) = in_always_block self.
Proof.
  destruct rule; cbn [convert].
  - destruct (TypeInfo_parse _); split; reflexivity.
  - destruct (match g 1 with Some (String _ _ as m) => SyncMode_of m
                           | _ => inl CONCURRENT end);
      [|split; reflexivity].
    destruct (match g 2 with
              | Some (String _ _ as r) =>
                  match TypeInfo_parse r with
                  | inl t => inl (Some t)
                  | inr e => inr e
                  end
              | _ => inl None
              end); [|split; reflexivity].
    destruct (match Py.strip (group g 4) with
              | EmptyString => inl []
              | String _ _ => convert_parameters (Py.split "," (group g 4)) []
              end); split; reflexivity.
  - unfold convert_assignment, _convert_expression.
    pose proof (steady_sub_calls (group g 2) 0 self) as H.
    destruct (sub_calls (group g 2) 0 self) as [e self1].
    now destruct (in_always_block self1).
  - split; reflexivity.
Qed.

(** The text a rule puts in place of a line is out of the reach of the
    assignment rule. *)
Lemma convert_result_is_settled rule line g n self result self1 :
  in_always_block self = false ->
  re_match (pattern rule) line = Some (g, n) ->
  convert rule g self = (Ret (Some result), self1) ->
  re_match (pattern AssignmentRule) result = None.
Proof.
  intros Hflag Hm; destruct rule; cbn [convert].
  - destruct (TypeInfo_parse _); discriminate.
  - destruct (match g 1 with Some (String _ _ as m) => SyncMode_of m
                           | _ => inl CONCURRENT end);
      [|discriminate].
    destruct (match g 2 with
              | Some (String _ _ as r) =>
                  match TypeInfo_parse r with
                  | inl t => inl (Some t)
                  | inr e => inr e
                  end
              | _ => inl None
              end); [|discriminate].
    destruct (match Py.strip (group g 4) with
              | EmptyString => inl []
              | String _ _ => convert_parameters (Py.split "," (group g 4)) []
              end); discriminate.
  - unfold convert_assignment, _convert_expression.
    pose proof (steady_sub_calls (group g 2) 0 self) as [_ F].
    destruct (sub_calls (group g 2) 0 self) as [e self2]; cbn [snd] in F.
    rewrite F, Hflag.
    destruct (assignment_match _ _ _ Hm) as (d & w & -> & Hd & _).
    intros H; injection H as <- _.
    destruct (word_is_no_space _ Hd) as [Hs He].
    exact (assignment_not_matched "assign" d _ eq_refl Hs He).
  - destruct (bitwise_match _ _ _ Hm) as (w & c & -> & Hw & -> & Hc).
    intros H; injection H as <- _.
    destruct (operator_is_no_space _ Hc) as [Hs He].
    exact (assignment_not_matched w c _ Hw Hs He).
Qed.

Lemma first_rule_steady rs :
  forall line self,
    rules (snd (first_rule rs line self)) = rules self
    /\ in_always_block (snd (first_rule rs line self)) = in_always_block self.
Proof.
  induction rs as [|rule rs IH]; intros line self; cbn [first_rule];
    [split; reflexivity|].
  destruct (re_match (pattern rule) line) as [[g n]|]; [|apply IH].
  pose proof (steady_convert rule g self) as H.
  now destruct (convert rule g self) as [[r| |] self1].
Qed.

Lemma first_rule_result_is_settled rs :
  forall line self result self1,
    in_always_block self = false ->
    first_rule rs line self = (Ret (Some (Some result)), self1) ->
    re_match (pattern AssignmentRule) result = None.
Proof.
  induction rs as [|rule rs IH]; intros line self result self1 Hflag;
    cbn [first_rule]; [discriminate|].
  destruct (re_match (pattern rule) line) as [[g n]|] eqn:Em;
    [|now apply IH].
  destruct (convert rule g self) as [[r| |] self2] eqn:Ec; try discriminate.
  intros H; injection H as -> <-.
  exact (convert_result_is_settled _ _ _ _ _ _ _ Hflag Em Ec).
Qed.

Lemma first_rule_unmatched rs :
  forall line self self1,
    first_rule rs line self = (Ret None, self1) ->
    forall rule, In rule rs -> re_match (pattern rule) line = None.
Proof.
  induction rs as [|rule rs IH]; intros line self self1; cbn [first_rule];
    [intros _ r []|].
  destruct (re_match (pattern rule) line) as [[g n]|] eqn:Em.
  - destruct (convert rule g self) as [[r| |] self2]; discriminate.
  - intros H r [<-|Hin]; [exact Em|exact (IH _ _ _ H r Hin)].
Qed.

Lemma convert_lines_inert fuel :
  forall lines i processed self processed' self',
    in_always_block self = false ->
    Forall (inert (rules self)) processed ->
    convert_lines fuel lines i processed self = (Ret processed', self') ->
    Forall (inert (rules self)) processed'
    /\ rules self' = rules self /\ in_always_block self' = false.
Proof.
  induction fuel as [|fuel IH]; intros lines i processed self processed' self'
    Hflag Hin; cbn [convert_lines].
  - destruct (i <? List.length lines); [discriminate|].
    intros H; injection H as <- <-; auto.
  - destruct (i <? List.length lines);
      [|intros H; injection H as <- <-; auto].
    destruct (Py.contains _ _ && _ && _).
    + destruct (_parse_block lines i) as [body j].
      assert (rules match current_function self with
                    | Some r => set_statements self r body
                    | None => self
                    end = rules self) as R
        by now destruct (current_function self).
      intros H; apply IH in H.
      * now rewrite R in H.
      * now destruct (current_function self).
      * now rewrite R.
    + pose proof (first_rule_steady (rules self)
                    (Py.strip (nth i lines EmptyString)) self) as [R F].
      destruct (first_rule _ _ self) as [[[[result|]|]| |] self1] eqn:E;
        cbn [snd] in R, F; try discriminate.
      * intros H; apply IH in H; try congruence.
        rewrite R; destruct (nonempty result); [|exact Hin].
        apply Forall_app; split; [exact Hin|].
        constructor; [|constructor].
        intros _.
        exact (first_rule_result_is_settled _ _ _ _ _ Hflag E).
      * intros H; apply IH in H; try congruence.
      * intros H; apply IH in H; try congruence.
        rewrite R; apply Forall_app; split; [exact Hin|].
        constructor; [|constructor].
        intros Ha. exact (first_rule_unmatched _ _ _ _ E _ Ha).
Qed.

Lemma main_logic_rules_inert rs :
  forall line self, inert rs line -> main_logic_rules rs line self = (None, self).
Proof.
  induction rs as [|rule rs IH]; intros line self H; [reflexivity|].
  assert (inert rs line) as H' by (intros Ha; apply H; now right).
  destruct rule; cbn [main_logic_rules]; try now apply IH.
  rewrite (H (or_introl eq_refl)). now apply IH.
Qed.

Lemma main_logic_inert ls :
  forall self,
    Forall (inert (rules self)) ls ->
    main_logic ls self = (map indented (filter kept_in_main ls), self).
Proof.
  induction ls as [|l ls IH]; intros self H; [reflexivity|].
  inversion H as [|? ? Hl Hls]; subst.
  cbn [main_logic filter]; unfold kept_in_main at 1.
  destruct (nonempty l && _); [|now apply IH].
  rewrite (main_logic_rules_inert _ _ _ Hl), (IH _ Hls).
  reflexivity.
Qed.

(** X21. Once the lines of a source have been processed by a converter
    that was not inside an always block, the main logic of the generated
    module converts none of them: every processed line that is not empty
    and does not start with [int], [signed] or [function] is copied with
    its indentation, and the converter is not touched.  An assignment of
    the main program is therefore written [assign v = e;] inside the
    always block, never [v <= e;]. *)
Theorem second_pass_converts_nothing
    (fuel : nat) (lines processed : list string)
    (self self1 : PseudoCToVerilog) :
  in_always_block self = false ->
  convert_lines fuel lines 0 [] self = (Ret processed, self1) ->
  main_logic processed (set_in_always_block self1 true)
  = (map indented (filter kept_in_main processed),
     set_in_always_block self1 true).
Proof.
  intros Hflag H.
  apply convert_lines_inert in H as (Hin & R & _); [|exact Hflag|constructor].
  apply main_logic_inert. cbn [rules set_in_always_block].
  now rewrite R.
Qed.

Lemma second_pass_converts_nothing_witness :
  let lines := ["int.8 a;"; "a = b + 1;"; "a & b"; "done"]%string in
  let processed := ["assign a = b + 1;"; "a & b"; "done"]%string in
  let self1 :=
    set_variables init [("a"%string, mkVariable "a" (mkTypeInfo "int" 8 None))] in
  main_logic processed (set_in_always_block self1 true)
  = (["            assign a = b + 1;"; "            a & b"; "            done"]%string,
     set_in_always_block self1 true).
Proof.
  intros lines processed self1.
  apply (second_pass_converts_nothing 4 lines processed init self1);
    reflexivity.
Defined.

End SecondPass.

(** ** Function headers of the rule pipeline *)

Section Headers.

Import Re Main.
Local Open Scope string_scope.

Lemma word_is_no_mark c :
  word c = true ->
  space c = false /\ Ascii.eqb "." c = false /\ Ascii.eqb ":" c = false
  /\ Ascii.eqb ";" c = false.
Proof.
  destruct c as [[] [] [] [] [] [] [] []]; intros H; vm_compute in H;
    try discriminate H; repeat split; reflexivity.
Qed.

Lemma star_greedy_stop {R} p d t (k : string -> option R) :
  p d = false -> star_greedy p (String d t) k = k (String d t).
Proof. intros H; cbn [star_greedy]; now rewrite H. Qed.

Lemma star_greedy_longer {R} p w s (k : string -> option R) x :
  all_chars p w = true ->
  star_greedy p s k = Some x -> star_greedy p (w ++ s) k = Some x.
Proof.
  intros Hw Hs; induction w as [|c w IH]; [exact Hs|].
  cbn [all_chars] in Hw; apply andb_true_iff in Hw as [Hc Hw].
  cbn [String.append star_greedy]; now rewrite Hc, (IH Hw).
Qed.

Lemma star_lazy_pass {R} p q a s (k : string -> option R) :
  all_chars (fun d => p d && q d) a = true ->
  (forall d t, q d = true -> k (String d t) = None) ->
  star_lazy p (a ++ s) k = star_lazy p s k.
Proof.
  intros Ha Hk; induction a as [|c a IH]; [reflexivity|].
  cbn [all_chars] in Ha; apply andb_true_iff in Ha as [Hc Ha].
  apply andb_true_iff in Hc as [Hp Hq].
  cbn [String.append star_lazy]; now rewrite (Hk _ _ Hq), Hp, (IH Ha).
Qed.

(** From the name on: the name is one character, the parameters go up to
    the first closing parenthesis. *)
Lemma name_onwards_matches c params rest g
    (kf : string -> groups -> option (groups * nat)) x :
  word c = true ->
  all_chars parameter_char params = true ->
  kf rest (set_group (set_group g 3 (String c EmptyString)) 4 params) = Some x ->
  run (Star space) (String c ("(" ++ params ++ ") {" ++ rest)) g
      (fun s' g' => run header_name_onwards s' g' kf) = Some x.
Proof.
  intros Hc Hp Hk.
  destruct (word_is_no_mark _ Hc) as (Hs & _).
  cbn [run]; rewrite (star_greedy_stop _ _ _ _ Hs).
  unfold header_name_onwards; cbn [run]; rewrite Hc.
  cbn [String.append].
  rewrite (star_greedy_stop word "(") by reflexivity.
  rewrite Ascii.eqb_refl.
  rewrite (star_lazy_pass dot (fun d => negb (Ascii.eqb d ")"))) by
    (try exact Hp; intros d t Hd; rewrite Ascii.eqb_sym;
     now destruct (Ascii.eqb d ")")).
  cbn [star_lazy]; rewrite Ascii.eqb_refl.
  cbn [star_greedy]; change (space " ") with true;
    change (space "{") with false; cbn beta iota.
  rewrite Ascii.eqb_refl.
  match goal with
  | |- context [Py.take (String.length (String c ?t) - String.length ?t) _] =>
      change (String c t) with (String c EmptyString ++ t)
  end.
  rewrite !take_length_diff, Hk. reflexivity.
Qed.

Lemma name_onwards_fails s g (kf : string -> groups -> option (groups * nat)) :
  run (Star space) (String "(" s) g
      (fun s' g' => run header_name_onwards s' g' kf) = None.
Proof.
  cbn [run]; rewrite (star_greedy_stop space "(") by reflexivity.
  reflexivity.
Qed.

Lemma suffixes_skipped d t g (k : string -> groups -> option (groups * nat)) :
  Ascii.eqb "." d = false -> Ascii.eqb ":" d = false ->
  run (Cat (Opt (Cat (Chr ".") (Plus digit)))
           (Opt (Cat (Str "::") (Plus word)))) (String d t) g k
  = k (String d t) g.
Proof.
  intros H1 H2; cbn [run Py.startswith]. now rewrite H1, H2.
Qed.

(** The type of a header takes all of the word but its last character. *)
Lemma type_takes_the_word w c params rest g
    (kf : string -> groups -> option (groups * nat)) x :
  w <> EmptyString -> all_chars word w = true -> word c = true ->
  all_chars parameter_char params = true ->
  kf rest (set_group (set_group (set_group g 2 w) 3 (String c EmptyString))
                     4 params) = Some x ->
  run (Opt (Group 2 type_pattern))
      (w ++ String c ("(" ++ params ++ ") {" ++ rest)) g
      (fun s' g' =>
         run (Star space) s' g'
             (fun s2 g2 => run header_name_onwards s2 g2 kf)) = Some x.
Proof.
  intros Hne Hw Hc Hp Hk.
  destruct w as [|d w]; [congruence|].
  cbn [all_chars] in Hw; apply andb_true_iff in Hw as [Hd Hw].
  destruct (word_is_no_mark _ Hc) as (_ & Hdot & Hcolon & _).
  assert (run (Group 2 type_pattern)
            (String d w ++ String c ("(" ++ params ++ ") {" ++ rest)) g
            (fun s' g' =>
               run (Star space) s' g'
                   (fun s2 g2 => run header_name_onwards s2 g2 kf))
          = Some x) as E; [|cbn [run] in *; now rewrite E].
  unfold type_pattern.
  change (run (Group 2 ?r) ?s g ?k)
    with (run r s g (fun s' g' =>
            k s' (set_group g' 2
                    (Py.take (String.length s - String.length s') s)))).
  change (run (Cat (Plus word) ?r) ?s g ?k)
    with (run (Plus word) s g (fun s' g' => run r s' g' k)).
  set (T := ("(" ++ params ++ ") {" ++ rest)%string).
  change (String d w ++ String c T)%string with (String d (w ++ String c T)).
  change (run (Plus word) (String d ?t) g ?k)
    with (if word d then star_greedy word t (fun s2 => k s2 g) else None).
  rewrite Hd. apply star_greedy_longer; [exact Hw|].
  cbn [star_greedy]; rewrite Hc.
  rewrite suffixes_skipped by assumption.
  change (String d (w ++ String c T)) with (String d w ++ String c T)%string.
  rewrite take_length_diff.
  unfold T at 1; cbn [String.append].
  rewrite (star_greedy_stop word "(") by reflexivity.
  rewrite suffixes_skipped by reflexivity.
  rewrite name_onwards_fails.
  now apply name_onwards_matches.
Qed.

(** Before a name of one character no type is read. *)
Lemma type_is_given_up c params rest g
    (kf : string -> groups -> option (groups * nat)) x :
  word c = true ->
  all_chars parameter_char params = true ->
  kf rest (set_group (set_group g 3 (String c EmptyString)) 4 params) = Some x ->
  run (Opt (Group 2 type_pattern))
      (String c ("(" ++ params ++ ") {" ++ rest)) g
      (fun s' g' =>
         run (Star space) s' g'
             (fun s2 g2 => run header_name_onwards s2 g2 kf)) = Some x.
Proof.
  intros Hc Hp Hk.
  set (T := ("(" ++ params ++ ") {" ++ rest)%string).
  assert (run (Group 2 type_pattern) (String c T) g
            (fun s' g' =>
               run (Star space) s' g'
                   (fun s2 g2 => run header_name_onwards s2 g2 kf))
          = None) as E.
  { unfold type_pattern.
    change (run (Group 2 ?r) ?s g ?k)
      with (run r s g (fun s' g' =>
              k s' (set_group g' 2
                      (Py.take (String.length s - String.length s') s)))).
    change (run (Cat (Plus word) ?r) ?s g ?k)
      with (run (Plus word) s g (fun s' g' => run r s' g' k)).
    change (run (Plus word) (String c ?t) g ?k)
      with (if word c then star_greedy word t (fun s2 => k s2 g) else None).
    rewrite Hc. unfold T at 1; cbn [String.append].
    rewrite (star_greedy_stop word "(") by reflexivity.
    rewrite suffixes_skipped by reflexivity.
    apply name_onwards_fails. }
  change (run (Opt ?a) ?s ?g0 ?k)
    with (match run a s g0 k with Some y => Some y | None => k s g0 end).
  rewrite E. now apply name_onwards_matches.
Qed.

(** The match of a header whose name follows [function] directly. *)
Lemma untyped_header_match w c params rest :
  w <> EmptyString -> all_chars word w = true -> word c = true ->
  all_chars parameter_char params = true ->
  exists n,
    re_match (pattern FunctionDeclarationRule)
      ("function " ++ w ++ String c ("(" ++ params ++ ") {" ++ rest))
    = Some (set_group (set_group (set_group no_groups 2 w)
                                 3 (String c EmptyString)) 4 params, n).
Proof.
  intros Hne Hw Hc Hp.
  eexists. unfold re_match.
  change (pattern FunctionDeclarationRule)
    with (Cat (Str "function")
         (Cat (Opt (Cat (Str "::") (Group 1 (Plus word))))
         (Cat (Star space)
         (Cat (Opt (Group 2 type_pattern))
         (Cat (Star space) header_name_onwards))))).
  set (after := (w ++ String c ("(" ++ params ++ ") {" ++ rest))%string).
  change ("function " ++ after)%string
    with (String "f" (String "u" (String "n" (String "c" (String "t"
         (String "i" (String "o" (String "n" (String " " after))))))))).
  change (run (Cat (Str "function") ?r) _ no_groups ?k)
    with (run r (String " " after) no_groups k).
  change (run (Cat (Opt (Cat (Str "::") _)) ?r) (String " " after) no_groups ?k)
    with (run r (String " " after) no_groups k).
  change (run (Cat (Star space) ?r) ?s ?g ?k)
    with (star_greedy space s (fun s' => run r s' g k)).
  apply (star_greedy_longer space (String " " EmptyString) after); [reflexivity|].
  assert (exists d t, after = String d t /\ space d = false) as (d & t & E & Hd).
  { unfold after; destruct w as [|d w]; [congruence|].
    cbn [all_chars] in Hw; apply andb_true_iff in Hw as [Hd _].
    exists d; eexists; split; [reflexivity|].
    now destruct (word_is_no_mark _ Hd). }
  rewrite E, (star_greedy_stop _ _ _ _ Hd), <- E.
  change (run (Cat (Opt (Group 2 type_pattern)) ?r) after no_groups ?k)
    with (run (Opt (Group 2 type_pattern)) after no_groups
              (fun s' g' => run r s' g' k)).
  change (fun s' g' => run (Cat (Star space) header_name_onwards) s' g' ?k)
    with (fun s' g' =>
            run (Star space) s' g'
                (fun s2 g2 => run header_name_onwards s2 g2 k)).
  apply type_takes_the_word; try assumption.
  reflexivity.
Qed.

Lemma short_header_match c params rest :
  word c = true ->
  all_chars parameter_char params = true ->
  exists n,
    re_match (pattern FunctionDeclarationRule)
      ("function " ++ String c ("(" ++ params ++ ") {" ++ rest))
    = Some (set_group (set_group no_groups 3 (String c EmptyString)) 4 params,
            n).
Proof.
  intros Hc Hp.
  eexists. unfold re_match.
  change (pattern FunctionDeclarationRule)
    with (Cat (Str "function")
         (Cat (Opt (Cat (Str "::") (Group 1 (Plus word))))
         (Cat (Star space)
         (Cat (Opt (Group 2 type_pattern))
         (Cat (Star space) header_name_onwards))))).
  set (after := String c ("(" ++ params ++ ") {" ++ rest)).
  change ("function " ++ after)%string
    with (String "f" (String "u" (String "n" (String "c" (String "t"
         (String "i" (String "o" (String "n" (String " " after))))))))).
  change (run (Cat (Str "function") ?r) _ no_groups ?k)
    with (run r (String " " after) no_groups k).
  change (run (Cat (Opt (Cat (Str "::") _)) ?r) (String " " after) no_groups ?k)
    with (run r (String " " after) no_groups k).
  change (run (Cat (Star space) ?r) ?s ?g ?k)
    with (star_greedy space s (fun s' => run r s' g k)).
  apply (star_greedy_longer space (String " " EmptyString) after); [reflexivity|].
  destruct (word_is_no_mark _ Hc) as (Hs & _).
  unfold after at 1; rewrite (star_greedy_stop _ _ _ _ Hs); fold after.
  change (run (Cat (Opt (Group 2 type_pattern)) ?r) after no_groups ?k)
    with (run (Opt (Group 2 type_pattern)) after no_groups
              (fun s' g' => run r s' g' k)).
  change (fun s' g' => run (Cat (Star space) header_name_onwards) s' g' ?k)
    with (fun s' g' =>
            run (Star space) s' g'
                (fun s2 g2 => run header_name_onwards s2 g2 k)).
  apply type_is_given_up; try assumption.
  reflexivity.
Qed.

Lemma word_text_is_a_base w :
  all_chars word w = true ->
  TypeInfo_parse w = inl (mkTypeInfo w 32 None).
Proof.
  intros Hw.
  assert (lacks ":" w = true) as H1.
  { apply (all_chars_weaken word); [|exact Hw].
    intros c Hc; destruct (word_is_no_mark _ Hc) as (_ & _ & H & _).
    now rewrite Ascii.eqb_sym, H. }
  assert (lacks "." w = true) as H2.
  { apply (all_chars_weaken word); [|exact Hw].
    intros c Hc; destruct (word_is_no_mark _ Hc) as (_ & H & _).
    now rewrite Ascii.eqb_sym, H. }
  rewrite (parse_unsuffixed _ H1), char_in_lacks, H2. reflexivity.
Qed.

(** The pattern of declarations does not match a header. *)
Lemma header_is_no_declaration v t :
  v <> EmptyString -> all_chars word v = true ->
  re_match (pattern VariableDeclarationRule)
    ("function " ++ v ++ String "(" t) = None.
Proof.
  intros Hne Hw.
  unfold re_match.
  change (pattern VariableDeclarationRule)
    with (Cat (Group 1 type_pattern)
              (Cat (Plus space) (Cat (Group 2 (Plus word)) (Chr ";")))).
  set (after := (v ++ String "(" t)%string).
  set (line := ("function " ++ after)%string).
  change (run (Cat (Group 1 type_pattern) ?r) line no_groups ?k)
    with (run (Plus word) line no_groups
            (fun s1 g1 =>
               run (Cat (Opt (Cat (Chr ".") (Plus digit)))
                        (Opt (Cat (Str "::") (Plus word)))) s1 g1
                   (fun s' g' =>
                      run r s' (set_group g' 1
                                  (Py.take (String.length line - String.length s') line))
                          k))).
  change (run (Plus word) line no_groups ?k)
    with (star_greedy word ("unction" ++ String " " after)
            (fun s2 => k s2 no_groups)).
  apply star_greedy_none_heads; [reflexivity| |].
  - rewrite (star_greedy_stop word " ") by reflexivity.
    rewrite suffixes_skipped by reflexivity.
    change (run (Cat (Plus space) ?r) (String " " after) ?g ?k)
      with (star_greedy space after (fun s2 => run r s2 g k)).
    unfold after at 1. destruct v as [|d w]; [congruence|].
    cbn [all_chars] in Hw; apply andb_true_iff in Hw as [Hd Hw].
    destruct (word_is_no_mark _ Hd) as (Hs & _).
    cbn [String.append]; rewrite (star_greedy_stop _ _ _ _ Hs).
    cbn [run]; rewrite Hd.
    apply star_greedy_none_heads.
    + exact Hw.
    + now rewrite (star_greedy_stop word "(") by reflexivity.
    + intros e s He. destruct (word_is_no_mark _ He) as (_ & _ & _ & ->).
      reflexivity.
  - intros e s He.
    destruct (word_is_no_mark _ He) as (Hs & Hdot & Hcolon & _).
    rewrite suffixes_skipped by assumption.
    cbn [run]; now rewrite Hs.
Qed.

(** X22. A header line whose name follows [function] directly, with no
    return type, is read with a name of more than one character cut in
    two: all of the name but its last character becomes a return type of
    width 32, and the last character alone becomes the name of the
    declared function.  A name of one character is kept, and the
    function has no return type.  The line raises exactly when the
    reading of its parameters does, with that error, and the converter
    is then left as it was. *)
Theorem header_without_type_splits_the_name
    (w : string) (c : ascii) (params rest : string)
    (more : list ConversionRule) (self : PseudoCToVerilog) :
  rules self = VariableDeclarationRule :: FunctionDeclarationRule :: more ->
  all_chars word w = true -> word c = true ->
  all_chars parameter_char params = true ->
  first_rule (rules self)
    ("function " ++ w ++ String c ("(" ++ params ++ ") {" ++ rest)) self
  = match header_parameters params with
    | inl parameters =>
        (Ret (Some None),
         declare_function self
           (mkFunction (String c EmptyString) parameters
                       match w with
                       | EmptyString => None
                       | _ => Some (mkTypeInfo w 32 None)
                       end
                       [] CONCURRENT))
    | inr e => (Raise e, self)
    end.
Proof.
  intros Hrules Hw Hc Hp.
  set (line := ("function " ++ w ++ String c ("(" ++ params ++ ") {" ++ rest))).
  assert (re_match (pattern VariableDeclarationRule) line = None) as Hv.
  { unfold line.
    replace (w ++ String c ("(" ++ params ++ ") {" ++ rest))
      with ((w ++ String c EmptyString)
            ++ String "(" (params ++ ") {" ++ rest))
      by (rewrite append_assoc; reflexivity).
    apply header_is_no_declaration.
    - now destruct w.
    - rewrite all_chars_app, Hw; cbn [all_chars]; now rewrite Hc. }
  rewrite Hrules; cbn [first_rule]; rewrite Hv.
  unfold header_parameters.
  destruct w as [|d w].
  - destruct (short_header_match c params rest Hc Hp) as (n & Hf).
    unfold line; cbn [String.append] in *; rewrite Hf.
    cbn [convert].
    unfold group, set_group; cbn [Nat.eqb no_groups].
    now destruct (match Py.strip params with
                  | EmptyString => inl []
                  | String _ _ => convert_parameters (Py.split "," params) []
                  end).
  - destruct (untyped_header_match (String d w) c params rest
                ltac:(discriminate) Hw Hc Hp) as (n & Hf).
    fold line in Hf; rewrite Hf.
    cbn [convert].
    unfold group, set_group; cbn [Nat.eqb no_groups].
    rewrite (word_text_is_a_base _ Hw).
    now destruct (match Py.strip params with
                  | EmptyString => inl []
                  | String _ _ => convert_parameters (Py.split "," params) []
                  end).
Qed.

Lemma header_without_type_splits_the_name_witness :
  first_rule (rules init) "function add(int.8 a) {" init
  = (Ret (Some None),
     declare_function init
       (mkFunction "d" [mkVariable "a" (mkTypeInfo "int" 8 None)]
                   (Some (mkTypeInfo "ad" 32 None)) [] CONCURRENT))
  /\ first_rule (rules init) "function f() {" init
     = (Ret (Some None),
        declare_function init (mkFunction "f" [] None [] CONCURRENT))
  /\ first_rule (rules init) "function add(int.x a) {" init
     = (Raise (InvalidIntLiteral "x"), init).
Proof.
  split; [|split].
  - exact (header_without_type_splits_the_name
             "ad" "d" "int.8 a" EmptyString [AssignmentRule] init
             eq_refl eq_refl eq_refl eq_refl).
  - exact (header_without_type_splits_the_name
             EmptyString "f" EmptyString EmptyString [AssignmentRule] init
             eq_refl eq_refl eq_refl eq_refl).
  - exact (header_without_type_splits_the_name
             "ad" "d" "int.x a" EmptyString [AssignmentRule] init
             eq_refl eq_refl eq_refl eq_refl).
Defined.

End Headers.

(** ** Function bodies of the rule pipeline *)

Section Bodies.

Import Main.

Lemma bodiless_refl a : adds_bodiless a a.
Proof. exists []; split; [now rewrite app_nil_r|constructor]. Qed.

Lemma bodiless_trans a b c :
  adds_bodiless a b -> adds_bodiless b c -> adds_bodiless a c.
Proof.
  intros (l1 & H1 & F1) (l2 & H2 & F2); exists (l1 ++ l2)%list; split.
  - now rewrite H2, H1, app_assoc.
  - apply Forall_app; now split.
Qed.

Ltac same_heap := exists []; split; [simpl; now rewrite app_nil_r|constructor].

Lemma bodiless_call func args self :
  adds_bodiless self (snd (_generate_function_call func args self)).
Proof.
  unfold _generate_function_call.
  destruct (if existsb _ _ then _ else _); same_heap.
Qed.

Lemma bodiless_sub_calls s :
  forall skip self, adds_bodiless self (snd (sub_calls s skip self)).
Proof.
  induction s as [|c rest IH]; intros skip self; cbn [sub_calls];
    [apply bodiless_refl|].
  destruct skip as [|k]; [|apply IH].
  destruct (Re.re_match func_call_pattern (String c rest)) as [[g n]|].
  - unfold replace_func_call.
    destruct (Py.dict_get (functions self) (group g 1)) as [func|].
    + pose proof (bodiless_call func (group g 2) self) as H1.
      destruct (_generate_function_call func (group g 2) self) as [repl self1].
      pose proof (IH (n - 1) self1) as H2.
      destruct (sub_calls rest (n - 1) self1) as [out self2].
      exact (bodiless_trans _ _ _ H1 H2).
    + pose proof (IH (n - 1) self) as H2.
      now destruct (sub_calls rest (n - 1) self).
  - pose proof (IH 0 self) as H2.
    now destruct (sub_calls rest 0 self).
Qed.

Lemma bodiless_convert_assignment g self :
  adds_bodiless self (snd (convert_assignment g self)).
Proof.
  unfold convert_assignment, _convert_expression.
  pose proof (bodiless_sub_calls (group g 2) 0 self) as H.
  destruct (sub_calls (group g 2) 0 self) as [e self1].
  now destruct (in_always_block self1).
Qed.

Lemma bodiless_convert rule g self :
  adds_bodiless self (snd (convert rule g self)).
Proof.
  destruct rule; cbn [convert].
  - destruct (TypeInfo_parse _); same_heap.
  - destruct (match g 1 with Some (String _ _ as m) => SyncMode_of m
                           | _ => inl CONCURRENT end);
      [|same_heap].
    destruct (match g 2 with
              | Some (String _ _ as r) =>
                  match TypeInfo_parse r with
                  | inl t => inl (Some t)
                  | inr e => inr e
                  end
              | _ => inl None
              end); [|same_heap].
    destruct (match Py.strip (group g 4) with
              | EmptyString => inl []
              | String _ _ => convert_parameters (Py.split "," (group g 4)) []
              end); [|same_heap].
    eexists; split; [reflexivity|]. now constructor.
  - pose proof (bodiless_convert_assignment g self) as H.
    now destruct (convert_assignment g self).
  - same_heap.
Qed.

Lemma bodiless_first_rule rs :
  forall line self, adds_bodiless self (snd (first_rule rs line self)).
Proof.
  induction rs as [|rule rs IH]; intros line self; cbn [first_rule];
    [apply bodiless_refl|].
  destruct (Re.re_match (pattern rule) line) as [[g n]|]; [|apply IH].
  pose proof (bodiless_convert rule g self) as H.
  now destruct (convert rule g self) as [[r| |] self1].
Qed.

Lemma bodiless_convert_lines lines :
  (forall i, i < List.length lines -> opens_block lines i = false) ->
  forall fuel i processed self,
    adds_bodiless self (snd (convert_lines fuel lines i processed self)).
Proof.
  intros Hno; induction fuel as [|fuel IH]; intros i processed self;
    cbn [convert_lines].
  - destruct (i <? List.length lines); apply bodiless_refl.
  - destruct (i <? List.length lines) eqn:Hi; [|apply bodiless_refl].
    apply Nat.ltb_lt in Hi.
    fold (opens_block lines i); rewrite (Hno _ Hi).
    pose proof (bodiless_first_rule (rules self)
                  (Py.strip (nth i lines EmptyString)) self) as H.
    destruct (first_rule _ _ self) as [[[[result|]|]| |] self1];
      simpl in H; try exact H; (eapply bodiless_trans; [exact H|apply IH]).
Qed.

Lemma bodiless_main_logic_rules rs :
  forall line self, adds_bodiless self (snd (main_logic_rules rs line self)).
Proof.
  induction rs as [|rule rs IH]; intros line self; cbn [main_logic_rules];
    [apply bodiless_refl|].
  destruct rule; try apply IH.
  destruct (Re.re_match (pattern AssignmentRule) line) as [[g n]|]; [|apply IH].
  pose proof (bodiless_convert_assignment g self) as H.
  destruct (convert_assignment g self) as [converted self1].
  destruct (nonempty converted); [exact H|].
  eapply bodiless_trans; [exact H|apply IH].
Qed.

Lemma bodiless_main_logic ls :
  forall self, adds_bodiless self (snd (main_logic ls self)).
Proof.
  induction ls as [|l ls IH]; intros self; cbn [main_logic];
    [apply bodiless_refl|].
  destruct (nonempty l && _); [|apply IH].
  pose proof (bodiless_main_logic_rules (rules self) l self) as H.
  destruct (main_logic_rules (rules self) l self) as [converted self1].
  pose proof (IH self1) as H2.
  destruct (main_logic ls self1) as [out self2].
  exact (bodiless_trans _ _ _ H H2).
Qed.

Lemma bodiless_body_rules rs :
  forall stmt self, adds_bodiless self (snd (body_rules rs stmt self)).
Proof.
  induction rs as [|rule rs IH]; intros stmt self; cbn [body_rules];
    [apply bodiless_refl|].
  destruct rule; try apply IH.
  destruct (Re.re_match (pattern AssignmentRule) stmt) as [[g n]|]; [|apply IH].
  pose proof (bodiless_convert_assignment g (set_in_always_block self true)) as H.
  destruct (convert_assignment g (set_in_always_block self true))
    as [converted self1].
  exact H.
Qed.

Lemma bodiless_body_lines stmts :
  forall self, adds_bodiless self (snd (body_lines stmts self)).
Proof.
  induction stmts as [|stmt stmts IH]; intros self; cbn [body_lines];
    [apply bodiless_refl|].
  pose proof (bodiless_body_rules (rules self) stmt self) as H.
  destruct (body_rules (rules self) stmt self) as [converted self1].
  pose proof (IH self1) as H2.
  destruct (body_lines stmts self1) as [out self2].
  exact (bodiless_trans _ _ _ H H2).
Qed.

Lemma bodiless_function_modules fs :
  forall self, adds_bodiless self (snd (function_modules fs self)).
Proof.
  induction fs as [|[k func] fs IH]; intros self; cbn [function_modules];
    [apply bodiless_refl|].
  unfold _generate_function_module.
  destruct (module_ports _ _); [|apply bodiless_refl].
  pose proof (bodiless_body_lines (statements (deref self func)) self) as H.
  destruct (body_lines (statements (deref self func)) self) as [body self1].
  pose proof (IH self1) as H2.
  destruct (function_modules fs self1) as [[out|e] self2];
    exact (bodiless_trans _ _ _ H H2).
Qed.

Lemma bodiless_generate_verilog processed self :
  adds_bodiless self (snd (_generate_verilog processed self)).
Proof.
  unfold _generate_verilog.
  destruct (declarations _); [|apply bodiless_refl].
  pose proof (bodiless_main_logic processed (set_in_always_block self true)) as H.
  destruct (main_logic processed (set_in_always_block self true))
    as [logic self1].
  pose proof (bodiless_function_modules
                (functions (set_in_always_block self1 false))
                (set_in_always_block self1 false)) as H2.
  destruct (function_modules _ (set_in_always_block self1 false))
    as [[modules|e] self3]; exact (bodiless_trans _ _ _ H H2).
Qed.

(** X23. Unless some line with an opening brace follows a line with the
    word [function], a compilation with the rule pipeline attaches no
    body to any function: the objects that existed before are left as
    they were, and every function it declares is left without
    statements, however the run ends.  A body written on the line of the
    header is dropped. *)
Theorem bodies_need_a_brace_line
    (fuel : nat) (code : string) (self : PseudoCToVerilog) :
  let lines := Py.split (ascii_of_nat 10) (Py.strip code) in
  (forall i, i < List.length lines -> opens_block lines i = false) ->
  adds_bodiless self (snd (parse_and_convert fuel code self)).
Proof.
  intros lines Hno; unfold parse_and_convert; fold lines.
  pose proof (bodiless_convert_lines lines Hno fuel 0 [] self) as H.
  destruct (convert_lines fuel lines 0 [] self) as [[processed| |] self1];
    try exact H.
  pose proof (bodiless_generate_verilog processed self1) as H2.
  destruct (_generate_verilog processed self1) as [[verilog|e] self2];
    exact (bodiless_trans _ _ _ H H2).
Qed.

Lemma bodies_need_a_brace_line_witness :
  adds_bodiless init (snd (parse_and_convert 2 inc_example init)).
Proof.
  apply (bodies_need_a_brace_line 2 inc_example init).
  intros [|[|i]] Hi; [reflexivity|reflexivity|].
  vm_compute in Hi; lia.
Defined.

End Bodies.

(** ** Expressions of function bodies *)

Section BodyExpressions.

Import AdHocRegex.

Lemma dict_get_In {V} (d : Py.dict V) k v :
  Py.dict_get d k = Some v -> In (k, v) d.
Proof.
  induction d as [|[k' v'] d IH]; simpl; [discriminate|].
  destruct (String.eqb k k') eqn:E.
  - apply String.eqb_eq in E; subst k'. intros [= ->]; now left.
  - intros H; right; auto.
Qed.

Lemma expression_lacks_comma tokens :
  Forall well_classified tokens ->
  lacks "," (_tokens_to_expression tokens) = true.
Proof.
  intros Hall.
  change (_tokens_to_expression tokens)
    with (Py.join " " (expression_parts tokens)).
  apply lacks_join; [reflexivity|].
  induction Hall as [|t tokens Hc _ IH]; [constructor|].
  unfold expression_parts; cbn [flat_map]; apply Forall_app; split; [|exact IH].
  destruct (type t) eqn:E; try constructor; try constructor;
    try (apply kept_text_lacks; auto; fail).
  unfold well_classified in Hc; rewrite E in Hc.
  destruct Hc as (d & -> & Hd).
  destruct (Ascii.eqb d ",") eqn:Ed.
  - apply Ascii.eqb_eq in Ed; subst d. constructor.
  - destruct (Py.contains _ _); constructor; [|constructor].
    unfold lacks; cbn [all_chars]. now rewrite Ed.
Qed.

Lemma parse_body_lacks_comma tokens :
  Forall well_classified tokens ->
  forall fuel i stmts j stmts',
    parse_body fuel tokens i stmts = Ret (j, stmts') ->
    (forall target expr,
        In (assignment target expr) stmts -> lacks "," expr = true) ->
    forall target expr,
      In (assignment target expr) stmts' -> lacks "," expr = true.
Proof.
  intros Hall; induction fuel as [|fuel IH]; intros i stmts j stmts';
    cbn [parse_body].
  - destruct (_ && _); [intros H; discriminate H|].
    intros [= _ <-] Hs; exact Hs.
  - destruct ((i <? List.length tokens) && _);
      [|intros [= _ <-] Hs; exact Hs].
    destruct (type_at tokens i IDENTIFIER && _); [|apply IH].
    unfold collect_while. intros H Hs; apply (IH _ _ _ _ H).
    intros target expr Hin; apply in_app_or in Hin as [Hin|[Hin|[]]];
      [exact (Hs _ _ Hin)|].
    injection Hin as _ <-.
    apply expression_lacks_comma.
    apply Forall_forall; intros t Ht.
    apply take_while_In in Ht as [Ht _]; apply In_skipn in Ht.
    exact (proj1 (Forall_forall _ _) Hall _ Ht).
Qed.

Lemma parse_function_lacks_comma tokens i j f :
  Forall well_classified tokens ->
  _parse_function tokens i = Ret (j, f) ->
  forall target expr,
    In (assignment target expr) (statements f) -> lacks "," expr = true.
Proof.
  intros Hall; unfold _parse_function.
  destruct (parse_sync_mode tokens i) as [[m i1]| |]; cbn [bind];
    try discriminate.
  destruct (parse_return_type tokens i1) as [[r i2]| |]; cbn [bind];
    try discriminate.
  destruct (parse_name tokens i2) as [[n i3]| |]; cbn [bind];
    try discriminate.
  destruct (parse_parameter_list tokens i3) as [[ps i4]| |]; cbn [bind];
    try discriminate.
  unfold parse_function_body.
  destruct (is_at tokens i4 DELIMITER "{").
  - destruct (parse_body _ tokens (i4 + 1) []) as [[k stmts]| |] eqn:E;
      cbn [bind]; try discriminate.
    intros [= _ <-]; cbn [statements].
    apply (parse_body_lacks_comma tokens Hall _ _ _ _ _ E).
    intros ? ? [].
  - cbn [bind]; intros [= _ <-] ? ? [].
Qed.

(** X24. In the AST built from a source text no statement of a function
    body holds a comma in its expression: the scan of a body assignment
    goes up to the semicolon, and of the delimiters in between only the
    parentheses are written back, so the arguments of a call in a body
    lose their separators. *)
Theorem body_expressions_hold_no_comma lines ctx ast ctx' :
  build_ast (tokenize lines) ctx = (Ret ast, ctx') ->
  forall fname f target expr,
    Py.dict_get (ast_functions ast) fname = Some f ->
    In (assignment target expr) (statements f) ->
    lacks "," expr = true.
Proof.
  intros H fname f target expr Hf; apply dict_get_In in Hf.
  revert fname f Hf target expr.
  revert H; unfold build_ast.
  apply (build_loop_keeps
           (fun ast _ =>
              forall fname f,
                In (fname, f) (ast_functions ast) ->
                forall target expr,
                  In (assignment target expr) (statements f) ->
                  lacks "," expr = true)).
  2:{ intros ? ? []. }
  intros i a c j a' c' H Hs.
  assert (Forall well_classified (tokenize lines)) as Hall.
  { apply Forall_forall; intros t Ht.
    exact (proj1 (tokens_are_classified_in lines t Ht)). }
  unfold build_step in Hs.
  destruct (type_at _ i TYPE && type_at _ (i + 1) IDENTIFIER).
  { destruct (TypeInfo_parse _); [|discriminate].
    injection Hs as _ <- _; exact H. }
  destruct (is_at _ i KEYWORD "function").
  { destruct (_parse_function _ i) as [[k g]| |] eqn:E; try discriminate.
    injection Hs as _ <- _; cbn [ast_functions].
    apply (dict_set_values
             (fun _ f =>
                forall target expr,
                  In (assignment target expr) (statements f) ->
                  lacks "," expr = true)); [|exact H].
    exact (parse_function_lacks_comma _ _ _ _ Hall E). }
  destruct (type_at _ i IDENTIFIER && _).
  2:{ injection Hs as _ <- _; exact H. }
  unfold collect_while in Hs; injection Hs as _ <- _. exact H.
Qed.

Lemma body_expressions_hold_no_comma_witness :
  exists ast f,
    fst (build_ast (tokenize ["function int f(int a) { y = g(a, b); }"]) init)
    = Ret ast
    /\ Py.dict_get (ast_functions ast) "f" = Some f
    /\ In (assignment "y" "g ( a b )") (statements f)
    /\ lacks "," "g ( a b )" = true.
Proof.
  destruct (build_ast (tokenize ["function int f(int a) { y = g(a, b); }"])
                      init) as [r ctx'] eqn:E.
  assert (exists ast f,
             r = Ret ast
             /\ Py.dict_get (ast_functions ast) "f" = Some f
             /\ In (assignment "y" "g ( a b )") (statements f))
    as (ast & f & -> & Hf & Hin)
    by (vm_compute in E; injection E as <- _; eexists; eexists; split;
        [reflexivity|split; [reflexivity|now left]]).
  exists ast, f; split; [reflexivity|]. split; [exact Hf|]. split; [exact Hin|].
  exact (body_expressions_hold_no_comma _ _ _ _ E _ _ _ _ Hf Hin).
Defined.

End BodyExpressions.

(** ** Declaration lines of the rule pipeline *)

Section Declarations.

Import Re Main.
Local Open Scope string_scope.

(** From the blank on: the name is the word before the semicolon. *)
Lemma name_and_semicolon_match name rest g
    (kf : string -> groups -> option (groups * nat)) x :
  name <> EmptyString -> all_chars word name = true ->
  kf rest (set_group g 2 name) = Some x ->
  run (Cat (Plus space) (Cat (Group 2 (Plus word)) (Chr ";")))
      (" " ++ name ++ ";" ++ rest) g kf = Some x.
Proof.
  intros Hne Hw Hk.
  destruct name as [|n name]; [congruence|].
  cbn [all_chars] in Hw; apply andb_true_iff in Hw as [Hn Hw].
  destruct (word_is_no_mark _ Hn) as (Hs & _).
  change (run (Cat (Plus space) ?r) (" " ++ ?s) g kf)
    with (star_greedy space s (fun s2 => run r s2 g kf)).
  cbn [String.append]; rewrite (star_greedy_stop _ _ _ _ Hs).
  change (run (Cat (Group 2 (Plus word)) (Chr ";")) (String n ?s) g kf)
    with (if word n
          then star_greedy word s
                 (fun s2 => run (Chr ";") s2
                    (set_group g 2
                       (Py.take (String.length (String n s) - String.length s2)
                                (String n s))) kf)
          else None).
  rewrite Hn. apply star_greedy_longer; [exact Hw|].
  rewrite (star_greedy_stop word ";") by reflexivity.
  cbn [run]; rewrite Ascii.eqb_refl.
  change (String n (name ++ String ";" rest))
    with (String n name ++ String ";" rest).
  now rewrite take_length_diff.
Qed.

(** The type pattern takes a base and its width and stops at the
    blank. *)
Lemma type_text_matches base digits rest g
    (k : string -> groups -> option (groups * nat)) x :
  base <> EmptyString -> all_chars word base = true ->
  all_chars digit digits = true ->
  k (String " " rest) g = Some x ->
  run type_pattern (type_text base digits ++ String " " rest) g k = Some x.
Proof.
  intros Hne Hb Hd Hk.
  destruct base as [|b base]; [congruence|].
  cbn [all_chars] in Hb; apply andb_true_iff in Hb as [Hb0 Hb].
  assert (run (Opt (Cat (Str "::") (Plus word))) (String " " rest) g k = Some x)
    as Hcolon by (cbn [run Py.startswith]; exact Hk).
  unfold type_pattern.
  change (run (Cat (Plus word) ?r) ?s g k)
    with (run (Plus word) s g (fun s' g' => run r s' g' k)).
  destruct digits as [|e digits]; cbn [type_text].
  - change (run (Plus word) (String b base ++ ?s) g ?k)
      with (if word b then star_greedy word (base ++ s) (fun s2 => k s2 g)
            else None).
    rewrite Hb0; apply star_greedy_longer; [exact Hb|].
    rewrite (star_greedy_stop word " ") by reflexivity.
    now rewrite suffixes_skipped by reflexivity.
  - cbn [all_chars] in Hd; apply andb_true_iff in Hd as [He Hd].
    replace ((String b base ++ "." ++ String e digits) ++ String " " rest)
      with (String b (base ++ String "." (String e (digits ++ String " " rest))))
      by (cbn [String.append]; now rewrite append_assoc).
    change (run (Plus word) (String b ?s) g ?k)
      with (if word b then star_greedy word s (fun s2 => k s2 g) else None).
    rewrite Hb0; apply star_greedy_longer; [exact Hb|].
    rewrite (star_greedy_stop word ".") by reflexivity.
    change (run (Cat (Opt ?a) ?r) ?s g k)
      with (match run a s g (fun s' g' => run r s' g' k) with
            | Some y => Some y
            | None => run r s g k
            end).
    assert (run (Cat (Chr ".") (Plus digit))
              (String "." (String e (digits ++ String " " rest))) g
              (fun s' g' => run (Opt (Cat (Str "::") (Plus word))) s' g' k)
            = Some x) as ->; [|reflexivity].
    cbn [run]; rewrite Ascii.eqb_refl, He.
    apply star_greedy_longer; [exact Hd|].
    rewrite (star_greedy_stop digit " ") by reflexivity.
    exact Hk.
Qed.

(** X25. A line made of a type text without mode, one blank, a name and
    a semicolon is a declaration for the rule pipeline: the name is bound
    to a variable of the type that [TypeInfo.parse] reads in the type
    text, no text is written for the line, and what follows the
    semicolon is ignored. *)
Theorem declaration_line_declares
    (base digits name rest : string)
    (more : list ConversionRule) (self : PseudoCToVerilog) :
  rules self = VariableDeclarationRule :: more ->
  base <> EmptyString -> all_chars word base = true ->
  all_chars digit digits = true ->
  name <> EmptyString -> all_chars word name = true ->
  first_rule (rules self)
    (type_text base digits ++ " " ++ name ++ ";" ++ rest) self
  = match TypeInfo_parse (type_text base digits) with
    | inl type_info =>
        (Ret (Some None),
         set_variables self
           (Py.dict_set (variables self) name (mkVariable name type_info)))
    | inr e => (Raise e, self)
    end.
Proof.
  intros Hrules Hne Hb Hd Hnn Hn.
  assert (exists n,
            re_match (pattern VariableDeclarationRule)
              (type_text base digits ++ " " ++ name ++ ";" ++ rest)
            = Some (set_group (set_group no_groups 1 (type_text base digits))
                              2 name, n)) as (n & Hm).
  { eexists; unfold re_match.
    set (ty := type_text base digits).
    change (pattern VariableDeclarationRule)
      with (Cat (Group 1 type_pattern)
                (Cat (Plus space) (Cat (Group 2 (Plus word)) (Chr ";")))).
    change (run (Cat (Group 1 type_pattern) ?r) ?s no_groups ?k)
      with (run type_pattern s no_groups
              (fun s' g' =>
                 run r s'
                     (set_group g' 1
                        (Py.take (String.length s - String.length s') s)) k)).
    apply type_text_matches; try assumption.
    change (ty ++ " " ++ name ++ ";" ++ rest)
      with (ty ++ String " " (name ++ ";" ++ rest)).
    rewrite take_length_diff.
    apply (name_and_semicolon_match name rest); try assumption.
    reflexivity. }
  rewrite Hrules; cbn [first_rule]; rewrite Hm.
  cbn [convert]; unfold group, set_group; cbn [Nat.eqb].
  now destruct (TypeInfo_parse (type_text base digits)).
Qed.

Lemma declaration_line_declares_witness :
  first_rule (rules init) "int.8 a; // counter" init
  = (Ret (Some None),
     set_variables init [("a", mkVariable "a" (mkTypeInfo "int" 8 None))]).
Proof.
  apply (declaration_line_declares "int" "8" "a" " // counter"
           [FunctionDeclarationRule; AssignmentRule] init);
    try reflexivity; discriminate.
Defined.

End Declarations.

(** ** The always-block flag *)

Section AlwaysBlock.

Import Main.

Lemma flag_convert_lines fuel :
  forall lines i processed self,
    in_always_block (snd (convert_lines fuel lines i processed self))
    = in_always_block self.
Proof.
  induction fuel as [|fuel IH]; intros lines i processed self;
    cbn [convert_lines].
  - now destruct (i <? List.length lines).
  - destruct (i <? List.length lines); [|reflexivity].
    destruct (Py.contains _ _ && _ && _).
    + destruct (_parse_block lines i) as [body j].
      rewrite IH. now destruct (current_function self).
    + pose proof (first_rule_steady (rules self)
                    (Py.strip (nth i lines EmptyString)) self) as [_ F].
      destruct (first_rule _ _ self) as [[[[result|]|]| |] self1];
        cbn [snd] in F |- *; try exact F; now rewrite IH.
Qed.

Lemma flag_convert_assignment g self :
  in_always_block (snd (convert_assignment g self)) = in_always_block self.
Proof.
  unfold convert_assignment, _convert_expression.
  pose proof (steady_sub_calls (group g 2) 0 self) as [_ F].
  destruct (sub_calls (group g 2) 0 self) as [e self1].
  now destruct (in_always_block self1).
Qed.

Lemma flag_main_logic_rules rs :
  forall line self,
    in_always_block (snd (main_logic_rules rs line self))
    = in_always_block self.
Proof.
  induction rs as [|rule rs IH]; intros line self; cbn [main_logic_rules];
    [reflexivity|].
  destruct rule; try apply IH.
  destruct (Re.re_match (pattern AssignmentRule) line) as [[g n]|]; [|apply IH].
  pose proof (flag_convert_assignment g self) as F.
  destruct (convert_assignment g self) as [converted self1].
  destruct (nonempty converted); [exact F|].
  cbn [snd] in F; now rewrite IH.
Qed.

Lemma flag_main_logic ls :
  forall self,
    in_always_block (snd (main_logic ls self)) = in_always_block self.
Proof.
  induction ls as [|l ls IH]; intros self; cbn [main_logic]; [reflexivity|].
  destruct (nonempty l && _); [|apply IH].
  pose proof (flag_main_logic_rules (rules self) l self) as F.
  destruct (main_logic_rules (rules self) l self) as [converted self1].
  pose proof (IH self1) as F2.
  destruct (main_logic ls self1) as [out self2].
  cbn [snd] in *; congruence.
Qed.

Lemma flag_body_rules rs :
  forall stmt self,
    in_always_block self = false ->
    in_always_block (snd (body_rules rs stmt self)) = false.
Proof.
  induction rs as [|rule rs IH]; intros stmt self Hf; cbn [body_rules];
    [exact Hf|].
  destruct rule; try now apply IH.
  destruct (Re.re_match (pattern AssignmentRule) stmt) as [[g n]|];
    [|now apply IH].
  now destruct (convert_assignment g (set_in_always_block self true)).
Qed.

Lemma flag_body_lines stmts :
  forall self,
    in_always_block self = false ->
    in_always_block (snd (body_lines stmts self)) = false.
Proof.
  induction stmts as [|stmt stmts IH]; intros self Hf; cbn [body_lines];
    [exact Hf|].
  pose proof (flag_body_rules (rules self) stmt self Hf) as F.
  destruct (body_rules (rules self) stmt self) as [converted self1].
  pose proof (IH self1 F) as F2.
  now destruct (body_lines stmts self1) as [out self2].
Qed.

Lemma flag_function_modules fs :
  forall self,
    in_always_block self = false ->
    in_always_block (snd (function_modules fs self)) = false.
Proof.
  induction fs as [|[k func] fs IH]; intros self Hf; cbn [function_modules];
    [exact Hf|].
  unfold _generate_function_module.
  destruct (module_ports _ _); [|exact Hf].
  pose proof (flag_body_lines (statements (deref self func)) self Hf) as F.
  destruct (body_lines (statements (deref self func)) self) as [body self1].
  pose proof (IH self1 F) as F2.
  now destruct (function_modules fs self1) as [[out|e] self2].
Qed.

(** A register that cannot be written ends the generation before the
    flag is touched. *)
Lemma flag_generate_verilog processed self :
  in_always_block self = false
  \/ (exists verilog, fst (_generate_verilog processed self) = inl verilog) ->
  in_always_block (snd (_generate_verilog processed self)) = false.
Proof.
  unfold _generate_verilog.
  destruct (declarations _) as [registers|e];
    [intros _|intros [H|(text & H)]; [exact H|discriminate H]].
  destruct (main_logic processed (set_in_always_block self true))
    as [logic self1].
  pose proof (flag_function_modules
                (functions (set_in_always_block self1 false))
                (set_in_always_block self1 false) eq_refl) as F.
  now destruct (function_modules _ (set_in_always_block self1 false))
    as [[modules|e] self3].
Qed.

(** X26. A converter that is not inside an always block when a
    compilation with the rule pipeline starts is not inside one when it
    ends, with a text, an error or out of iterations; and after a
    compilation that returns a text it is outside whatever it was
    before.  The flag raised for the main logic and for every body
    statement is always lowered again. *)
Theorem compiling_ends_outside_the_always_block
    (fuel : nat) (code : string) (self : PseudoCToVerilog) :
  in_always_block self = false
  \/ (exists verilog, fst (parse_and_convert fuel code self) = Ret verilog) ->
  in_always_block (snd (parse_and_convert fuel code self)) = false.
Proof.
  unfold parse_and_convert.
  pose proof (flag_convert_lines fuel
                (Py.split (ascii_of_nat 10) (Py.strip code)) 0 [] self) as F.
  destruct (convert_lines fuel _ 0 [] self) as [[processed| |] self1];
    cbn [snd] in F.
  - pose proof (flag_generate_verilog processed self1) as F2.
    destruct (_generate_verilog processed self1) as [[verilog|e] self2];
      cbn [fst snd] in *; (intros [H|(text & H)]; [|try discriminate H]);
      apply F2; [left; congruence|right; eauto|left; congruence].
  - intros [H|(v & H)]; [cbn [snd]; congruence|discriminate H].
  - intros [H|(v & H)]; [cbn [snd]; congruence|discriminate H].
Qed.

Lemma compiling_ends_outside_the_always_block_witness :
  in_always_block
    (snd (parse_and_convert 2 inc_example (set_in_always_block init true)))
  = false.
Proof.
  apply (compiling_ends_outside_the_always_block 2 inc_example
           (set_in_always_block init true)).
  right; eexists; vm_compute; reflexivity.
Defined.

End AlwaysBlock.
